(** * Financial-Market-Analyzer: upstream client and refresh orchestrator

    A shallow embedding of
      - [app/services/alphavantage.py]   (credential pool, request body, retry,
                                          CSV body, cached endpoints),
      - [app/services/analytics.py]      (guidance scoring and rankings, report),
      - [app/services/market_overview.py] (watchlists, snapshot store, refresh,
                                          single flight, scheduler wait),
      - [app/utils/rate_limiter.py]      (the per-minute limiter),
      - [app/config.py]                  (the .env loader),
    followed by the properties established about them.

    Python objects are values of the type [value]; dictionaries keep their
    insertion order and are association lists with unique keys.  Python
    floats are exact rationals ([Q]): the model leaves binary representation
    error out.  Exceptions are the [Err] results of an error monad, and the
    state a coroutine works on is passed explicitly. *)

From stdpp Require Import base option list strings relations gmap sorting.
From Stdlib Require Import ZArith QArith Qabs Lia Lqa DecimalString Ascii.

Local Open Scope string_scope.
Local Open Scope nat_scope.

(** ** Python values *)

#[local] Set Warnings "-register-all".  (* nested lists in [value] *)

Inductive value : Type :=
| VNone
| VBool (b : bool)
| VNum (q : Q)
| VStr (s : string)
| VList (l : list value)
| VDict (d : list (string * value)).

Abbreviation dict := (list (string * value)).

(** [d.get(k)] before the default is applied: [None] means the key is absent. *)
Fixpoint dict_lookup (k : string) (d : dict) : option value :=
  match d with
  | [] => None
  | (k', v) :: d' => if String.eqb k k' then Some v else dict_lookup k d'
  end.

(** [k in d] *)
Definition dict_has (k : string) (d : dict) : bool :=
  match dict_lookup k d with Some _ => true | None => false end.

(** [d.get(k, dflt)] *)
Definition dict_get_or (k : string) (dflt : value) (d : dict) : value :=
  match dict_lookup k d with Some v => v | None => dflt end.

(** [d.get(k)] *)
Definition dict_get (k : string) (d : dict) : value := dict_get_or k VNone d.

(** [d[k] = v]: an existing key keeps its position, a new one goes last. *)
Fixpoint dict_set (k : string) (v : value) (d : dict) : dict :=
  match d with
  | [] => [(k, v)]
  | (k', v') :: d' =>
      if String.eqb k k' then (k, v) :: d' else (k', v') :: dict_set k v d'
  end.

(** [{**d, **updates}] *)
Definition dict_merge (d updates : dict) : dict :=
  fold_left (fun acc kv => dict_set kv.1 kv.2 acc) updates d.

(** ** Exceptions and the state-and-error monad *)

Inductive exn : Type :=
| RuntimeError (msg : string)
| IndexError (msg : string)
| TypeError (msg : string)
| AttributeError (msg : string)
| OSError (msg : string)
| KeyError (msg : string)
| TransportError (msg : string)   (* httpx failure, [raise_for_status], undecodable body *)
| RetryError (last : exn).        (* tenacity: attempts used up *)

Inductive result (A : Type) : Type :=
| Ok (a : A)
| Err (e : exn).
Arguments Ok {A} a.
Arguments Err {A} e.

Definition M (S A : Type) : Type := S -> result A * S.

Definition ret {S A} (a : A) : M S A := fun s => (Ok a, s).
Definition raise {S A} (e : exn) : M S A := fun s => (Err e, s).
Definition bind {S A B} (m : M S A) (k : A -> M S B) : M S B :=
  fun s => match m s with
           | (Ok a, s') => k a s'
           | (Err e, s') => (Err e, s')
           end.
Definition get_state {S} : M S S := fun s => (Ok s, s).
Definition modify {S} (f : S -> S) : M S unit := fun s => (Ok tt, f s).

Declare Scope monad_scope.
Delimit Scope monad_scope with monad.
Notation "x <- m ;; k" := (bind m (fun x => k))
  (at level 100, m at next level, right associativity) : monad_scope.
Notation "m ;;; k" := (bind m (fun _ => k))
  (at level 100, right associativity) : monad_scope.
Local Open Scope monad_scope.

(** ** Settings ([app/config.py]) *)

Record Settings : Type := {
  ENABLE_SERVER_RATE_LIMIT : bool;
  MAX_CALLS_PER_MINUTE : nat;
}.

Definition default_settings : Settings :=
  {| ENABLE_SERVER_RATE_LIMIT := true; MAX_CALLS_PER_MINUTE := 5 |}.

(** ** The upstream client ([app/services/alphavantage.py]) *)

Module Client.

(** What one HTTP exchange gives back: the three statements
    [http.get], [r.raise_for_status()], [r.json()] either raise or decode a
    body. *)
Inductive response : Type :=
| Failed (msg : string)
| Body (data : value).

(** The provider: the answer to the [n]-th request, given its query. *)
Definition upstream : Type := nat -> dict -> response.

Inductive event : Type :=
| EvAcquire                 (* [_rl.acquire()] *)
| EvRequest (query : dict)  (* one [http.get] *)
| EvBackoff.                (* tenacity waits before the next attempt *)

Record AlphaVantageClient : Type := {
  api_keys : list string;
  _next_key_idx : nat;
}.

Record state : Type := {
  client : AlphaVantageClient;
  trace : list event;
}.

Definition emit (e : event) : M state unit :=
  modify (fun st => {| client := client st; trace := trace st ++ [e] |}).

Definition requests (tr : list event) : list dict :=
  omap (fun e => match e with EvRequest q => Some q | _ => None end) tr.

Definition acquires (tr : list event) : nat :=
  length (omap (fun e => match e with EvAcquire => Some tt | _ => None end) tr).


Definition _maybe_rate_limit (cfg : Settings) : M state unit :=
  if ENABLE_SERVER_RATE_LIMIT cfg then emit EvAcquire else ret tt.

Definition no_keys_msg : string := "No Alpha Vantage API keys configured.".

Definition _take_next_key : M state string := fun st =>
  let c := client st in
  match api_keys c with
  | [] => (Err (RuntimeError no_keys_msg), st)
  | _ :: _ =>
      match api_keys c !! _next_key_idx c with
      | None => (Err (IndexError "list index out of range"), st)
      | Some key =>
          (Ok key,
           {| client := {| api_keys := api_keys c;
                           _next_key_idx := (_next_key_idx c + 1) mod length (api_keys c) |};
              trace := trace st |})
      end
  end.

Definition _is_throttle_payload (payload : value) : bool :=
  match payload with
  | VDict d =>
      dict_has "Note" d &&
      match dict_get "Note" d with VStr _ => true | _ => false end
  | _ => false
  end.

(** [http.get(self.base_url, params=query)] with the status check and the
    decoding that follow it. *)
Definition http_get (up : upstream) (query : dict) : M state value := fun st =>
  let st' := {| client := client st; trace := trace st ++ [EvRequest query] |} in
  match up (length (requests (trace st))) query with
  | Failed msg => (Err (TransportError msg), st')
  | Body data => (Ok data, st')
  end.

Definition with_key (base_params : dict) (key : string) : dict :=
  dict_set "apikey" (VStr key) base_params.

(** The [for _ in range(attempts)] loop of [_get] with what follows it. *)
Fixpoint attempt_loop (up : upstream) (base_params : dict) (attempts : nat)
  : M state value :=
  match attempts with
  | O =>
      (* Return one payload with the next key so router can surface upstream detail. *)
      fallback_key <- _take_next_key ;;
      http_get up (with_key base_params fallback_key)
  | S rest =>
      key <- _take_next_key ;;
      data <- http_get up (with_key base_params key) ;;
      if _is_throttle_payload data
      then attempt_loop up base_params rest
      else ret data
  end.

(** The body of [_get], one execution of it. *)
Definition _get_body (cfg : Settings) (up : upstream) (params : dict)
  : M state value :=
  _maybe_rate_limit cfg ;;;
  (fun st => attempt_loop up params (Nat.max 1 (length (api_keys (client st)))) st).

(** [@retry(wait=wait_exponential(...), stop=stop_after_attempt(n))]: every
    exception of the body leads to another attempt after a wait, and when
    the attempts are used up the last exception is wrapped in a [RetryError]. *)
Fixpoint retry_rest {A} (left : nat) (last : exn) (body : M state A) : M state A :=
  match left with
  | O => raise (RetryError last)
  | S left' =>
      emit EvBackoff ;;;
      (fun st => match body st with
                 | (Ok a, st') => (Ok a, st')
                 | (Err e, st') => retry_rest left' e body st'
                 end)
  end.

Definition retry {A} (stop_after_attempt : nat) (body : M state A) : M state A :=
  fun st => match body st with
            | (Ok a, st') => (Ok a, st')
            | (Err e, st') => retry_rest (stop_after_attempt - 1) e body st'
            end.

Definition _get (cfg : Settings) (up : upstream) (params : dict) : M state value :=
  retry 3 (_get_body cfg up params).

(** [n] consecutive calls of an operation, results in call order. *)
Fixpoint repeatM {S A} (n : nat) (m : M S A) : M S (list A) :=
  match n with
  | O => ret []
  | S n' => a <- m ;; rest <- repeatM n' m ;; ret (a :: rest)
  end.

(** *** Vocabulary of the statements about the client *)

Definition mk_state (keys : list string) (c : nat) (tr : list event) : state :=
  {| client := {| api_keys := keys; _next_key_idx := c |}; trace := tr |}.

(** The key the [i]-th draw returns when the cursor starts at [c]. *)
Definition key_at (keys : list string) (c i : nat) : string :=
  keys !!! ((c + i) mod length keys).



(** A throttle payload, and a rejection that is none for the client. *)
Definition busy : value := VDict [("Note", VStr "rate limit reached")].


End Client.

(** ** Guidance scoring ([app/services/analytics.py]) *)

Module Analytics.
Local Open Scope Q_scope.

(** The number a Python [int], [float] or [bool] stands for. *)
Definition as_number (v : value) : option Q :=
  match v with
  | VNum q => Some q
  | VBool b => Some (if b then 1 else 0)
  | _ => None
  end.

(** [isinstance(v, (int, float))] *)
Definition is_number (v : value) : bool :=
  match as_number v with Some _ => true | None => false end.

Definition Qlt_bool (x y : Q) : bool := negb (Qle_bool y x).

(** [min(a, b)] and [max(a, b)]: the first argument wins a tie. *)
Definition py_min (a b : Q) : Q := if Qlt_bool b a then b else a.
Definition py_max (a b : Q) : Q := if Qlt_bool a b then b else a.

(** Rounding to the nearest integer, ties to the even one. *)
Definition round_half_even (x : Q) : Z :=
  let n := Qnum x in
  let d := Z.pos (Qden x) in
  let q := (n / d)%Z in
  let r := (n mod d)%Z in
  match (2 * r ?= d)%Z with
  | Lt => q
  | Gt => (q + 1)%Z
  | Eq => if Z.even q then q else (q + 1)%Z
  end.

(** [round(x, ndigits)] *)
Definition py_round (x : Q) (ndigits : nat) : Q :=
  let scale := Pos.pow 10 (Pos.of_nat ndigits) in
  match ndigits with
  | O => inject_Z (round_half_even x)
  | S _ => round_half_even (x * inject_Z (Z.pos scale)) # scale
  end.

Definition _bounded (x : value) (lo hi : Q) : result Q :=
  match x with
  | VNone => Ok 0.0
  | _ =>
      match as_number x with
      | Some q => Ok (py_max lo (py_min hi q))
      | None => Err (TypeError "'<' not supported between these operands")
      end
  end.

Definition _label_from_score (score : Q) : string :=
  if Qle_bool 0.22 score then "buy"
  else if Qle_bool score (-0.22) then "sell"
  else "hold".

Definition score_of (momentum sentiment volatility : Q) : Q :=
  (0.5 * momentum) + (0.35 * sentiment) - (0.25 * volatility).

(** One turn of the loop over [stock_rows + fx_rows + crypto_rows]. *)
Definition annotate (row : dict) : result dict :=
  match _bounded (dict_get "momentum_1d" row) (-1.0) 1.0 with
  | Err e => Err e
  | Ok momentum =>
  match _bounded (dict_get "volatility_proxy" row) 0.0 1.0 with
  | Err e => Err e
  | Ok volatility =>
  match _bounded (dict_get "sentiment" row) (-1.0) 1.0 with
  | Err e => Err e
  | Ok sentiment =>
      let score := score_of momentum sentiment volatility in
      Ok (dict_merge row
            [("signal_score", VNum (py_round score 4));
             ("signal", VStr (_label_from_score score));
             ("risk_score", VNum (py_round volatility 4))])
  end end end.

Fixpoint map_result {A B} (f : A -> result B) (l : list A) : result (list B) :=
  match l with
  | [] => Ok []
  | a :: l' =>
      match f a with
      | Err e => Err e
      | Ok b => match map_result f l' with
                | Err e => Err e
                | Ok bs => Ok (b :: bs)
                end
      end
  end.

(** [r.get(k, 0.0)] read as a number. *)
Definition number_or_zero (k : string) (r : dict) : result Q :=
  match as_number (dict_get_or k (VNum 0.0) r) with
  | Some q => Ok q
  | None => Err (TypeError "bad operand type")
  end.

(** [sorted(rows, key=..., reverse=...)] once the keys are computed: a stable
    sort, [before a b] telling that key [a] must come strictly first. *)
Fixpoint insert_by {K A} (before : K -> K -> bool) (x : K * A) (l : list (K * A))
  : list (K * A) :=
  match l with
  | [] => [x]
  | y :: l' => if before y.1 x.1 then y :: insert_by before x l' else x :: y :: l'
  end.

Definition sorted_by {K A} (before : K -> K -> bool) (l : list (K * A)) : list A :=
  snd <$> foldr (insert_by before) [] l.

Definition with_key {K} (key : dict -> result K) (r : dict) : result (K * dict) :=
  match key r with Ok k => Ok (k, r) | Err e => Err e end.

(** Tuples compare lexicographically. *)
Definition pair_lt (a b : Q * Q) : bool :=
  Qlt_bool a.1 b.1 || (Qeq_bool a.1 b.1 && Qlt_bool a.2 b.2).

Definition key_safest (r : dict) : result (Q * Q) :=
  match number_or_zero "risk_score" r, number_or_zero "signal_score" r with
  | Ok risk, Ok s => Ok (risk, - s)
  | Err e, _ | _, Err e => Err e
  end.

Definition key_riskiest (r : dict) : result (Q * Q) :=
  match number_or_zero "risk_score" r, number_or_zero "momentum_1d" r with
  | Ok risk, Ok m => Ok (risk, - Qabs m)
  | Err e, _ | _, Err e => Err e
  end.

Definition key_abs_score (r : dict) : result Q :=
  match number_or_zero "signal_score" r with
  | Ok s => Ok (Qabs s)
  | Err e => Err e
  end.

Definition has_signal (label : string) (r : dict) : bool :=
  match dict_get "signal" r with VStr s => String.eqb s label | _ => false end.

Definition rows_value (rows : list dict) : value := VList (VDict <$> rows).

Definition disclaimer : string :=
  "Signal rankings are heuristic and educational, not financial advice.".

Definition build_market_guidance
  (stock_rows fx_rows crypto_rows : list dict) (news_summary : dict) : result dict :=
  let news_avg := dict_get "overall_average_sentiment" news_summary in
  let public_mood :=
    match as_number news_avg with
    | Some avg => if Qlt_bool 0.15 avg then "bullish"
                  else if Qlt_bool avg (-0.15) then "bearish" else "neutral"
    | None => "neutral"
    end in
  match map_result annotate (stock_rows ++ fx_rows ++ crypto_rows)%list with
  | Err e => Err e
  | Ok merged =>
  match map_result (with_key key_safest) merged with
  | Err e => Err e
  | Ok by_safety =>
  match map_result (with_key key_riskiest) merged with
  | Err e => Err e
  | Ok by_risk =>
  match map_result (with_key (number_or_zero "signal_score")) merged with
  | Err e => Err e
  | Ok by_score =>
  match map_result (with_key key_abs_score) merged with
  | Err e => Err e
  | Ok by_abs_score =>
      let safest := take 10 (sorted_by pair_lt by_safety) in
      let riskiest := take 10 (sorted_by (fun a b => pair_lt b a) by_risk) in
      let buys :=
        take 10 (List.filter (has_signal "buy")
                   (sorted_by (fun a b => Qlt_bool b a) by_score)) in
      let sells :=
        take 10 (List.filter (has_signal "sell") (sorted_by Qlt_bool by_score)) in
      let holds :=
        take 10 (List.filter (has_signal "hold") (sorted_by Qlt_bool by_abs_score)) in
      let expected_direction :=
        match as_number news_avg with
        | Some avg => if Qlt_bool 0.2 avg then "upside bias"
                      else if Qlt_bool avg (-0.2) then "downside bias" else "range-bound"
        | None => "range-bound"
        end in
      Ok [("public_mood", VStr public_mood);
          ("expected_market_direction", VStr expected_direction);
          ("signals", rows_value merged);
          ("safest_bets", rows_value safest);
          ("riskiest_bets", rows_value riskiest);
          ("buy_candidates", rows_value buys);
          ("sell_candidates", rows_value sells);
          ("hold_candidates", rows_value holds);
          ("disclaimer", VStr disclaimer)]
  end end end end end.

(** *** Vocabulary of the statements about the guidance *)

(** A field the builder can read: absent, [None], or a number. *)
Definition readable (k : string) (row : dict) : bool :=
  match dict_get k row with VNone => true | v => is_number v end.


(** [_bounded(row.get(k), lo, hi)] where it returns. *)
Definition bounded_field (k : string) (lo hi : Q) (row : dict) : Q :=
  match _bounded (dict_get k row) lo hi with Ok q => q | Err _ => 0 end.

(** A row on which every step of the builder goes through: the three
    fields are readable, and [momentum_1d] is not a key that holds [None]
    (the ranking of the riskiest rows takes [abs] of it). *)
Definition scorable (row : dict) : bool :=
  readable "momentum_1d" row && readable "volatility_proxy" row
  && readable "sentiment" row
  && match dict_lookup "momentum_1d" row with Some VNone => false | _ => true end.

Definition row_score (row : dict) : Q :=
  score_of (bounded_field "momentum_1d" (-1.0) 1.0 row)
           (bounded_field "sentiment" (-1.0) 1.0 row)
           (bounded_field "volatility_proxy" 0.0 1.0 row).

(** The row the builder puts into [signals] for [row]. *)
Definition annotated (row : dict) : dict :=
  dict_merge row
    [("signal_score", VNum (py_round (row_score row) 4));
     ("signal", VStr (_label_from_score (row_score row)));
     ("risk_score", VNum (py_round (bounded_field "volatility_proxy" 0.0 1.0 row) 4))].


End Analytics.

(** ** The refresh orchestrator ([app/services/market_overview.py]) *)

Module Orchestrator.

(** Exceptions in code that touches no state. *)
Definition rbind {A B} (r : result A) (k : A -> result B) : result B :=
  match r with Ok a => k a | Err e => Err e end.
Notation "x <~ r ;; k" := (rbind r (fun x => k))
  (at level 100, r at next level, right associativity) : monad_scope.

(** [try: body  except Exception as exc: handler(exc)]: the handler starts
    from the state the body had reached when it raised. *)
Definition try_except {S A} (body : M S A) (handler : exn -> M S A) : M S A :=
  fun s => match body s with
           | (Ok a, s') => (Ok a, s')
           | (Err e, s') => handler e s'
           end.

Definition lift {S A} (r : result A) : M S A := fun s => (r, s).

(** [bool(v)] *)
Definition py_truthy (v : value) : bool :=
  match v with
  | VNone => false
  | VBool b => b
  | VNum q => negb (Qeq_bool q 0)
  | VStr s => negb (String.eqb s "")
  | VList l => match l with [] => false | _ => true end
  | VDict d => match d with [] => false | _ => true end
  end.

(** [l[start:]] for an integer [start] of either sign. *)
Definition slice_from {A} (start : Z) (l : list A) : list A :=
  let n := Z.of_nat (length l) in
  let first := if (start <? 0)%Z then Z.max (start + n) 0 else Z.min start n in
  drop (Z.to_nat first) l.

Definition VInt (n : nat) : value := VNum (inject_Z (Z.of_nat n)).

(** What one refresh run meets outside the service: the client's answers
    (cache, rate limiter and retries included), the summarisers of
    [analytics.py], whose floating-point statistics are not modelled, the
    clock, the file system and the renderings [str(...)]. *)
Record env : Type := {
  time_series_daily : string -> result value;
  fx_daily : string -> string -> result value;
  crypto_daily : string -> result value;
  news_sentiment : result value;
  summarize_timeseries_daily : value -> result dict;
  summarize_fx_daily : value -> result dict;
  summarize_crypto_daily : value -> result dict;
  aggregate_news_sentiment : value -> result dict;
  py_str : value -> string;          (* [str(data)] *)
  retry_error_str : exn -> string;   (* [str(exc)] of a tenacity [RetryError] *)
  started_now : string;              (* the readings of [_iso_utc_now()], in order *)
  generated_now : string;
  finished_now : string;
  tz_name : string;                  (* [str(self._tz)] *)
  write_text : value -> result unit; (* [mkdir] and [write_text(json.dumps(doc))] *)
}.

(** [str(exc)] *)
Definition exc_str (E : env) (e : exn) : string :=
  match e with
  | RuntimeError msg | IndexError msg | TypeError msg | AttributeError msg
  | OSError msg | KeyError msg | TransportError msg => msg
  | RetryError _ => retry_error_str E e
  end.

Definition _raise_if_av_error (E : env) (data : value) : result unit :=
  match data with
  | VDict d =>
      if dict_has "Note" d || dict_has "Information" d || dict_has "Error Message" d
      then Err (RuntimeError (py_str E data))
      else Ok tt
  | _ => Ok tt
  end.

(** The data file as [_load_from_disk] meets it: missing, or holding what
    [json.loads(self.data_file.read_text(...))] evaluates to. *)
Inductive data_file : Type :=
| Missing
| Holds (content : result value).

Record MarketOverviewService : Type := {
  stocks : list string;
  cryptos : list string;
  fx_pairs : list (string * string);
  _snapshot : value;
  _refresh_status : dict;
}.

Definition set_snapshot (v : value) (self : MarketOverviewService) : MarketOverviewService :=
  {| stocks := stocks self; cryptos := cryptos self; fx_pairs := fx_pairs self;
     _snapshot := v; _refresh_status := _refresh_status self |}.

Definition set_status (st : dict) (self : MarketOverviewService) : MarketOverviewService :=
  {| stocks := stocks self; cryptos := cryptos self; fx_pairs := fx_pairs self;
     _snapshot := _snapshot self; _refresh_status := st |}.

Definition _load_from_disk (file : data_file) (self : MarketOverviewService)
  : MarketOverviewService :=
  match file with
  | Missing => self
  | Holds (Ok doc) => set_snapshot doc self
  | Holds (Err _) => set_snapshot (VDict []) self
  end.

Definition no_get (what : string) : exn :=
  AttributeError ("object has no attribute " ++ what).

(** [obj.get(k, dflt)] on an arbitrary object. *)
Definition obj_get_or (k : string) (dflt : value) (obj : value) : result value :=
  match obj with
  | VDict d => Ok (dict_get_or k dflt d)
  | _ => Err (no_get "'get'")
  end.

(** [MarketOverviewService.__init__]; the watchlists are the parsed settings. *)
Definition __init__ (watch_stocks watch_cryptos : list string)
  (watch_fx : list (string * string)) (file : data_file)
  : result MarketOverviewService :=
  let self := _load_from_disk file
    {| stocks := watch_stocks; cryptos := watch_cryptos; fx_pairs := watch_fx;
       _snapshot := VDict []; _refresh_status := [] |} in
  latest <~ obj_get_or "latest" VNone (_snapshot self) ;;
  let latest_generated_at :=
    match latest with
    | VDict l => dict_get "generated_at" l
    | _ => VNone
    end in
  Ok (set_status
        [("state", VStr "idle");
         ("reason", VNone);
         ("started_at", VNone);
         ("finished_at", VNone);
         ("total_steps", VInt 0);
         ("completed_steps", VInt 0);
         ("progress_percent", VNum 0.0);
         ("current_step", VNone);
         ("message", VNone);
         ("error", VNone);
         ("latest_generated_at", latest_generated_at)] self).

Definition _persist (E : env) : M MarketOverviewService unit :=
  fun self => (write_text E (_snapshot self), self).

Definition _latest_close (points : value) : result value :=
  if negb (py_truthy points) then Ok VNone
  else match points with
       | VList (VDict p :: _) => Ok (dict_get "close" p)
       | VList _ => Err (no_get "'get'")
       | VStr _ => Err (no_get "'get'")
       | VDict _ => Err (KeyError "0")
       | _ => Err (TypeError "object is not subscriptable")
       end.

Definition _total_steps (self : MarketOverviewService) : nat :=
  length (stocks self) + length (fx_pairs self) + length (cryptos self) + 1.

Definition _set_refresh_status (updates : dict) : M MarketOverviewService dict :=
  fun self =>
    let st := dict_merge (_refresh_status self) updates in
    (Ok st, set_status st self).

(** A running [refresh_once]: the service and the local [completed_steps]
    that the closure [mark_step] counts in. *)
Record frame : Type := {
  self : MarketOverviewService;
  completed_steps : nat;
}.

Definition on_self {A} (m : M MarketOverviewService A) : M frame A :=
  fun fr => match m (self fr) with
            | (r, self') => (r, {| self := self'; completed_steps := completed_steps fr |})
            end.

(** The three [_fetch_*_rows] loops have one shape: per symbol a guarded
    fetch-and-summarise, then the progress callback. *)
Fixpoint fetch_loop {X} (fetch : X -> result dict) (failure : X -> exn -> dict)
  (step_label : X -> string) (progress_cb : option (string -> M frame unit))
  (symbols : list X) (rows errors : list dict)
  : M frame (list dict * list dict) :=
  match symbols with
  | [] => ret (rows, errors)
  | x :: symbols' =>
      let '(rows', errors') :=
        match fetch x with
        | Ok row => (rows ++ [row], errors)
        | Err exc => (rows, errors ++ [failure x exc])
        end%list in
      match progress_cb with
      | Some cb => cb (step_label x)
      | None => ret tt
      end ;;;
      fetch_loop fetch failure step_label progress_cb symbols' rows' errors'
  end.

Definition failure_record (E : env) (asset_class symbol : string) (exc : exn) : dict :=
  [("asset_class", VStr asset_class); ("symbol", VStr symbol);
   ("error", VStr (exc_str E exc))].

Definition stock_row (E : env) (symbol : string) : result dict :=
  raw <~ time_series_daily E symbol ;;
  _ <~ _raise_if_av_error E raw ;;
  summary <~ summarize_timeseries_daily E raw ;;
  price <~ _latest_close (dict_get_or "points" (VList []) summary) ;;
  Ok [("asset_class", VStr "stock");
      ("symbol", VStr symbol);
      ("price", price);
      ("momentum_1d", dict_get "momentum_1d" summary);
      ("volatility_proxy", dict_get "volatility_proxy" summary);
      ("last_refreshed", dict_get "last_refreshed" summary)].

Definition crypto_row (E : env) (symbol : string) : result dict :=
  raw <~ crypto_daily E symbol ;;
  _ <~ _raise_if_av_error E raw ;;
  summary <~ summarize_crypto_daily E raw ;;
  price <~ _latest_close (dict_get_or "points" (VList []) summary) ;;
  Ok [("asset_class", VStr "crypto");
      ("symbol", VStr symbol);
      ("price", price);
      ("momentum_1d", dict_get "momentum_1d" summary);
      ("volatility_proxy", VNone);
      ("last_refreshed", dict_get "last_refreshed" summary)].

Definition pair_name (p : string * string) : string := p.1 ++ "/" ++ p.2.

Definition fx_row (E : env) (p : string * string) : result dict :=
  raw <~ fx_daily E p.1 p.2 ;;
  _ <~ _raise_if_av_error E raw ;;
  summary <~ summarize_fx_daily E raw ;;
  price <~ _latest_close (dict_get_or "points" (VList []) summary) ;;
  Ok [("asset_class", VStr "fx");
      ("symbol", VStr (pair_name p));
      ("price", price);
      ("momentum_1d", dict_get "momentum_1d" summary);
      ("volatility_proxy", VNone);
      ("last_refreshed", dict_get "last_refreshed" summary)].

Definition _fetch_stock_rows (E : env) progress_cb
  : M frame (list dict * list dict) :=
  fun fr =>
    fetch_loop (stock_row E) (failure_record E "stock")
      (fun symbol => "Fetched stock " ++ symbol) progress_cb (stocks (self fr)) [] [] fr.

Definition _fetch_crypto_rows (E : env) progress_cb
  : M frame (list dict * list dict) :=
  fun fr =>
    fetch_loop (crypto_row E) (failure_record E "crypto")
      (fun symbol => "Fetched crypto " ++ symbol) progress_cb (cryptos (self fr)) [] [] fr.

Definition _fetch_fx_rows (E : env) progress_cb
  : M frame (list dict * list dict) :=
  fun fr =>
    fetch_loop (fx_row E) (fun p => failure_record E "fx" (pair_name p))
      (fun p => "Fetched FX " ++ pair_name p) progress_cb (fx_pairs (self fr)) [] [] fr.

Definition mark_step (track_progress : bool) (total_steps : nat) (step_label : string)
  : M frame unit :=
  fun fr =>
    let done := completed_steps fr + 1 in
    let fr' := {| self := self fr; completed_steps := done |} in
    if track_progress then
      let progress_percent :=
        match total_steps with
        | O => 0.0
        | S _ => Analytics.py_round
                   ((inject_Z (Z.of_nat done) / inject_Z (Z.of_nat total_steps)) * 100) 2
        end%Q in
      (on_self (_set_refresh_status
                  [("total_steps", VInt total_steps);
                   ("completed_steps", VInt done);
                   ("progress_percent", VNum progress_percent);
                   ("current_step", VStr step_label);
                   ("message", VStr step_label)]) ;;; ret tt) fr'
    else (Ok tt, fr').

(** [news_summary.get("ticker_average_sentiment", {}) or {}] *)
Definition sentiment_map_of (news_summary : dict) : value :=
  let m := dict_get_or "ticker_average_sentiment" (VDict []) news_summary in
  if py_truthy m then m else VDict [].

(** [row["sentiment"] = sentiment_map.get(row["symbol"])] *)
Definition with_sentiment (sentiment_map : value) (row : dict) : result dict :=
  match dict_lookup "symbol" row with
  | None => Err (KeyError "'symbol'")
  | Some symbol =>
      match sentiment_map, symbol with
      | VDict m, VStr k => Ok (dict_set "sentiment" (dict_get k m) row)
      | VDict m, (VList _ | VDict _) => Err (TypeError "unhashable type")
      | VDict m, _ => Ok (dict_set "sentiment" VNone row)
      | _, _ => Err (no_get "'get'")
      end
  end.

Definition coverage_note : string :=
  "Coverage is based on configured watchlists and not every global tradable instrument.".

Definition make_snapshot (E : env) (reason : string)
  (stock_rows fx_rows crypto_rows : list dict) (news_summary guidance : dict)
  (errors : list dict) : value :=
  VDict [("generated_at", VStr (generated_now E));
         ("reason", VStr reason);
         ("timezone", VStr (tz_name E));
         ("coverage", VDict [("stocks", VInt (length stock_rows));
                             ("fx_pairs", VInt (length fx_rows));
                             ("cryptos", VInt (length crypto_rows))]);
         ("stocks", Analytics.rows_value stock_rows);
         ("fx", Analytics.rows_value fx_rows);
         ("crypto", Analytics.rows_value crypto_rows);
         ("news", VDict news_summary);
         ("guidance", VDict guidance);
         ("errors", Analytics.rows_value errors);
         ("notes", VList [VStr coverage_note; dict_get "disclaimer" guidance])].

(** The statements under [async with self._lock] in [refresh_once], before
    [self._persist()].  [history.append] changes the list of the old store
    in place; the old store is dropped in the next statement and no other
    reference to that list exists, so the new store is all that is kept. *)
Definition store_snapshot (snapshot : value) : M MarketOverviewService unit :=
  fun self =>
    match obj_get_or "history" (VList []) (_snapshot self) with
    | Err e => (Err e, self)
    | Ok (VList history) =>
        (Ok tt,
         set_snapshot
           (VDict [("latest", snapshot);
                   ("history", VList (slice_from (-200) (history ++ [snapshot])%list))])
           self)
    | Ok _ => (Err (AttributeError "object has no attribute 'append'"), self)
    end.

(** The first statements of [refresh_once], up to the [try]. *)
Definition refresh_begin (E : env) (reason : string) (track_progress : bool)
    (total_steps : nat) : M frame unit :=
  fun fr =>
    if track_progress then
      (on_self (_set_refresh_status
                  [("state", VStr "running");
                   ("reason", VStr reason);
                   ("started_at", VStr (started_now E));
                   ("finished_at", VNone);
                   ("total_steps", VInt total_steps);
                   ("completed_steps", VInt 0);
                   ("progress_percent", VNum 0.0);
                   ("current_step", VStr "Starting refresh");
                   ("message", VStr "Starting refresh");
                   ("error", VNone)]) ;;; ret tt) fr
    else (Ok tt, fr).

(** The body of the [try], first part: the fetches, the news, the guidance
    and the assembly of the snapshot. *)
Definition collect_snapshot (E : env) (reason : string) (track_progress : bool)
    (total_steps : nat) : M frame value :=
  let progress_cb :=
    if track_progress then Some (mark_step track_progress total_steps) else None in
  (stock <- _fetch_stock_rows E progress_cb ;;
   let '(stock_rows, stock_errors) := stock in
   fx <- _fetch_fx_rows E progress_cb ;;
   let '(fx_rows, fx_errors) := fx in
   crypto <- _fetch_crypto_rows E progress_cb ;;
   let '(crypto_rows, crypto_errors) := crypto in
   news_raw <- lift (news_sentiment E) ;;
   lift (_raise_if_av_error E news_raw) ;;;
   news_summary <- lift (aggregate_news_sentiment E news_raw) ;;
   (if track_progress
    then mark_step track_progress total_steps "Fetched market news sentiment"
    else ret tt) ;;;
   let sentiment_map := sentiment_map_of news_summary in
   stock_rows <- lift (Analytics.map_result (with_sentiment sentiment_map) stock_rows) ;;
   crypto_rows <- lift (Analytics.map_result (with_sentiment sentiment_map) crypto_rows) ;;
   fx_rows <- lift (Analytics.map_result (with_sentiment sentiment_map) fx_rows) ;;
   guidance <- lift (Analytics.build_market_guidance
                       stock_rows fx_rows crypto_rows news_summary) ;;
   ret (make_snapshot E reason stock_rows fx_rows crypto_rows news_summary guidance
          (stock_errors ++ fx_errors ++ crypto_errors)%list)).

(** The body of the [try], second part: the store, the disk, the status. *)
Definition publish_snapshot (E : env) (track_progress : bool) (total_steps : nat)
    (snapshot : value) : M frame value :=
  (on_self (store_snapshot snapshot) ;;;
   on_self (_persist E) ;;;
   (if track_progress
    then on_self (_set_refresh_status
                    [("state", VStr "completed");
                     ("finished_at", VStr (finished_now E));
                     ("total_steps", VInt total_steps);
                     ("completed_steps", VInt total_steps);
                     ("progress_percent", VNum 100.0);
                     ("current_step", VStr "Completed");
                     ("message", VStr "Refresh completed successfully.");
                     ("error", VNone);
                     ("latest_generated_at", VStr (generated_now E))]) ;;; ret tt
    else ret tt) ;;;
   ret snapshot).

Definition refresh_try (E : env) (reason : string) (track_progress : bool)
    (total_steps : nat) : M frame value :=
  snapshot <- collect_snapshot E reason track_progress total_steps ;;
  publish_snapshot E track_progress total_steps snapshot.

(** The [except Exception as exc] clause. *)
Definition refresh_except (E : env) (track_progress : bool) (exc : exn)
  : M frame value :=
  (if track_progress
   then on_self (_set_refresh_status
                   [("state", VStr "failed");
                    ("finished_at", VStr (finished_now E));
                    ("current_step", VStr "Failed");
                    ("message", VStr "Refresh failed.");
                    ("error", VStr (exc_str E exc))]) ;;; ret tt
   else ret tt) ;;;
  raise exc.

Definition refresh_rest (E : env) (reason : string) (track_progress : bool)
    (total_steps : nat) : M frame value :=
  try_except (refresh_try E reason track_progress total_steps)
             (refresh_except E track_progress).

Definition in_frame {A} (m : M frame A) : M MarketOverviewService A :=
  fun svc => match m {| self := svc; completed_steps := 0 |} with
             | (r, fr) => (r, self fr)
             end.

Definition refresh_once (E : env) (reason : string) (track_progress : bool)
  : M MarketOverviewService value :=
  fun svc =>
    let total_steps := _total_steps svc in
    in_frame (refresh_begin E reason track_progress total_steps ;;;
              refresh_rest E reason track_progress total_steps) svc.

Definition get_latest (svc : MarketOverviewService) : result value :=
  obj_get_or "latest" (VDict []) (_snapshot svc).

Definition get_history (limit : Z) (svc : MarketOverviewService) : result value :=
  history <~ obj_get_or "history" (VList []) (_snapshot svc) ;;
  match history with
  | VList h => Ok (VList (slice_from (- limit) h))
  | VStr s =>
      Ok (VStr (String.string_of_list_ascii
                  (slice_from (- limit) (String.list_ascii_of_string s))))
  | _ => Err (TypeError "object is not subscriptable")
  end.

(** Refreshes one after the other, as long as each completes. *)
Fixpoint refresh_each (runs : list (env * string * bool))
  : M MarketOverviewService (list value) :=
  match runs with
  | [] => ret []
  | (E, reason, track_progress) :: runs' =>
      snapshot <- refresh_once E reason track_progress ;;
      rest <- refresh_each runs' ;;
      ret (snapshot :: rest)
  end.

(** *** Refresh tasks and single flight

    asyncio runs the code between two suspension points as one step.
    [start_refresh] never suspends: [_start_lock] is taken by nobody else
    and [_status_lock] is never held across an await, so both are free
    whenever it asks for them.  A refresh task takes two steps here: it
    enters the body of [refresh_once] (it holds [_refresh_lock] from then
    on), and it finishes; what it does in between changes the status record
    only.  Shutdown ([stop]) is not part of this transition system. *)

Inductive phase : Type :=
| Created                        (* made by [asyncio.create_task], not yet in the body *)
| InBody (E : env) (total_steps : nat)  (* inside [async with self._refresh_lock] *)
| Finished (outcome : result value).  (* [done()] *)

Record task : Type := {
  task_reason : string;
  task_phase : phase;
}.

Definition done (tk : task) : bool :=
  match task_phase tk with Finished _ => true | _ => false end.

Record system : Type := {
  service : MarketOverviewService;
  tasks : list task;               (* every task [create_task] has made, oldest first *)
  _refresh_task : option nat;      (* [self._refresh_task], an index into [tasks] *)
  _refresh_lock : bool;            (* locked? *)
}.

Definition initial (svc : MarketOverviewService) : system :=
  {| service := svc; tasks := []; _refresh_task := None; _refresh_lock := false |}.

(** [self._refresh_task is not None and not self._refresh_task.done()] *)
Definition is_running (sys : system) : bool :=
  match _refresh_task sys with
  | None => false
  | Some t => match tasks sys !! t with
              | Some tk => negb (done tk)
              | None => false
              end
  end.

Definition get_refresh_status (sys : system) : dict :=
  dict_set "is_running" (VBool (is_running sys)) (_refresh_status (service sys)).

Definition on_service {A} (m : M MarketOverviewService A) : M system A :=
  fun sys => match m (service sys) with
             | (r, svc') =>
                 (r, {| service := svc'; tasks := tasks sys;
                        _refresh_task := _refresh_task sys;
                        _refresh_lock := _refresh_lock sys |})
             end.

(** [asyncio.create_task(self._run_refresh_task(reason))], kept in
    [self._refresh_task]. *)
Definition create_refresh_task (reason : string) : M system unit :=
  modify (fun sys =>
    {| service := service sys;
       tasks := (tasks sys ++ [{| task_reason := reason; task_phase := Created |}])%list;
       _refresh_task := Some (length (tasks sys));
       _refresh_lock := _refresh_lock sys |}).

Definition start_refresh (now : string) (reason : string) : M system dict :=
  fun sys =>
    if is_running sys then
      (Ok [("accepted", VBool false); ("status", VDict (get_refresh_status sys))], sys)
    else
      let latest_generated_at :=
        dict_get "latest_generated_at" (_refresh_status (service sys)) in
      (status <- on_service (_set_refresh_status
                  [("state", VStr "running");
                   ("reason", VStr reason);
                   ("started_at", VStr now);
                   ("finished_at", VNone);
                   ("total_steps", VInt (_total_steps (service sys)));
                   ("completed_steps", VInt 0);
                   ("progress_percent", VNum 0.0);
                   ("current_step", VStr "Queued");
                   ("message", VStr "Refresh queued.");
                   ("error", VNone);
                   ("latest_generated_at", latest_generated_at)]) ;;
       create_refresh_task reason ;;;
       ret [("accepted", VBool true); ("status", VDict status)]) sys.

Definition set_phase (t : nat) (ph : phase) (l : list task) : list task :=
  alter (fun tk => {| task_reason := task_reason tk; task_phase := ph |}) t l.

(** Task [t] starts [_run_refresh_task]: it takes [_refresh_lock] and runs
    [refresh_once(reason, track_progress=True)] up to its first await. *)
Definition task_enter (t : nat) (E : env) (sys : system) : option system :=
  match tasks sys !! t with
  | Some tk =>
      match task_phase tk, _refresh_lock sys with
      | Created, false =>
          let '(_, svc') :=
            in_frame (refresh_begin E (task_reason tk) true (_total_steps (service sys)))
              (service sys) in
          Some {| service := svc';
                  tasks := set_phase t (InBody E (_total_steps (service sys))) (tasks sys);
                  _refresh_task := _refresh_task sys;
                  _refresh_lock := true |}
      | _, _ => None
      end
  | None => None
  end.

(** Task [t] runs the rest of [refresh_once], leaves the lock, and the
    [finally] clause of [_run_refresh_task] clears [self._refresh_task]. *)
Definition task_finish (t : nat) (sys : system) : option system :=
  match tasks sys !! t with
  | Some tk =>
      match task_phase tk with
      | InBody E total_steps =>
          let '(outcome, svc') :=
            in_frame (refresh_rest E (task_reason tk) true total_steps) (service sys) in
          Some {| service := svc';
                  tasks := set_phase t (Finished outcome) (tasks sys);
                  _refresh_task := None;
                  _refresh_lock := false |}
      | _ => None
      end
  | None => None
  end.

Inductive step : system -> system -> Prop :=
| step_start_refresh now reason sys :
    step sys (start_refresh now reason sys).2
| step_task_enter t E sys sys' :
    task_enter t E sys = Some sys' -> step sys sys'
| step_task_finish t sys sys' :
    task_finish t sys = Some sys' -> step sys sys'.

Definition reachable (svc : MarketOverviewService) (sys : system) : Prop :=
  rtc step (initial svc) sys.

(** Task [t] exists and is not finished. *)
Definition in_flight_at (sys : system) (t : nat) : Prop :=
  exists tk, tasks sys !! t = Some tk /\ done tk = false.

Definition in_flight (sys : system) : Prop := exists t, in_flight_at sys t.

(** The handle [self._refresh_task] names every unfinished task. *)
Definition single_flight_inv (sys : system) : Prop :=
  forall t, in_flight_at sys t -> _refresh_task sys = Some t.


(** *** Vocabulary of the statements about the store *)

(** The history a refresh appends to: [self._snapshot.get("history", [])]
    where that is a list. *)
Definition history_of (svc : MarketOverviewService) : list value :=
  match obj_get_or "history" (VList []) (_snapshot svc) with
  | Ok (VList h) => h
  | _ => []
  end.

(** The last [n] entries of a list, in their order. *)
Definition last_n {A} (n : nat) (l : list A) : list A := drop (length l - n) l.

(** The store a refresh leaves when it met the history [h] and built
    [snapshot]. *)
Definition new_store (snapshot : value) (h : list value) : value :=
  VDict [("latest", snapshot);
         ("history", VList (slice_from (-200) (h ++ [snapshot])%list))].

(** A computation of the refresh that leaves [self._snapshot] alone. *)
Definition keeps {A} (m : M frame A) : Prop :=
  forall fr, _snapshot (self (m fr).2) = _snapshot (self fr).

(** The outcomes of [refresh_once] as far as the store goes, [old] being the
    store it met: it completes and the store is the new one; it fails and
    the store is untouched; or it fails in the disk write, and the store is
    the new one all the same. *)
Inductive store_outcome (E : env) (old : value) : result value -> value -> Prop :=
| refresh_completed snapshot h :
    obj_get_or "history" (VList []) old = Ok (VList h) ->
    write_text E (new_store snapshot h) = Ok tt ->
    store_outcome E old (Ok snapshot) (new_store snapshot h)
| refresh_failed_early e :
    store_outcome E old (Err e) old
| refresh_failed_on_disk e snapshot h :
    obj_get_or "history" (VList []) old = Ok (VList h) ->
    write_text E (new_store snapshot h) = Err e ->
    store_outcome E old (Err e) (new_store snapshot h).

Definition with_store (store : value) : MarketOverviewService :=
  {| stocks := []; cryptos := []; fx_pairs := [];
     _snapshot := store; _refresh_status := [] |}.

(** *** Sample surroundings for the examples

    Every fetch answers with an empty payload, the summarisers report a
    flat momentum and no news, and the disk takes every write. *)
Definition quiet_env : env :=
  {| time_series_daily := fun _ => Ok (VDict []);
     fx_daily := fun _ _ => Ok (VDict []);
     crypto_daily := fun _ => Ok (VDict []);
     news_sentiment := Ok (VDict []);
     summarize_timeseries_daily := fun _ => Ok [("momentum_1d", VNum 0)];
     summarize_fx_daily := fun _ => Ok [("momentum_1d", VNum 0)];
     summarize_crypto_daily := fun _ => Ok [("momentum_1d", VNum 0)];
     aggregate_news_sentiment := fun _ => Ok [];
     py_str := fun _ => "payload";
     retry_error_str := fun _ => "RetryError";
     started_now := "t0";
     generated_now := "t1";
     finished_now := "t2";
     tz_name := "UTC";
     write_text := fun _ => Ok tt |}.



(** The same as [quiet_env], but the snapshot is stamped with the number [i]. *)
Definition env_at (i : nat) : env :=
  {| time_series_daily := time_series_daily quiet_env;
     fx_daily := fx_daily quiet_env;
     crypto_daily := crypto_daily quiet_env;
     news_sentiment := news_sentiment quiet_env;
     summarize_timeseries_daily := summarize_timeseries_daily quiet_env;
     summarize_fx_daily := summarize_fx_daily quiet_env;
     summarize_crypto_daily := summarize_crypto_daily quiet_env;
     aggregate_news_sentiment := aggregate_news_sentiment quiet_env;
     py_str := py_str quiet_env;
     retry_error_str := retry_error_str quiet_env;
     started_now := started_now quiet_env;
     generated_now := NilEmpty.string_of_uint (Nat.to_uint i);
     finished_now := finished_now quiet_env;
     tz_name := tz_name quiet_env;
     write_text := write_text quiet_env |}.

(** [n] scheduled refreshes, stamped 0, 1, ... *)
Definition sample_runs (n : nat) : list (env * string * bool) :=
  (fun i => (env_at i, "scheduled", true)) <$> seq 0 n.

(** The snapshots these refreshes build for [sample_service] below. *)
Definition sample_snapshot (i : nat) : value :=
  let row := [("asset_class", VStr "stock"); ("symbol", VStr "AAPL"); ("price", VNone);
              ("momentum_1d", VNum 0); ("volatility_proxy", VNone);
              ("last_refreshed", VNone); ("sentiment", VNone)] in
  match Analytics.build_market_guidance [row] [] [] [] with
  | Ok guidance => make_snapshot (env_at i) "scheduled" [row] [] [] [] guidance []
  | Err _ => VNone
  end.

Definition sample_snapshots (n : nat) : list value := sample_snapshot <$> seq 0 n.

(** A service that watches one stock, with an empty store. *)
Definition sample_service : MarketOverviewService :=
  {| stocks := ["AAPL"]; cryptos := []; fx_pairs := [];
     _snapshot := VDict []; _refresh_status := [] |}.

End Orchestrator.

(** ** The rate limiter ([app/utils/rate_limiter.py])

    [acquire] reads the clock twice: on entry, and when it records the call
    after the wait, if any.  The two readings are arguments here, and the
    wait it asks for is part of the result. *)

Module RateLimiter.
Local Open Scope Q_scope.

Record MinuteRateLimiter : Type := {
  max_calls : Z;
  calls : list Q;      (* the deque, oldest first *)
}.

(** [MinuteRateLimiter(max_calls_per_minute)] *)
Definition new (max_calls_per_minute : Z) : MinuteRateLimiter :=
  {| max_calls := max_calls_per_minute; calls := [] |}.

(** [while self.calls and (now - self.calls[0]) > 60: self.calls.popleft()] *)
Fixpoint drop_expired (now : Q) (calls : list Q) : list Q :=
  match calls with
  | [] => []
  | oldest :: rest =>
      if Analytics.Qlt_bool 60 (now - oldest) then drop_expired now rest else calls
  end.

(** The statements of [acquire] up to the wait: what is left of the deque,
    and the wait passed to [time.sleep], if any. *)
Definition wait_for (now : Q) (rl : MinuteRateLimiter) : result (option Q) * list Q :=
  let live := drop_expired now (calls rl) in
  if (max_calls rl <=? Z.of_nat (length live))%Z then
    match live with
    | [] => (Err (IndexError "deque index out of range"), live)
    | oldest :: _ =>
        let sleep_for := 60 - (now - oldest) in
        (Ok (if Analytics.Qlt_bool 0 sleep_for then Some sleep_for else None), live)
    end
  else (Ok None, live).

(** [acquire()]: [now] is the clock on entry, [later] the clock when the call
    is recorded by [self.calls.append(time.time())]. *)
Definition acquire (now later : Q) (rl : MinuteRateLimiter)
  : result (option Q) * MinuteRateLimiter :=
  match wait_for now rl with
  | (Ok wait, live) =>
      (Ok wait, {| max_calls := max_calls rl; calls := (live ++ [later])%list |})
  | (Err e, live) => (Err e, {| max_calls := max_calls rl; calls := live |})
  end.

(** *** Vocabulary of the statements about the limiter *)

(** A caller and its clock. *)
Record timeline : Type := {
  clock : Q;                    (* the last reading *)
  limiter : MinuteRateLimiter;
  recorded : list Q;            (* every call recorded so far, oldest first *)
  waited : list Q;              (* the wait of each of them *)
}.

Definition wait_of (w : option Q) : Q := match w with Some s => s | None => 0 end.

(** One call of [acquire]: it is entered [gap] seconds after the last
    reading of the clock, and the call is recorded [lag] seconds after the
    end of the wait (after entry, when there is no wait). *)
Definition call (gap lag : Q) (tl : timeline) : result timeline :=
  let now := clock tl + gap in
  match wait_for now (limiter tl) with
  | (Ok wait, _) =>
      let later := now + wait_of wait + lag in
      Ok {| clock := later;
            limiter := (acquire now later (limiter tl)).2;
            recorded := (recorded tl ++ [later])%list;
            waited := (waited tl ++ [wait_of wait])%list |}
  | (Err e, _) => Err e
  end.

Fixpoint calls_in_turn (timing : list (Q * Q)) (tl : timeline) : result timeline :=
  match timing with
  | [] => Ok tl
  | (gap, lag) :: timing' =>
      match call gap lag tl with
      | Ok tl' => calls_in_turn timing' tl'
      | Err e => Err e
      end
  end.

Definition start (t0 : Q) (max_calls_per_minute : Z) : timeline :=
  {| clock := t0; limiter := new max_calls_per_minute; recorded := []; waited := [] |}.

(** How many of the calls in [l] were recorded less than 60 seconds before
    [t]. *)
Definition within_minute (t : Q) (l : list Q) : nat :=
  length (List.filter (fun c => Analytics.Qlt_bool (t - 60) c) l).

(** What holds between two calls of [acquire]. *)
Record steady (tl : timeline) : Prop := {
  steady_past : forall c, In c (calls (limiter tl)) -> c <= clock tl;
  steady_split : exists old,
    recorded tl = (old ++ calls (limiter tl))%list
    /\ forall c, In c old -> c + 60 < clock tl;
  steady_queue :
    (Z.of_nat (within_minute (clock tl) (calls (limiter tl))) <= max_calls (limiter tl))%Z;
  steady_window : forall i t,
    recorded tl !! i = Some t ->
    (Z.of_nat (within_minute t (take (S i) (recorded tl))) <= max_calls (limiter tl))%Z;
  steady_waits : Forall (fun w => 0 <= w <= 60) (waited tl);
  steady_count : length (recorded tl) = length (waited tl);
}.

(** [AV_CALL_SLEEP_SECONDS] of [market_overview.py] and
    [AV_BURST_SLEEP_SECONDS] of [routers/report.py]:
    [max(0.05, 60.0 / max(settings.MAX_CALLS_PER_MINUTE, 1))]. *)
Definition AV_CALL_SLEEP_SECONDS (MAX_CALLS_PER_MINUTE : Z) : Q :=
  Analytics.py_max 0.05 (60.0 / inject_Z (Z.max MAX_CALLS_PER_MINUTE 1)).

(** The calls in the deque lie at least [s] seconds apart, the newest not
    after the last reading of the clock. *)
Definition spaced (s : Q) (tl : timeline) : Prop :=
  forall j c, rev (calls (limiter tl)) !! j = Some c ->
              c + inject_Z (Z.of_nat j) * s <= clock tl.

End RateLimiter.

(** ** The scheduler's wait ([MarketOverviewService._seconds_until_next_half_hour]) *)

Module Scheduler.
Local Open Scope Q_scope.

(** The fields of [datetime.now(tz)] that the function depends on. *)
Record wall_clock : Type := {
  minute : Z;
  second : Z;
  microsecond : Z;
}.

(** [next_slot] and [now] carry the same time zone, so their difference is
    the difference of the wall clocks: the minutes up to [next_minute], less
    the seconds and microseconds that [replace] cleared. *)
Definition _seconds_until_next_half_hour (now : wall_clock) : Q :=
  let next_minute := if (minute now <? 30)%Z then 30%Z else 60%Z in
  let total_seconds :=
    inject_Z ((next_minute - minute now) * 60 - second now)
    - (microsecond now # 1000000) in
  Analytics.py_max total_seconds 1.0.

(** *** Vocabulary *)

(** Seconds since the hour began. *)
Definition into_hour (now : wall_clock) : Q :=
  inject_Z (minute now * 60 + second now) + (microsecond now # 1000000).

(** The next [:30] or [:00], in seconds since the hour began. *)
Definition next_boundary (now : wall_clock) : Q :=
  if (minute now <? 30)%Z then 1800 else 3600.

Definition valid (now : wall_clock) : Prop :=
  (0 <= minute now < 60)%Z /\ (0 <= second now < 60)%Z
  /\ (0 <= microsecond now < 1000000)%Z.

End Scheduler.

(** ** Python's string methods, on ASCII strings

    [strip], [split], [upper] and the like as the parsing code of the
    repository uses them.  Characters are bytes here; the methods agree with
    Python's on strings of ASCII characters. *)

Module PyStr.

(** [c.isspace()] *)
Definition is_space (c : ascii) : bool :=
  let n := nat_of_ascii c in
  ((9 <=? n) && (n <=? 13)) || ((28 <=? n) && (n <=? 32)).

(** [s.lstrip()] *)
Fixpoint lstrip (s : string) : string :=
  match s with
  | EmptyString => EmptyString
  | String c s' => if is_space c then lstrip s' else s
  end.

(** [s.rstrip()] *)
Fixpoint rstrip (s : string) : string :=
  match s with
  | EmptyString => EmptyString
  | String c s' =>
      match rstrip s' with
      | EmptyString => if is_space c then EmptyString else String c EmptyString
      | r => String c r
      end
  end.

(** [s.strip()] *)
Definition strip (s : string) : string := rstrip (lstrip s).

(** [bool(s)] *)
Definition nonempty (s : string) : bool :=
  match s with EmptyString => false | _ => true end.

(** [s.split(sep)] for a separator of one character. *)
Fixpoint split (sep : ascii) (s : string) : list string :=
  match s with
  | EmptyString => [EmptyString]
  | String c s' =>
      if Ascii.eqb c sep then EmptyString :: split sep s'
      else match split sep s' with
           | piece :: pieces => String c piece :: pieces
           | [] => [String c EmptyString]
           end
  end.

(** [sep in s] for a separator of one character. *)
Fixpoint has_char (sep : ascii) (s : string) : bool :=
  match s with
  | EmptyString => false
  | String c s' => Ascii.eqb c sep || has_char sep s'
  end.

(** [s.split(sep, 1)] when [sep in s]: the text before the first separator
    and the text after it. *)
Fixpoint split_once (sep : ascii) (s : string) : string * string :=
  match s with
  | EmptyString => (EmptyString, EmptyString)
  | String c s' =>
      if Ascii.eqb c sep then (EmptyString, s')
      else let '(before, after) := split_once sep s' in (String c before, after)
  end.

(** [s.rsplit(sep, 1)[1]] when [sep in s]: the text after the last separator. *)
Fixpoint after_last (sep : ascii) (s : string) : string :=
  match s with
  | EmptyString => EmptyString
  | String c s' =>
      if has_char sep s' then after_last sep s'
      else if Ascii.eqb c sep then s' else EmptyString
  end.

Definition upper_char (c : ascii) : ascii :=
  let n := nat_of_ascii c in
  if (97 <=? n) && (n <=? 122) then ascii_of_nat (n - 32) else c.

(** [s.upper()] *)
Fixpoint upper (s : string) : string :=
  match s with
  | EmptyString => EmptyString
  | String c s' => String (upper_char c) (upper s')
  end.

Definition lower_char (c : ascii) : ascii :=
  let n := nat_of_ascii c in
  if (65 <=? n) && (n <=? 90) then ascii_of_nat (n + 32) else c.

(** [s.lower()] *)
Fixpoint lower (s : string) : string :=
  match s with
  | EmptyString => EmptyString
  | String c s' => String (lower_char c) (lower s')
  end.

Definition is_digit (c : ascii) : bool :=
  let n := nat_of_ascii c in (48 <=? n) && (n <=? 57).

(** [s.isdigit()] *)
Fixpoint all_digits (s : string) : bool :=
  match s with
  | EmptyString => true
  | String c s' => is_digit c && all_digits s'
  end.

Definition isdigit (s : string) : bool := nonempty s && all_digits s.

(** [int(s)] for a string of digits. *)
Fixpoint int_from (acc : N) (s : string) : N :=
  match s with
  | EmptyString => acc
  | String c s' => int_from (acc * 10 + (N.of_nat (nat_of_ascii c) - 48))%N s'
  end.

Definition int (s : string) : N := int_from 0%N s.

(** [s.startswith(prefix)] *)
Definition startswith (prefix s : string) : bool := String.prefix prefix s.

(** The string does not begin with white space. *)
Definition clean_start (s : string) : Prop :=
  match s with EmptyString => True | String c _ => is_space c = false end.

(** [needle in hay] *)
Fixpoint contains (needle hay : string) : bool :=
  String.prefix needle hay
  || match hay with
     | EmptyString => false
     | String _ hay' => contains needle hay'
     end.

End PyStr.

(** ** The watchlists ([_parse_csv], [_parse_fx_pairs] of [market_overview.py]) *)

Module Watchlist.
Import PyStr.

(** [[item.strip() for item in value.split(",") if item.strip()]] *)
Definition _parse_csv (value : string) : list string :=
  omap (fun item => if nonempty (strip item) then Some (strip item) else None)
       (split ","%char value).


(** [[s.upper() for s in _parse_csv(value)]], the stock and crypto lists of
    [MarketOverviewService.__init__]. *)
Definition symbols (value : string) : list string := upper <$> _parse_csv value.

End Watchlist.

(** ** Order of a sorted list *)


(** ** The cached endpoints of the client ([alphavantage.py])

    The five [TTLCache]s are seen through the three operations the client
    uses on them.  Within one call of an endpoint the caches do not change
    on their own: what [key in cache] finds is what [cache[key]] reads. *)

Module Endpoints.
Import Client.

(** A cache key is a tuple of strings, [None]s and integers. *)
Inductive key_part : Type :=
| KNone
| KStr (text : string)
| KInt (n : Z).

#[local] Instance key_part_eq_dec : EqDecision key_part.
Proof. solve_decision. Defined.

Definition cache_key : Type := list key_part.

Record cache_ops (C : Type) : Type := {
  contains : cache_key -> C -> bool;            (* [key in cache] *)
  getitem : cache_key -> C -> result value;     (* [cache[key]] *)
  setitem : cache_key -> value -> C -> C;       (* [cache[key] = data] *)
}.
Arguments contains {C} _ _ _.
Arguments getitem {C} _ _ _.
Arguments setitem {C} _ _ _ _.

Inductive cache_name : Type :=
| QuoteCache | SeriesCache | IntradayCache | NewsCache | UniverseCache.

Record caches (C : Type) : Type := {
  _quote_cache : C;
  _series_cache : C;
  _intraday_cache : C;
  _news_cache : C;
  _universe_cache : C;
}.
Arguments _quote_cache {C} _.
Arguments _series_cache {C} _.
Arguments _intraday_cache {C} _.
Arguments _news_cache {C} _.
Arguments _universe_cache {C} _.

Definition cache_of {C} (name : cache_name) (cs : caches C) : C :=
  match name with
  | QuoteCache => _quote_cache cs
  | SeriesCache => _series_cache cs
  | IntradayCache => _intraday_cache cs
  | NewsCache => _news_cache cs
  | UniverseCache => _universe_cache cs
  end.

Definition with_cache {C} (name : cache_name) (c : C) (cs : caches C) : caches C :=
  {| _quote_cache := match name with QuoteCache => c | _ => _quote_cache cs end;
     _series_cache := match name with SeriesCache => c | _ => _series_cache cs end;
     _intraday_cache := match name with IntradayCache => c | _ => _intraday_cache cs end;
     _news_cache := match name with NewsCache => c | _ => _news_cache cs end;
     _universe_cache := match name with UniverseCache => c | _ => _universe_cache cs end |}.

(** The client with the module-level caches. *)
Record world (C : Type) : Type := {
  net : state;
  store : caches C;
}.
Arguments net {C} _.
Arguments store {C} _.

(** The shape all endpoints share:
    [if key in cache: return cache[key]]; [data = await fetch]; [cache[key] = data];
    [return data]. *)
Definition through_cache {C} (ops : cache_ops C) (name : cache_name) (key : cache_key)
    (fetch : M state value) : M (world C) value :=
  fun w =>
    let c := cache_of name (store w) in
    if contains ops key c then (getitem ops key c, w)
    else match fetch (net w) with
         | (Ok data, net') =>
             (Ok data,
              {| net := net'; store := with_cache name (setitem ops key data c) (store w) |})
         | (Err e, net') => (Err e, {| net := net'; store := store w |})
         end.

(** [None] or a string, as a part of a key. *)
Definition optional (s : option string) : key_part :=
  match s with Some text => KStr text | None => KNone end.

(** [if s: params[k] = s] *)
Definition set_if_given (k : string) (s : option string) (params : dict) : dict :=
  match s with
  | Some text => if PyStr.nonempty text then dict_set k (VStr text) params else params
  | None => params
  end.

Section Clients.
Context {C : Type} (ops : cache_ops C) (cfg : Settings) (up : upstream).

Definition global_quote (symbol : string) : M (world C) value :=
  through_cache ops QuoteCache [KStr "GLOBAL_QUOTE"; KStr (PyStr.upper symbol)]
    (_get cfg up [("function", VStr "GLOBAL_QUOTE"); ("symbol", VStr (PyStr.upper symbol))]).

Definition time_series_daily (symbol outputsize : string) : M (world C) value :=
  through_cache ops SeriesCache
    [KStr "TIME_SERIES_DAILY"; KStr (PyStr.upper symbol); KStr outputsize]
    (_get cfg up [("function", VStr "TIME_SERIES_DAILY");
                  ("symbol", VStr (PyStr.upper symbol));
                  ("outputsize", VStr outputsize)]).

Definition time_series_intraday (symbol interval outputsize : string)
  : M (world C) value :=
  through_cache ops IntradayCache
    [KStr "TIME_SERIES_INTRADAY"; KStr (PyStr.upper symbol); KStr interval; KStr outputsize]
    (_get cfg up [("function", VStr "TIME_SERIES_INTRADAY");
                  ("symbol", VStr (PyStr.upper symbol));
                  ("interval", VStr interval);
                  ("outputsize", VStr outputsize)]).

Definition fx_daily (from_symbol to_symbol outputsize : string) : M (world C) value :=
  through_cache ops SeriesCache
    [KStr "FX_DAILY"; KStr (PyStr.upper from_symbol); KStr (PyStr.upper to_symbol);
     KStr outputsize]
    (_get cfg up [("function", VStr "FX_DAILY");
                  ("from_symbol", VStr (PyStr.upper from_symbol));
                  ("to_symbol", VStr (PyStr.upper to_symbol));
                  ("outputsize", VStr outputsize)]).

Definition crypto_daily (symbol market : string) : M (world C) value :=
  through_cache ops SeriesCache
    [KStr "DIGITAL_CURRENCY_DAILY"; KStr (PyStr.upper symbol); KStr (PyStr.upper market)]
    (_get cfg up [("function", VStr "DIGITAL_CURRENCY_DAILY");
                  ("symbol", VStr (PyStr.upper symbol));
                  ("market", VStr (PyStr.upper market))]).

Definition news_sentiment (tickers topics time_from time_to : option string)
    (sort : string) (limit : Z) : M (world C) value :=
  through_cache ops NewsCache
    [KStr "NEWS_SENTIMENT"; optional tickers; optional topics; optional time_from;
     optional time_to; KStr sort; KInt limit]
    (_get cfg up
       (set_if_given "time_to" time_to
          (set_if_given "time_from" time_from
             (set_if_given "topics" topics
                (set_if_given "tickers" tickers
                   [("function", VStr "NEWS_SENTIMENT"); ("sort", VStr sort);
                    ("limit", VNum (inject_Z limit))]))))).

(** The calls of the JSON endpoints, as data. *)
Inductive endpoint_call : Type :=
| GlobalQuote (symbol : string)
| TimeSeriesDaily (symbol outputsize : string)
| TimeSeriesIntraday (symbol interval outputsize : string)
| FxDaily (from_symbol to_symbol outputsize : string)
| CryptoDaily (symbol market : string)
| NewsSentiment (tickers topics time_from time_to : option string) (sort : string)
    (limit : Z).

Definition invoke (c : endpoint_call) : M (world C) value :=
  match c with
  | GlobalQuote symbol => global_quote symbol
  | TimeSeriesDaily symbol outputsize => time_series_daily symbol outputsize
  | TimeSeriesIntraday symbol interval outputsize =>
      time_series_intraday symbol interval outputsize
  | FxDaily from_symbol to_symbol outputsize => fx_daily from_symbol to_symbol outputsize
  | CryptoDaily symbol market => crypto_daily symbol market
  | NewsSentiment tickers topics time_from time_to sort limit =>
      news_sentiment tickers topics time_from time_to sort limit
  end.

(** The same call with its symbols in upper case. *)
Definition in_upper_case (c : endpoint_call) : endpoint_call :=
  match c with
  | GlobalQuote symbol => GlobalQuote (PyStr.upper symbol)
  | TimeSeriesDaily symbol outputsize => TimeSeriesDaily (PyStr.upper symbol) outputsize
  | TimeSeriesIntraday symbol interval outputsize =>
      TimeSeriesIntraday (PyStr.upper symbol) interval outputsize
  | FxDaily from_symbol to_symbol outputsize =>
      FxDaily (PyStr.upper from_symbol) (PyStr.upper to_symbol) outputsize
  | CryptoDaily symbol market => CryptoDaily (PyStr.upper symbol) (PyStr.upper market)
  | NewsSentiment _ _ _ _ _ _ => c
  end.

End Clients.

(** The cache keeps what was stored last under a key. *)
Definition keeps_last {C} (ops : cache_ops C) : Prop :=
  forall key data c,
    contains ops key (setitem ops key data c) = true
    /\ getitem ops key (setitem ops key data c) = Ok data.

(** A cache without expiry: an association list, the newest entry first. *)
Definition list_cache : cache_ops (list (cache_key * value)) :=
  {| contains := fun key c =>
       match List.find (fun kv => bool_decide (kv.1 = key)) c with
       | Some _ => true
       | None => false
       end;
     getitem := fun key c =>
       match List.find (fun kv => bool_decide (kv.1 = key)) c with
       | Some kv => Ok kv.2
       | None => Err (KeyError "key")
       end;
     setitem := fun key data c => (key, data) :: c |}.

Definition no_caches : caches (list (cache_key * value)) :=
  {| _quote_cache := []; _series_cache := []; _intraday_cache := [];
     _news_cache := []; _universe_cache := [] |}.

End Endpoints.

(** ** Vocabulary of the statements about one refresh *)

Module Overview.
Import Orchestrator.

(** The rows and the error records a fetch loop collects over a watchlist. *)
Definition fetched {X} (fetch : X -> result dict) (symbols : list X) : list dict :=
  omap (fun x => match fetch x with Ok row => Some row | Err _ => None end) symbols.

Definition failed {X} (fetch : X -> result dict) (failure : X -> exn -> dict)
    (symbols : list X) : list dict :=
  omap (fun x => match fetch x with Ok _ => None | Err exc => Some (failure x exc) end)
       symbols.

(** [mark_step if track_progress else None] *)
Definition progress_cb_of (track_progress : bool) (total_steps : nat)
  : option (string -> M frame unit) :=
  if track_progress then Some (mark_step track_progress total_steps) else None.

(** A payload [_raise_if_av_error] raises on. *)
Definition rejected (raw : value) : bool :=
  match raw with
  | VDict d => dict_has "Note" d || dict_has "Information" d || dict_has "Error Message" d
  | _ => false
  end.

(** Two states of the service that differ in the status record at most. *)
Definition same_but_status (svc svc' : MarketOverviewService) : Prop :=
  stocks svc' = stocks svc /\ cryptos svc' = cryptos svc
  /\ fx_pairs svc' = fx_pairs svc /\ _snapshot svc' = _snapshot svc.

Definition status_field (k : string) (svc : MarketOverviewService) : option value :=
  dict_lookup k (_refresh_status svc).

(** The fields [mark_step] writes. *)
Definition progress_keys : list string :=
  ["total_steps"; "completed_steps"; "progress_percent"; "current_step"; "message"].

(** The status record shows the count of the running refresh. *)
Definition synced (total_steps : nat) (fr : frame) : Prop :=
  status_field "completed_steps" (self fr) = Some (VInt (completed_steps fr))
  /\ status_field "total_steps" (self fr) = Some (VInt total_steps).

(** From [fr] to [fr'] only progress was recorded, [n] steps of it. *)
Definition advanced (track_progress : bool) (total_steps n : nat) (fr fr' : frame)
  : Prop :=
  same_but_status (self fr) (self fr')
  /\ completed_steps fr' = completed_steps fr + (if track_progress then n else 0)
  /\ (forall k, k ∉ progress_keys ->
        status_field k (self fr') = status_field k (self fr))
  /\ (track_progress = false -> _refresh_status (self fr') = _refresh_status (self fr))
  /\ (track_progress = true -> synced total_steps fr -> synced total_steps fr').

(** The watchlist rows of a snapshot, before the news sentiment is attached. *)
Definition stock_rows_of (E : env) (svc : MarketOverviewService) : list dict :=
  fetched (stock_row E) (stocks svc).
Definition fx_rows_of (E : env) (svc : MarketOverviewService) : list dict :=
  fetched (fx_row E) (fx_pairs svc).
Definition crypto_rows_of (E : env) (svc : MarketOverviewService) : list dict :=
  fetched (crypto_row E) (cryptos svc).

Definition errors_of (E : env) (svc : MarketOverviewService) : list dict :=
  (failed (stock_row E) (failure_record E "stock") (stocks svc)
   ++ failed (fx_row E) (fun p => failure_record E "fx" (pair_name p)) (fx_pairs svc)
   ++ failed (crypto_row E) (failure_record E "crypto") (cryptos svc))%list.

(** No refresh is in flight: nothing was ever started and the status record
    is the one the service began with, or the last refresh has finished. *)
Definition settled (svc0 : MarketOverviewService) (sys : system) : Prop :=
  (tasks sys = [] /\ _refresh_status (service sys) = _refresh_status svc0)
  \/ (tasks sys <> []
      /\ (status_field "state" (service sys) = Some (VStr "completed")
          \/ status_field "state" (service sys) = Some (VStr "failed"))).

(** The status record tells what the task handle tells. *)
Definition status_agrees (svc0 : MarketOverviewService) (sys : system) : Prop :=
  if is_running sys
  then status_field "state" (service sys) = Some (VStr "running")
  else settled svc0 sys.

(** A service fresh from the constructor, watching one stock. *)
Definition sample_service_idle : MarketOverviewService :=
  match __init__ ["AAPL"] [] [] Missing with
  | Ok svc => svc
  | Err _ => sample_service
  end.

End Overview.

(** ** The asset report ([build_report] of [analytics.py]) *)

Module Report.
Import Analytics.

Definition report_notes : value :=
  VList [VStr "This report summarizes publicly available data and sentiment. It is not investment advice.";
         VStr "Consider validating signals with fundamentals, risk limits, and multiple data sources."].

(** [utcnow_iso] is [datetime.utcnow().isoformat()]. *)
Definition build_report (utcnow_iso : string) (payload : dict) : result dict :=
  match Orchestrator.obj_get_or "overall_average_sentiment" VNone
          (dict_get_or "news" (VDict []) payload) with
  | Err e => Err e
  | Ok headline_score =>
      let market_moves := dict_get_or "market" (VDict []) payload in
      let mood :=
        match as_number headline_score with
        | Some score => if Qlt_bool 0.15 score then "positive"
                        else if Qlt_bool score (-0.15) then "negative" else "neutral"
        | None => "mixed"
        end in
      Ok [("generated_at", VStr (utcnow_iso ++ "Z"));
          ("sentiment_mood", VStr mood);
          ("sentiment_score", headline_score);
          ("market_snapshot", market_moves);
          ("notes", report_notes)]
  end.

End Report.

(** ** Vocabulary of the statements about the rankings of the guidance *)

Module Ranking.
Import Analytics.
Local Open Scope Q_scope.

(** A sort key where it can be computed. *)
Definition key_or {K} (default : K) (key : dict -> result K) (r : dict) : K :=
  match key r with Ok k => k | Err _ => default end.






End Ranking.

(** ** The key pool ([_parse_keys] of [alphavantage.py]) *)

Module KeyPool.
Import PyStr.

(** [os.environ]: the bindings in the order [os.environ.keys()] lists them. *)
Definition environ : Type := list (string * string).

(** [os.environ.get(name, default)] *)
Definition environ_get (name : string) (env : environ) (default : string) : string :=
  match List.find (fun b => String.eqb b.1 name) env with
  | Some b => b.2
  | None => default
  end.

Definition env_prefix : string := "ALPHAVANTAGE_API_KEY_".

(** [int(k.rsplit("_", 1)[1]) if k.rsplit("_", 1)[1].isdigit() else 10**9] *)
Definition suffix_rank (k : string) : N :=
  let suffix := after_last "_"%char k in
  if isdigit suffix then int suffix else (10 ^ 9)%N.

Definition numeric_env_keys (env : environ) : list string :=
  Analytics.sorted_by N.ltb
    ((fun env_key => (suffix_rank env_key, env_key))
       <$> List.filter (startswith env_prefix) env.*1).

(** The list [keys] before the duplicates are dropped. *)
Definition collected (ALPHAVANTAGE_API_KEYS ALPHAVANTAGE_API_KEY : string) (env : environ)
  : list string :=
  let from_list :=
    if nonempty (strip ALPHAVANTAGE_API_KEYS)
    then omap (fun k => if nonempty (strip k) then Some (strip k) else None)
              (split ","%char ALPHAVANTAGE_API_KEYS)
    else [] in
  let from_single :=
    if nonempty (strip ALPHAVANTAGE_API_KEY) then [strip ALPHAVANTAGE_API_KEY] else [] in
  let from_env :=
    omap (fun env_key =>
            let val := strip (environ_get env_key env "") in
            if nonempty val then Some val else None)
         (numeric_env_keys env) in
  from_list ++ from_single ++ from_env.

(** Deduplicate while preserving order. *)
Fixpoint dedup (seen : gset string) (keys : list string) : list string :=
  match keys with
  | [] => []
  | key :: rest =>
      if bool_decide (key ∈ seen) then dedup seen rest
      else key :: dedup ({[ key ]} ∪ seen) rest
  end.

Definition _parse_keys (ALPHAVANTAGE_API_KEYS ALPHAVANTAGE_API_KEY : string) (env : environ)
  : list string :=
  dedup ∅ (collected ALPHAVANTAGE_API_KEYS ALPHAVANTAGE_API_KEY env).

(** [AlphaVantageClient()]: the pool comes from [_parse_keys], the cursor
    starts at 0. *)
Definition new_client (ALPHAVANTAGE_API_KEYS ALPHAVANTAGE_API_KEY : string) (env : environ)
  : Client.state :=
  Client.mk_state (_parse_keys ALPHAVANTAGE_API_KEYS ALPHAVANTAGE_API_KEY env) 0 [].

End KeyPool.

(** ** The [.env] file ([_load_env_into_environ] of [config.py])

    The file is given by its lines, [path.read_text(...).splitlines()].
    [os.environ] refuses names and values with a NUL character, so the
    model stands for files without one ([well_formed]). *)

Module Config.
Import PyStr KeyPool.

(** [name in os.environ] *)
Definition environ_has (name : string) (env : environ) : bool :=
  existsb (fun b => String.eqb b.1 name) env.

(** One turn of the loop over the lines. *)
Definition load_line (line : string) (env : environ) : environ :=
  let line := strip line in
  if negb (nonempty line) || startswith "#" line then env
  else if negb (has_char "="%char line) then env
  else
    let '(key, value) := split_once "="%char line in
    let key := strip key in
    let value := strip value in
    if nonempty key && negb (environ_has key env)
    then (env ++ [(key, value)])%list
    else env.

Inductive env_file : Type :=
| NoFile                           (* [not path.is_file()] *)
| FileLines (lines : list string).

Definition _load_env_into_environ (file : env_file) (env : environ) : environ :=
  match file with
  | NoFile => env
  | FileLines lines => fold_left (fun env line => load_line line env) lines env
  end.

Definition well_formed (file : env_file) : Prop :=
  match file with
  | NoFile => True
  | FileLines lines => Forall (fun line => has_char (ascii_of_nat 0) line = false) lines
  end.

End Config.

(** ** CSV payloads ([_get_csv] of [alphavantage.py]) *)

Module Csv.
Import Client.

(** What one exchange gives back when the body is read as text. *)
Inductive text_response : Type :=
| TextFailed (msg : string)
| Text (text : string).

Definition text_upstream : Type := nat -> dict -> text_response.

(** [http.get], [r.raise_for_status()] and [r.text]. *)
Definition http_get_text (up : text_upstream) (query : dict) : M state string := fun st =>
  let st' := {| client := client st; trace := trace st ++ [EvRequest query] |} in
  match up (length (requests (trace st))) query with
  | TextFailed msg => (Err (TransportError msg), st')
  | Text text => (Ok text, st')
  end.

Definition quote : string := String (ascii_of_nat 34) EmptyString.

(** ["{" in text and '"Note"' in text] *)
Definition looks_throttled (text : string) : bool :=
  PyStr.contains "{" text && PyStr.contains (quote ++ "Note" ++ quote) text.

(** [list(csv.DictReader(io.StringIO(text)))] is the parameter [rows_of]. *)
Fixpoint csv_attempt_loop (up : text_upstream) (rows_of : string -> list dict)
    (base_params : dict) (attempts : nat) : M state (list dict) :=
  match attempts with
  | O =>
      fallback_key <- _take_next_key ;;
      text <- http_get_text up (with_key base_params fallback_key) ;;
      ret (rows_of text)
  | S rest =>
      key <- _take_next_key ;;
      text <- http_get_text up (with_key base_params key) ;;
      (* CSV success payload should contain a header row. *)
      if looks_throttled text
      then csv_attempt_loop up rows_of base_params rest
      else match rows_of text with
           | [] => csv_attempt_loop up rows_of base_params rest
           | rows => ret rows
           end
  end.


Definition csv_params (params : dict) : dict := dict_set "datatype" (VStr "csv") params.

Definition _get_csv_body (cfg : Settings) (up : text_upstream)
    (rows_of : string -> list dict) (params : dict) : M state (list dict) :=
  _maybe_rate_limit cfg ;;;
  (fun st => csv_attempt_loop up rows_of (csv_params params)
               (Nat.max 1 (length (api_keys (client st)))) st).

Definition _get_csv (cfg : Settings) (up : text_upstream)
    (rows_of : string -> list dict) (params : dict) : M state (list dict) :=
  retry 3 (_get_csv_body cfg up rows_of params).

(** [listing_status]: the rows go through [_universe_cache]. *)
Definition normalized_state (state : string) : string :=
  let s := PyStr.strip (PyStr.lower state) in
  if PyStr.nonempty s then s else "active".

Definition listing_status {C} (ops : Endpoints.cache_ops C) (cfg : Settings)
    (up : text_upstream) (rows_of : string -> list dict) (state : string)
  : M (Endpoints.world C) value :=
  Endpoints.through_cache ops Endpoints.UniverseCache
    [Endpoints.KStr "LISTING_STATUS"; Endpoints.KStr (normalized_state state)]
    (fun st =>
       match _get_csv cfg up rows_of
               [("function", VStr "LISTING_STATUS");
                ("state", VStr (normalized_state state))] st with
       | (Ok rows, st') => (Ok (Analytics.rows_value rows), st')
       | (Err e, st') => (Err e, st')
       end).

End Csv.

(** * Properties *)

(** ** Dictionaries *)

Lemma dict_lookup_set_eq k v d : dict_lookup k (dict_set k v d) = Some v.
Proof.
  induction d as [|[k' v'] d IH]; simpl.
  - by rewrite String.eqb_refl.
  - destruct (String.eqb k k') eqn:Hk; simpl; rewrite ?String.eqb_refl, ?Hk; done.
Qed.

Lemma dict_lookup_set_ne k k' v d :
  k <> k' -> dict_lookup k (dict_set k' v d) = dict_lookup k d.
Proof.
  intros Hne. apply String.eqb_neq in Hne.
  induction d as [|[k0 v0] d IH]; simpl.
  - by rewrite Hne.
  - destruct (String.eqb k' k0) eqn:Hk; simpl.
    + apply String.eqb_eq in Hk as <-. by rewrite Hne.
    + by rewrite IH.
Qed.

(** ** Credential pool *)

Module ClientProps.
Import Client.
Local Open Scope list_scope.

Lemma take_next_key_in_range keys c tr :
  c < length keys ->
  _take_next_key (mk_state keys c tr)
  = (Ok (keys !!! c), mk_state keys ((c + 1) mod length keys) tr).
Proof.
  intros Hc. unfold _take_next_key, mk_state; simpl.
  destruct keys as [|k0 keys']; [simpl in Hc; lia|].
  destruct (lookup_lt_is_Some_2 (k0 :: keys') c Hc) as [key Hkey].
  rewrite Hkey. by rewrite (list_lookup_total_correct _ _ _ Hkey).
Qed.

Lemma take_next_key_empty c tr :
  _take_next_key (mk_state [] c tr) = (Err (RuntimeError no_keys_msg), mk_state [] c tr).
Proof. reflexivity. Qed.

Lemma repeat_take_next_key_from keys tr c n : forall j,
  0 < length keys ->
  repeatM n _take_next_key (mk_state keys ((c + j) mod length keys) tr)
  = (Ok ((fun i => key_at keys c i) <$> seq j n),
     mk_state keys ((c + (j + n)) mod length keys) tr).
Proof.
  induction n as [|n IH]; intros j Hk.
  - simpl. unfold ret. by rewrite Nat.add_0_r.
  - cbn [repeatM]. unfold bind at 1.
    rewrite take_next_key_in_range by (apply Nat.mod_upper_bound; lia).
    rewrite Nat.Div0.add_mod_idemp_l.
    replace (c + j + 1) with (c + S j) by lia.
    unfold bind at 1. rewrite (IH (S j) Hk). unfold ret.
    replace (S j + n) with (j + S n) by lia. reflexivity.
Qed.

Lemma repeat_take_next_key keys tr n c :
  c < length keys ->
  repeatM n _take_next_key (mk_state keys c tr)
  = (Ok ((fun i => key_at keys c i) <$> seq 0 n),
     mk_state keys ((c + n) mod length keys) tr).
Proof.
  intros Hc.
  pose proof (repeat_take_next_key_from keys tr c n 0 ltac:(lia)) as H.
  rewrite Nat.add_0_r, Nat.mod_small in H by done. exact H.
Qed.

Lemma rotate_nat_add_mod base offset len :
  0 < len -> rotate_nat_add base offset len = (base + offset) mod len.
Proof.
  intros Hlen. unfold rotate_nat_add.
  rewrite <- Nat2Z.inj_add, <- Nat2Z.inj_mod. apply Nat2Z.id.
Qed.

Lemma cycle_is_rotate keys c :
  c < length keys ->
  (fun i => key_at keys c i) <$> seq 0 (length keys) = rotate c keys.
Proof.
  intros Hc. apply list_eq. intros i.
  rewrite list_lookup_fmap.
  destruct (decide (i < length keys)) as [Hi|Hi].
  - rewrite lookup_seq_lt by done. simpl.
    rewrite lookup_rotate_r by done. rewrite rotate_nat_add_mod by lia.
    unfold key_at. symmetry. apply list_lookup_lookup_total_lt.
    apply Nat.mod_upper_bound. lia.
  - rewrite lookup_seq_ge by lia. simpl. symmetry.
    apply lookup_ge_None. rewrite length_rotate. lia.
Qed.

(** C7. Round-robin cycle.  For a pool of [k] keys and a cursor [c] in
    [0, k), [k] consecutive draws succeed and return the pool rotated to start
    at the cursor: the keys in the pool's order, every position once (the
    result is a permutation of the pool), the cursor is [c] again afterwards,
    and after any number of draws it is below [k]. *)
Theorem C7_round_robin_cycle (keys : list string) (c : nat) (tr : list event) :
  c < length keys ->
  repeatM (length keys) _take_next_key (mk_state keys c tr)
    = (Ok (rotate c keys), mk_state keys c tr)
  /\ rotate c keys = (drop c keys ++ take c keys)%list
  /\ rotate c keys ≡ₚ keys
  /\ (forall i, i < length keys ->
        rotate c keys !! i = keys !! ((c + i) mod length keys))
  /\ (forall n, exists ks c',
        repeatM n _take_next_key (mk_state keys c tr) = (Ok ks, mk_state keys c' tr)
        /\ length ks = n /\ c' < length keys).
Proof.
  intros Hc. repeat split.
  - rewrite repeat_take_next_key by done. rewrite cycle_is_rotate by done.
    do 2 f_equal. rewrite <- (Nat.mul_1_l (length keys)) at 1.
    rewrite Nat.Div0.mod_add. by apply Nat.mod_small.
  - unfold rotate. by rewrite Nat.mod_small.
  - unfold rotate. rewrite Permutation_app_comm. by rewrite take_drop.
  - intros i Hi. rewrite lookup_rotate_r by done.
    by rewrite rotate_nat_add_mod by lia.
  - intros n. eexists _, _. split; [by apply repeat_take_next_key|].
    split; [by rewrite length_fmap, length_seq|].
    apply Nat.mod_upper_bound. lia.
Qed.

Lemma C7_round_robin_cycle_witness :
  repeatM 3 _take_next_key (mk_state ["k1"; "k2"; "k3"] 1 [])
  = (Ok ["k2"; "k3"; "k1"], mk_state ["k1"; "k2"; "k3"] 1 []).
Proof.
  exact (proj1 (C7_round_robin_cycle ["k1"; "k2"; "k3"] 1 [] ltac:(simpl; lia))).
Defined.

(** ** One execution of the request body *)











(** ** The empty pool *)






(** ** Which payloads the client discards *)






End ClientProps.

(** ** Guidance scoring *)

Module AnalyticsProps.
Import Analytics.
Local Open Scope list_scope.
Local Open Scope Q_scope.

Lemma Qlt_bool_iff x y : Qlt_bool x y = true <-> x < y.
Proof.
  unfold Qlt_bool. rewrite negb_true_iff, <- not_true_iff_false, Qle_bool_iff.
  split; [apply Qnot_le_lt | apply Qlt_not_le].
Qed.

Lemma py_min_spec a b : py_min a b <= a /\ py_min a b <= b /\ (a <= b -> py_min a b = a).
Proof.
  unfold py_min. destruct (Qlt_bool b a) eqn:H.
  - apply Qlt_bool_iff in H. repeat split; try lra.
  - apply not_true_iff_false in H. rewrite Qlt_bool_iff in H. repeat split; lra.
Qed.

Lemma py_max_spec a b : a <= py_max a b /\ b <= py_max a b /\ (b <= a -> py_max a b = a).
Proof.
  unfold py_max. destruct (Qlt_bool a b) eqn:H.
  - apply Qlt_bool_iff in H. repeat split; try lra.
  - apply not_true_iff_false in H. rewrite Qlt_bool_iff in H. repeat split; lra.
Qed.





Lemma bounded_readable k lo hi row :
  readable k row = true ->
  _bounded (dict_get k row) lo hi = Ok (bounded_field k lo hi row).
Proof.
  unfold readable, bounded_field, _bounded, is_number.
  destruct (dict_get k row); simpl; done.
Qed.


Lemma annotate_readable row :
  readable "momentum_1d" row = true -> readable "volatility_proxy" row = true ->
  readable "sentiment" row = true ->
  annotate row = Ok (annotated row).
Proof.
  intros Hm Hv Hs. unfold annotate.
  by rewrite !bounded_readable.
Qed.

Lemma scorable_readable row :
  scorable row = true ->
  readable "momentum_1d" row = true /\ readable "volatility_proxy" row = true
  /\ readable "sentiment" row = true
  /\ dict_lookup "momentum_1d" row <> Some VNone.
Proof.
  unfold scorable. rewrite !andb_true_iff. intros [[[? ?] ?] Hm].
  repeat split; try done. intros Heq. by rewrite Heq in Hm.
Qed.

Lemma annotated_lookup row :
  dict_lookup "signal_score" (annotated row) = Some (VNum (py_round (row_score row) 4))
  /\ dict_lookup "signal" (annotated row) = Some (VStr (_label_from_score (row_score row)))
  /\ dict_lookup "risk_score" (annotated row)
     = Some (VNum (py_round (bounded_field "volatility_proxy" 0.0 1.0 row) 4))
  /\ forall k, k <> "signal_score"%string -> k <> "signal"%string ->
               k <> "risk_score"%string ->
       dict_lookup k (annotated row) = dict_lookup k row.
Proof.
  unfold annotated, dict_merge. cbn [fold_left fst snd]. repeat split.
  - rewrite !dict_lookup_set_ne by done. apply dict_lookup_set_eq.
  - rewrite dict_lookup_set_ne by done. apply dict_lookup_set_eq.
  - apply dict_lookup_set_eq.
  - intros k H1 H2 H3. by rewrite !dict_lookup_set_ne.
Qed.

Lemma map_result_total {A B} (f : A -> result B) (g : A -> B) (l : list A) :
  (forall a, a ∈ l -> f a = Ok (g a)) -> map_result f l = Ok (g <$> l).
Proof.
  induction l as [|a l IH]; intros Hall; [done|]. simpl.
  rewrite (Hall a) by left. rewrite IH; [done|].
  intros a' Ha'. apply Hall. by right.
Qed.

Lemma number_or_zero_lookup k q r :
  dict_lookup k r = Some (VNum q) -> number_or_zero k r = Ok q.
Proof. intros H. unfold number_or_zero, dict_get_or. by rewrite H. Qed.

Lemma momentum_key_scorable row :
  scorable row = true ->
  exists q, number_or_zero "momentum_1d" (annotated row) = Ok q.
Proof.
  intros (Hm & _ & _ & Hnone)%scorable_readable.
  unfold number_or_zero, dict_get_or.
  destruct (annotated_lookup row) as (_ & _ & _ & Hkeep).
  rewrite Hkeep by done.
  unfold readable, dict_get, dict_get_or, is_number in Hm.
  destruct (dict_lookup "momentum_1d" row) as [[]|]; simpl in *; try done; eauto.
Qed.

(** Every ranking key can be computed on the row of a scorable input. *)
Lemma ranking_keys_scorable row :
  scorable row = true ->
  (exists k, with_key key_safest (annotated row) = Ok (k, annotated row))
  /\ (exists k, with_key key_riskiest (annotated row) = Ok (k, annotated row))
  /\ (exists k, with_key (number_or_zero "signal_score") (annotated row)
                = Ok (k, annotated row))
  /\ (exists k, with_key key_abs_score (annotated row) = Ok (k, annotated row)).
Proof.
  intros Hrow. destruct (momentum_key_scorable row Hrow) as [qm Hqm].
  destruct (annotated_lookup row) as (Hscore & _ & Hrisk & _).
  apply number_or_zero_lookup in Hscore, Hrisk.
  unfold with_key, key_safest, key_riskiest, key_abs_score.
  rewrite Hscore, Hrisk, Hqm. eauto 10.
Qed.





(** A row whose [momentum_1d] key holds [None] is scored as if it were 0,
    and then stops the builder in the ranking of the riskiest rows. *)
Lemma guidance_none_momentum_raises :
  annotate [("symbol", VStr "EUR/USD"); ("momentum_1d", VNone)]
  = Ok [("symbol", VStr "EUR/USD"); ("momentum_1d", VNone);
        ("signal_score", VNum 0.0000); ("signal", VStr "hold");
        ("risk_score", VNum 0.0000)]
  /\ build_market_guidance [] [[("symbol", VStr "EUR/USD"); ("momentum_1d", VNone)]] [] []
     = Err (TypeError "bad operand type").
Proof. split; by vm_compute. Qed.

End AnalyticsProps.

(** ** The snapshot store and the refresh *)

Module OrchestratorProps.
Import Orchestrator.
Local Open Scope list_scope.

(** *** Reading the store *)

Lemma slice_from_last {A} (n : nat) (l : list A) :
  0 < n -> slice_from (- Z.of_nat n) l = last_n n l.
Proof.
  intros Hn. unfold slice_from, last_n.
  destruct (Z.ltb_spec (- Z.of_nat n) 0) as [_|H]; [|lia].
  f_equal. lia.
Qed.

Lemma slice_from_zero {A} (l : list A) : slice_from (- 0) l = l.
Proof. unfold slice_from. simpl. by rewrite Z.min_l by lia. Qed.

Lemma length_last_n {A} (n : nat) (l : list A) :
  length (last_n n l) = Nat.min n (length l).
Proof. unfold last_n. rewrite length_drop. lia. Qed.

Lemma last_n_all {A} (n : nat) (l : list A) : length l <= n -> last_n n l = l.
Proof. intros H. unfold last_n. by replace (length l - n) with 0 by lia. Qed.

Lemma last_n_app {A} (n : nat) (l1 l2 : list A) :
  last_n n (last_n n l1 ++ l2) = last_n n (l1 ++ l2).
Proof.
  unfold last_n. rewrite !length_app, length_drop, !drop_app, drop_drop, length_drop.
  f_equal; f_equal; lia.
Qed.

Lemma last_n_idem {A} (n : nat) (l : list A) : last_n n (last_n n l) = last_n n l.
Proof.
  pose proof (last_n_app n l []) as H. by rewrite !app_nil_r in H.
Qed.

Lemma last_last_n {A} (n : nat) (l : list A) : 0 < n -> last (last_n n l) = last l.
Proof.
  intros Hn. unfold last_n. rewrite !last_lookup, lookup_drop, length_drop.
  destruct (decide (length l = 0)) as [Hl|Hl].
  - apply length_zero_iff_nil in Hl. by subst.
  - f_equal. lia.
Qed.

(** C9, as the code has it.  On a store whose history is the list [h], a
    limit [n >= 1] - the routing layer lets no other through - yields exactly the
    last [min n (length h)] entries of [h], oldest first, so never more than
    [n]; a limit of 0 yields the whole history. *)
Theorem C9_get_history_slice (svc : MarketOverviewService) (d : dict)
    (h : list value) (n : Z) :
  _snapshot svc = VDict d ->
  dict_get_or "history" (VList []) d = VList h ->
  (1 <= n)%Z ->
  get_history n svc = Ok (VList (last_n (Z.to_nat n) h))
  /\ length (last_n (Z.to_nat n) h) = Nat.min (Z.to_nat n) (length h)
  /\ (Z.of_nat (length (last_n (Z.to_nat n) h)) <= n)%Z
  /\ last_n (Z.to_nat n) h `suffix_of` h
  /\ get_history 0 svc = Ok (VList h).
Proof.
  intros Hstore Hhist Hn. unfold get_history. rewrite Hstore. simpl. rewrite Hhist.
  split. { rewrite <- (Z2Nat.id n) at 1 by lia. rewrite slice_from_last; [done|lia]. }
  split; [apply length_last_n|].
  split. { rewrite length_last_n. lia. }
  split. { apply suffix_drop. }
  by rewrite slice_from_zero.
Qed.

Lemma C9_get_history_slice_witness :
  get_history 2 (with_store (VDict [("history", VList [VStr "s1"; VStr "s2"; VStr "s3"])]))
  = Ok (VList [VStr "s2"; VStr "s3"]).
Proof.
  exact (proj1 (C9_get_history_slice
                  (with_store (VDict [("history", VList [VStr "s1"; VStr "s2"; VStr "s3"])]))
                  _ _ 2%Z eq_refl eq_refl ltac:(lia))).
Defined.

(** The claim fails at the limit 0: [history[-0:]] is the whole list. *)
Lemma C9_counterexample :
  get_history 0 (with_store (VDict [("history", VList [VStr "s1"; VStr "s2"])]))
  = Ok (VList [VStr "s1"; VStr "s2"])
  /\ ~ (length [VStr "s1"; VStr "s2"] <= 0).
Proof. split; [reflexivity | simpl; lia]. Qed.

(** *** What a refresh does to the store *)

Lemma keeps_ret {A} (a : A) : keeps (ret a).
Proof. by intros fr. Qed.

Lemma keeps_raise {A} (e : exn) : keeps (raise (A := A) e).
Proof. by intros fr. Qed.

Lemma keeps_lift {A} (r : result A) : keeps (lift r).
Proof. by intros fr. Qed.

Lemma keeps_bind {A B} (m : M frame A) (k : A -> M frame B) :
  keeps m -> (forall a, keeps (k a)) -> keeps (bind m k).
Proof.
  intros Hm Hk fr. unfold bind. specialize (Hm fr).
  destruct (m fr) as [[a|e] fr1]; simpl in *; [|done].
  by rewrite Hk.
Qed.

Lemma keeps_set_status updates : keeps (on_self (_set_refresh_status updates)).
Proof. by intros fr. Qed.

Lemma keeps_mark_step track_progress total_steps label :
  keeps (mark_step track_progress total_steps label).
Proof. intros fr. unfold mark_step. by destruct track_progress, total_steps. Qed.

Lemma keeps_fetch_loop {X} fetch failure step_label cb (symbols : list X) :
  (forall c, cb = Some c -> forall l, keeps (c l)) ->
  forall rows errors,
    keeps (fetch_loop fetch failure step_label cb symbols rows errors).
Proof.
  intros Hcb. induction symbols as [|x symbols IH]; intros rows errors.
  - apply keeps_ret.
  - cbn [fetch_loop]. destruct (fetch x); (apply keeps_bind; [|intros _; apply IH]);
      (destruct cb as [c|]; [by apply Hcb | apply keeps_ret]).
Qed.

Lemma keeps_progress_cb (track_progress : bool) total_steps c :
  (if track_progress then Some (mark_step track_progress total_steps) else None)
  = Some c ->
  forall l, keeps (c l).
Proof.
  destruct track_progress; [|done]. intros [= <-] l. apply keeps_mark_step.
Qed.

Lemma keeps_collect E reason track_progress total_steps :
  keeps (collect_snapshot E reason track_progress total_steps).
Proof.
  unfold collect_snapshot.
  pose proof (keeps_progress_cb track_progress total_steps) as Hcb.
  apply keeps_bind.
  { intros fr. apply (keeps_fetch_loop _ _ _ _ _ Hcb). }
  intros [stock_rows stock_errors]. apply keeps_bind.
  { intros fr. apply (keeps_fetch_loop _ _ _ _ _ Hcb). }
  intros [fx_rows fx_errors]. apply keeps_bind.
  { intros fr. apply (keeps_fetch_loop _ _ _ _ _ Hcb). }
  intros [crypto_rows crypto_errors].
  repeat (first [apply keeps_lift | apply keeps_ret | apply keeps_mark_step
                | destruct track_progress; [apply keeps_mark_step | apply keeps_ret]
                | apply keeps_bind; [|intros ?]]).
Qed.

Lemma keeps_begin E reason track_progress total_steps :
  keeps (refresh_begin E reason track_progress total_steps).
Proof. intros fr. unfold refresh_begin. by destruct track_progress. Qed.

Lemma keeps_except E track_progress exc :
  keeps (refresh_except E track_progress exc).
Proof. intros fr. unfold refresh_except. by destruct track_progress. Qed.

(** The second part of the [try]: the store is replaced before the disk is
    written, and the outcome is that of the write. *)
Lemma publish_effect E track_progress total_steps snapshot fr :
  match obj_get_or "history" (VList []) (_snapshot (self fr)) with
  | Ok (VList h) =>
      _snapshot (self (publish_snapshot E track_progress total_steps snapshot fr).2)
      = new_store snapshot h
      /\ (publish_snapshot E track_progress total_steps snapshot fr).1
         = match write_text E (new_store snapshot h) with
           | Ok _ => Ok snapshot
           | Err e => Err e
           end
  | _ =>
      _snapshot (self (publish_snapshot E track_progress total_steps snapshot fr).2)
      = _snapshot (self fr)
      /\ exists e, (publish_snapshot E track_progress total_steps snapshot fr).1 = Err e
  end.
Proof.
  unfold publish_snapshot, bind, on_self, store_snapshot, _persist, ret.
  cbn [self completed_steps].
  destruct (obj_get_or "history" (VList []) (_snapshot (self fr))) as [[| | | |h|]|e];
    cbn [fst snd self _snapshot]; eauto.
  unfold set_snapshot; cbn [_snapshot]. fold (new_store snapshot h).
  destruct (write_text E (new_store snapshot h)) as [[]|e]; [|done].
  by destruct track_progress.
Qed.

Lemma try_store_outcome E reason track_progress total_steps fr :
  store_outcome E (_snapshot (self fr))
    (refresh_try E reason track_progress total_steps fr).1
    (_snapshot (self (refresh_try E reason track_progress total_steps fr).2)).
Proof.
  unfold refresh_try, bind.
  pose proof (keeps_collect E reason track_progress total_steps fr) as Hkeep.
  destruct (collect_snapshot E reason track_progress total_steps fr)
    as [[snapshot|e] fr1]; simpl in *.
  - pose proof (publish_effect E track_progress total_steps snapshot fr1) as Hpub.
    rewrite Hkeep in Hpub.
    destruct (obj_get_or "history" (VList []) (_snapshot (self fr))) as [hist|e] eqn:Hh.
    + destruct hist as [| | | |h|];
        try (destruct Hpub as [Hs [e He]]; rewrite Hs, He; constructor).
      destruct Hpub as [-> ->].
      destruct (write_text E (new_store snapshot h)) as [[]|e] eqn:Hw.
      * by constructor.
      * by constructor.
    + destruct Hpub as [Hs [e' He]]. rewrite Hs, He. constructor.
  - rewrite Hkeep. constructor.
Qed.

Lemma refresh_store_outcome E reason track_progress svc :
  store_outcome E (_snapshot svc) (refresh_once E reason track_progress svc).1
    (_snapshot (refresh_once E reason track_progress svc).2).
Proof.
  unfold refresh_once, in_frame.
  set (fr0 := {| self := svc; completed_steps := 0 |}).
  set (total := _total_steps svc).
  unfold bind.
  pose proof (keeps_begin E reason track_progress total fr0) as Hbegin.
  destruct (refresh_begin E reason track_progress total fr0) as [[[]|e] fr1] eqn:Hb;
    simpl in *.
  2:{ rewrite Hbegin. constructor. }
  unfold refresh_rest, try_except.
  pose proof (try_store_outcome E reason track_progress total fr1) as Htry.
  rewrite Hbegin in Htry.
  destruct (refresh_try E reason track_progress total fr1) as [[snapshot|e] fr2];
    simpl in *.
  - exact Htry.
  - pose proof (keeps_except E track_progress e fr2) as Hexc.
    assert (Hres : (refresh_except E track_progress e fr2).1 = Err e).
    { unfold refresh_except, bind. by destruct track_progress. }
    destruct (refresh_except E track_progress e fr2) as [r fr3]; simpl in *.
    subst r. rewrite Hexc. exact Htry.
Qed.

(** *** A failed refresh *)


Lemma publish_completed_status E total_steps snapshot fr v fr' :
  publish_snapshot E true total_steps snapshot fr = (Ok v, fr') ->
  dict_lookup "state" (_refresh_status (self fr')) = Some (VStr "completed")
  /\ dict_lookup "error" (_refresh_status (self fr')) = Some VNone.
Proof.
  unfold publish_snapshot, bind, on_self, store_snapshot, _persist, ret.
  destruct (obj_get_or "history" (VList []) (_snapshot (self fr)))
    as [[| | | |h|]|e]; try done.
  cbn [self _snapshot set_snapshot].
  destruct (write_text E _) as [[]|e]; [|done].
  intros [= _ <-]. cbn [self _refresh_status _set_refresh_status set_status fst snd].
  unfold dict_merge. cbn [fold_left fst snd]. split.
  - rewrite !dict_lookup_set_ne by done. apply dict_lookup_set_eq.
  - rewrite dict_lookup_set_ne by done. apply dict_lookup_set_eq.
Qed.

Lemma except_failed_status E e fr :
  (refresh_except E true e fr).1 = Err e
  /\ dict_lookup "state" (_refresh_status (self (refresh_except E true e fr).2))
     = Some (VStr "failed")
  /\ dict_lookup "error" (_refresh_status (self (refresh_except E true e fr).2))
     = Some (VStr (exc_str E e)).
Proof.
  unfold refresh_except, bind, on_self, raise, ret.
  cbn [fst snd self _refresh_status _set_refresh_status set_status].
  unfold dict_merge. cbn [fold_left fst snd]. split; [done|]. split.
  - rewrite !dict_lookup_set_ne by done. apply dict_lookup_set_eq.
  - apply dict_lookup_set_eq.
Qed.

Lemma rest_result_status E reason total_steps fr :
  let run := refresh_rest E reason true total_steps fr in
  match run.1 with
  | Ok _ =>
      dict_lookup "state" (_refresh_status (self run.2)) = Some (VStr "completed")
      /\ dict_lookup "error" (_refresh_status (self run.2)) = Some VNone
  | Err e =>
      dict_lookup "state" (_refresh_status (self run.2)) = Some (VStr "failed")
      /\ dict_lookup "error" (_refresh_status (self run.2)) = Some (VStr (exc_str E e))
      /\ (refresh_try E reason true total_steps fr).1 = Err e
  end.
Proof.
  cbv zeta. unfold refresh_rest, try_except.
  destruct (refresh_try E reason true total_steps fr) as [[snapshot|e] fr2] eqn:Hrun.
  - cbn [fst snd]. revert Hrun. unfold refresh_try, bind.
    destruct (collect_snapshot E reason true total_steps fr) as [[snap|e] fr1]; [|done].
    apply publish_completed_status.
  - destruct (except_failed_status E e fr2) as (Hres & Hstate & Herror).
    rewrite Hres. by cbn [fst].
Qed.








(** *** The bounded history *)

Lemma history_of_new_store snapshot h svc :
  _snapshot svc = new_store snapshot h ->
  history_of svc = last_n 200 (h ++ [snapshot]) /\ get_latest svc = Ok snapshot.
Proof.
  intros H. unfold history_of, get_latest. rewrite H. split; [|done].
  change (obj_get_or "history" (VList []) (new_store snapshot h))
    with (Ok (VList (slice_from (- Z.of_nat 200) (h ++ [snapshot])))).
  by rewrite slice_from_last by lia.
Qed.

Lemma refresh_completed_store E reason track_progress svc snapshot svc' :
  refresh_once E reason track_progress svc = (Ok snapshot, svc') ->
  history_of svc' = last_n 200 (history_of svc ++ [snapshot])
  /\ get_latest svc' = Ok snapshot.
Proof.
  intros Hrun.
  pose proof (refresh_store_outcome E reason track_progress svc) as Hstore.
  rewrite Hrun in Hstore. cbn [fst snd] in Hstore.
  inversion Hstore as [snap h Hh Hw Heq Hnew| |]. subst snap.
  symmetry in Hnew. apply history_of_new_store in Hnew.
  unfold history_of at 2. by rewrite Hh.
Qed.

Lemma refresh_each_store runs : forall svc snaps svc',
  refresh_each runs svc = (Ok snaps, svc') ->
  length snaps = length runs
  /\ match runs with
     | [] => svc' = svc
     | _ :: _ =>
         history_of svc' = last_n 200 (history_of svc ++ snaps)
         /\ exists latest, get_latest svc' = Ok latest /\ last snaps = Some latest
     end.
Proof.
  induction runs as [|[[E reason] track_progress] runs IH]; intros svc snaps svc'.
  - intros [= <- <-]. done.
  - cbn [refresh_each]. unfold bind at 1.
    destruct (refresh_once E reason track_progress svc) as [[s|e] svc1] eqn:Hone;
      [|done].
    unfold bind at 1.
    destruct (refresh_each runs svc1) as [[rest|e] svc2] eqn:Hrest; [|done].
    intros [= <- <-].
    destruct (refresh_completed_store _ _ _ _ _ _ Hone) as [Hh1 Hl1].
    destruct (IH _ _ _ Hrest) as [Hlen Hruns].
    split; [simpl; lia|].
    destruct runs as [|run runs'].
    + subst svc2. destruct rest; [|done]. split; [done|]. eauto.
    + destruct Hruns as (Hh2 & latest & Hl2 & Hlast).
      split.
      * rewrite Hh2, Hh1, last_n_app, <- app_assoc. done.
      * exists latest. split; [done|]. destruct rest; [done|]. exact Hlast.
Qed.

(** C5. Snapshot-store invariant.  After a sequence of completed refreshes
    (one at least) the history is the last 200 entries of what it was at
    the start followed by the snapshots of these refreshes in their order -
    a suffix, so the oldest entries are the ones dropped - it holds at most
    200 entries, and latest is its last element, the snapshot of the last
    refresh.  After more than 200 completed refreshes it holds exactly 200
    entries, the last 200 snapshots. *)
Theorem C5_history_invariant (runs : list (env * string * bool))
    (svc svc' : MarketOverviewService) (snaps : list value) :
  refresh_each runs svc = (Ok snaps, svc') ->
  runs <> [] ->
  length snaps = length runs
  /\ history_of svc' = last_n 200 (history_of svc ++ snaps)
  /\ history_of svc' `suffix_of` (history_of svc ++ snaps)
  /\ length (history_of svc') <= 200
  /\ (exists latest,
        get_latest svc' = Ok latest
        /\ last snaps = Some latest
        /\ last (history_of svc') = Some latest)
  /\ get_history 200 svc' = Ok (VList (history_of svc'))
  /\ (200 < length runs ->
      length (history_of svc') = 200 /\ history_of svc' = last_n 200 snaps).
Proof.
  intros Hrun Hne.
  destruct (refresh_each_store runs svc snaps svc' Hrun) as [Hlen Hruns].
  destruct runs as [|run runs']; [done|].
  destruct Hruns as (Hh & latest & Hlatest & Hlast).
  split; [done|]. split; [done|].
  split. { rewrite Hh. apply suffix_drop. }
  split. { rewrite Hh, length_last_n. lia. }
  split.
  { exists latest. split; [done|]. split; [done|].
    rewrite Hh, last_last_n by lia. rewrite last_app, Hlast. done. }
  split.
  { assert (Hpos : 0 < length (history_of svc')).
    { rewrite Hh, length_last_n, length_app. simpl in Hlen. lia. }
    assert (Hidem : last_n 200 (history_of svc') = history_of svc')
      by (rewrite Hh; apply last_n_idem).
    revert Hpos Hidem. unfold get_history, history_of.
    destruct (obj_get_or "history" (VList []) (_snapshot svc'))
      as [[| | | |h'|]|e]; cbn [rbind]; intros Hpos Hidem;
      try (simpl in Hpos; lia).
    change (- (200))%Z with (- Z.of_nat 200)%Z. rewrite slice_from_last by lia.
    by rewrite Hidem. }
  intros Hmany. split.
  - rewrite Hh, length_last_n, length_app. lia.
  - rewrite Hh. unfold last_n. rewrite length_app, drop_app.
    rewrite drop_ge by lia. simpl. f_equal. lia.
Qed.

Lemma C5_history_invariant_witness :
  let run := refresh_each (sample_runs 201) sample_service in
  length (history_of run.2) = 200
  /\ last (history_of run.2) = last (sample_snapshots 201)
  /\ history_of run.2 = last_n 200 (sample_snapshots 201).
Proof.
  assert (Hrun : refresh_each (sample_runs 201) sample_service
                 = (Ok (sample_snapshots 201),
                    (refresh_each (sample_runs 201) sample_service).2))
    by (vm_compute; reflexivity).
  destruct (C5_history_invariant _ _ _ _ Hrun ltac:(discriminate))
    as (_ & _ & _ & _ & (latest & _ & Hlast & Hlast') & _ & Hmany).
  destruct Hmany as [Hlen Hh]; [vm_compute; lia|].
  cbv zeta. split; [done|]. split; [|done]. by rewrite Hlast, Hlast'.
Defined.

(** *** Reading latest *)

Lemma init_store_is_dict ws wc wf file svc :
  __init__ ws wc wf file = Ok svc -> exists d, _snapshot svc = VDict d.
Proof.
  unfold __init__, rbind.
  destruct (_snapshot (_load_from_disk file _)) as [| | | | |d] eqn:Hs;
    try discriminate.
  intros [= <-]. cbn [_snapshot set_status]. eauto.
Qed.




(** *** Single flight *)

Lemma is_running_in_flight sys :
  is_running sys = true ->
  exists t, _refresh_task sys = Some t /\ in_flight_at sys t.
Proof.
  unfold is_running, in_flight_at.
  destruct (_refresh_task sys) as [t|]; [|done].
  destruct (tasks sys !! t) as [tk|] eqn:Htk; [|done].
  intros Hdone%negb_true_iff. eauto.
Qed.

Lemma in_flight_is_running sys t :
  single_flight_inv sys -> in_flight_at sys t -> is_running sys = true.
Proof.
  intros Hinv Ht. unfold is_running. rewrite (Hinv t Ht).
  destruct Ht as (tk & -> & ->). done.
Qed.

Lemma start_refresh_rejected now reason sys :
  is_running sys = true ->
  start_refresh now reason sys
  = (Ok [("accepted", VBool false); ("status", VDict (get_refresh_status sys))], sys).
Proof. intros H. unfold start_refresh. by rewrite H. Qed.

Lemma start_refresh_accepted now reason sys :
  is_running sys = false ->
  exists status,
    start_refresh now reason sys
    = (Ok [("accepted", VBool true); ("status", VDict status)],
       {| service := set_status status (service sys);
          tasks := tasks sys ++ [{| task_reason := reason; task_phase := Created |}];
          _refresh_task := Some (length (tasks sys));
          _refresh_lock := _refresh_lock sys |})
    /\ dict_lookup "state" status = Some (VStr "running").
Proof.
  intros H. unfold start_refresh. rewrite H.
  eexists. split; [reflexivity|].
  unfold dict_merge. cbn [fold_left fst snd].
  rewrite !dict_lookup_set_ne by done. apply dict_lookup_set_eq.
Qed.

Lemma inv_initial svc : single_flight_inv (initial svc).
Proof. intros t (tk & Htk & _). done. Qed.

Lemma lookup_set_phase t ph l t' tk :
  set_phase t ph l !! t' = Some tk ->
  (t' = t /\ task_phase tk = ph /\ exists tk0, l !! t = Some tk0)
  \/ (t' <> t /\ l !! t' = Some tk).
Proof.
  unfold set_phase. destruct (decide (t = t')) as [<-|Hne].
  - rewrite list_lookup_alter_eq. destruct (l !! t) as [tk0|]; [|done].
    intros [= <-]. left. eauto.
  - rewrite list_lookup_alter_ne by done. right. split; [congruence|done].
Qed.

Lemma inv_step sys sys' : single_flight_inv sys -> step sys sys' -> single_flight_inv sys'.
Proof.
  intros Hinv Hstep. destruct Hstep as [now reason sys|t E sys sys' Henter|t sys sys' Hfin].
  - destruct (is_running sys) eqn:Hrun.
    + by rewrite start_refresh_rejected.
    + destruct (start_refresh_accepted now reason sys Hrun) as (status & -> & _).
      cbn [snd]. intros t (tk & Htk & Hdone). cbn [tasks _refresh_task] in *.
      apply lookup_snoc_Some in Htk as [[Hlt Htk]|[-> _]]; [|done].
      assert (is_running sys = true); [|congruence].
      apply (in_flight_is_running sys t Hinv). by exists tk.
  - unfold task_enter in Henter.
    destruct (tasks sys !! t) as [tk0|] eqn:Htk0; [|done].
    destruct (task_phase tk0) eqn:Hph; try done.
    destruct (_refresh_lock sys); [done|].
    destruct (in_frame _ _) as [r svc']. injection Henter as <-.
    intros t' (tk & Htk & Hdone). cbn [tasks _refresh_task] in *.
    apply Hinv. apply lookup_set_phase in Htk as [(-> & _ & _)|[_ Htk]].
    + exists tk0. split; [done|]. unfold done. by rewrite Hph.
    + by exists tk.
  - unfold task_finish in Hfin.
    destruct (tasks sys !! t) as [tk0|] eqn:Htk0; [|done].
    destruct (task_phase tk0) eqn:Hph; try done.
    destruct (in_frame _ _) as [r svc']. injection Hfin as <-.
    intros t' (tk & Htk & Hdone). cbn [tasks _refresh_task] in *.
    apply lookup_set_phase in Htk as [(-> & Hfinished & _)|[Hne Htk]].
    + unfold done in Hdone. by rewrite Hfinished in Hdone.
    + assert (Ht : _refresh_task sys = Some t).
      { apply Hinv. exists tk0. split; [done|]. unfold done. by rewrite Hph. }
      assert (Ht' : _refresh_task sys = Some t') by (apply Hinv; by exists tk).
      congruence.
Qed.

Lemma inv_reachable svc sys : reachable svc sys -> single_flight_inv sys.
Proof.
  unfold reachable. revert sys.
  apply rtc_ind_r; [apply inv_initial|].
  intros sys sys' _ Hstep Hinv. by eapply inv_step.
Qed.




End OrchestratorProps.

(** ** The retry wrapper of the client *)

Module RetryProps.
Import Client ClientProps.
Local Open Scope list_scope.






End RetryProps.

(** ** The rate limiter *)

Module RateLimiterProps.
Import RateLimiter.
Local Open Scope list_scope.
Local Open Scope Q_scope.

Lemma drop_expired_split now l :
  exists dropped,
    l = dropped ++ drop_expired now l
    /\ forall c, In c dropped -> 60 < now - c.
Proof.
  induction l as [|c l IH]; [by exists []|]. simpl.
  destruct (Analytics.Qlt_bool 60 (now - c)) eqn:Hc.
  - destruct IH as (dropped & Hl & Hd). exists (c :: dropped).
    split; [by rewrite Hl at 1|].
    intros c' [<-|Hin]; [by apply AnalyticsProps.Qlt_bool_iff | by apply Hd].
  - by exists [].
Qed.

Lemma drop_expired_head now l oldest rest :
  drop_expired now l = oldest :: rest -> now - oldest <= 60.
Proof.
  induction l as [|c l IH]; [done|]. simpl.
  destruct (Analytics.Qlt_bool 60 (now - c)) eqn:Hc; [done|].
  intros [= -> ->]. apply not_true_iff_false in Hc.
  rewrite AnalyticsProps.Qlt_bool_iff in Hc. lra.
Qed.

Lemma within_minute_app t l1 l2 :
  within_minute t (l1 ++ l2) = (within_minute t l1 + within_minute t l2)%nat.
Proof. unfold within_minute. by rewrite List.filter_app, length_app. Qed.

Lemma within_minute_none t l :
  (forall c, In c l -> c <= t - 60) -> within_minute t l = 0%nat.
Proof.
  unfold within_minute. induction l as [|c l IH]; intros Hall; [done|]. simpl.
  destruct (Analytics.Qlt_bool (t - 60) c) eqn:Hc.
  - apply AnalyticsProps.Qlt_bool_iff in Hc. specialize (Hall c (or_introl eq_refl)). lra.
  - apply IH. intros c' Hin. apply Hall. by right.
Qed.

Lemma within_minute_le_length t l : (within_minute t l <= length l)%nat.
Proof. unfold within_minute. apply List.filter_length_le. Qed.

Lemma within_minute_mono t t' l :
  t <= t' -> (within_minute t' l <= within_minute t l)%nat.
Proof.
  intros Ht. unfold within_minute. induction l as [|c l IH]; [done|]. simpl.
  destruct (Analytics.Qlt_bool (t' - 60) c) eqn:Hc'.
  - apply AnalyticsProps.Qlt_bool_iff in Hc'.
    assert (Hc : Analytics.Qlt_bool (t - 60) c = true)
      by (apply AnalyticsProps.Qlt_bool_iff; lra).
    rewrite Hc. simpl. lia.
  - destruct (Analytics.Qlt_bool (t - 60) c); simpl; lia.
Qed.

Lemma within_minute_one t : within_minute t [t] = 1%nat.
Proof.
  unfold within_minute. simpl.
  assert (H : Analytics.Qlt_bool (t - 60) t = true)
    by (apply AnalyticsProps.Qlt_bool_iff; lra).
  by rewrite H.
Qed.

Lemma steady_start t0 n : (1 <= n)%Z -> steady (start t0 n).
Proof.
  intros Hn. split; simpl; try done.
  - exists []. split; [done|]. intros c [].
  - change (within_minute t0 []) with 0%nat. lia.
Qed.

Lemma steady_call gap lag tl :
  (1 <= max_calls (limiter tl))%Z -> 0 < gap -> 0 <= lag -> steady tl ->
  exists tl',
    call gap lag tl = Ok tl'
    /\ steady tl'
    /\ max_calls (limiter tl') = max_calls (limiter tl)
    /\ length (recorded tl') = S (length (recorded tl)).
Proof.
  intros Hmax Hgap Hlag [Hpast (old & Hadm & Hold) Hqueue Hwin Hwaits Hcount].
  unfold call, acquire, wait_for.
  set (now := clock tl + gap).
  destruct (drop_expired_split now (calls (limiter tl))) as (dropped & Hsplit & Hdropped).
  pose proof (drop_expired_head now (calls (limiter tl))) as Hhead.
  set (live := drop_expired now (calls (limiter tl))) in *.
  assert (Hlive_past : forall c, In c live -> c <= clock tl).
  { intros c Hin. apply Hpast. rewrite Hsplit. apply in_or_app. by right. }
  (* the wait and the moment the call is recorded *)
  assert (Hcase : exists wait,
            (if (max_calls (limiter tl) <=? Z.of_nat (length live))%Z
             then match live with
                  | [] => (Err (IndexError "deque index out of range"), live)
                  | oldest :: _ =>
                      (Ok (if Analytics.Qlt_bool 0 (60 - (now - oldest))
                           then Some (60 - (now - oldest)) else None), live)
                  end
             else (Ok None, live)) = (Ok wait, live)
            /\ 0 <= wait_of wait <= 60
            /\ (Z.of_nat (within_minute (now + wait_of wait + lag) live) + 1
                <= max_calls (limiter tl))%Z).
  { destruct (Z.leb_spec (max_calls (limiter tl)) (Z.of_nat (length live))) as [Hfull|Hfree].
    - destruct live as [|oldest rest] eqn:Hl; [simpl in Hfull; lia|].
      specialize (Hhead oldest rest eq_refl).
      assert (Holdest : oldest <= clock tl) by (apply Hlive_past; by left).
      eexists. split; [reflexivity|].
      assert (Hwait : 0 <= wait_of (if Analytics.Qlt_bool 0 (60 - (now - oldest))
                                    then Some (60 - (now - oldest)) else None) <= 60
                      /\ oldest + 60 <= now + wait_of
                           (if Analytics.Qlt_bool 0 (60 - (now - oldest))
                            then Some (60 - (now - oldest)) else None)).
      { subst now. destruct (Analytics.Qlt_bool 0 _) eqn:Hs; simpl.
        - apply AnalyticsProps.Qlt_bool_iff in Hs. lra.
        - apply not_true_iff_false in Hs. rewrite AnalyticsProps.Qlt_bool_iff in Hs. lra. }
      destruct Hwait as [Hw Hlate]. split; [done|].
      set (later := now + _ + lag) in *.
      (* the oldest live call is outside the new window, and it was inside the old *)
      assert (H1 : within_minute later (oldest :: rest) = within_minute later rest).
      { change (oldest :: rest) with ([oldest] ++ rest).
        rewrite within_minute_app, (within_minute_none later [oldest]); [done|].
        intros c [<-|[]]. subst later. lra. }
      assert (H2 : (within_minute later rest <= within_minute (clock tl) rest)%nat).
      { apply within_minute_mono. subst later now. lra. }
      assert (H3 : within_minute (clock tl) (calls (limiter tl))
                   = (within_minute (clock tl) dropped
                      + (1 + within_minute (clock tl) rest))%nat).
      { rewrite Hsplit, within_minute_app. f_equal.
        change (oldest :: rest) with ([oldest] ++ rest). rewrite within_minute_app.
        f_equal. unfold within_minute. simpl.
        assert (H : Analytics.Qlt_bool (clock tl - 60) oldest = true)
          by (apply AnalyticsProps.Qlt_bool_iff; subst now; lra).
        by rewrite H. }
      rewrite H1. lia.
    - exists None. split; [done|]. simpl. split; [lra|].
      pose proof (within_minute_le_length (now + 0 + lag) live). lia. }
  destruct Hcase as (wait & -> & Hw & Hroom).
  set (later := now + wait_of wait + lag) in *.
  assert (Hlater : clock tl < later) by (subst later now; lra).
  assert (Hnow : now <= later) by (subst later; lra).
  eexists. split; [reflexivity|]. split; [|split; [done|]].
  2:{ cbn [recorded]. rewrite length_app. simpl. lia. }
  assert (Hgone : forall c, In c (old ++ dropped) -> c + 60 < later).
  { intros c [Hin|Hin]%in_app_or.
    - specialize (Hold c Hin). lra.
    - specialize (Hdropped c Hin). lra. }
  assert (Hall : recorded tl = (old ++ dropped) ++ live).
  { by rewrite Hadm, Hsplit at 1; rewrite app_assoc. }
  assert (Hnew : (Z.of_nat (within_minute later (recorded tl ++ [later]))
                  <= max_calls (limiter tl))%Z).
  { rewrite within_minute_app, within_minute_one, Hall, within_minute_app.
    rewrite (within_minute_none later (old ++ dropped)).
    2:{ intros c Hin. specialize (Hgone c Hin). lra. }
    lia. }
  split; cbn [clock limiter recorded waited calls max_calls snd].
  - intros c [Hin|[<-|[]]]%in_app_or; [|lra].
    specialize (Hlive_past c Hin). lra.
  - exists (old ++ dropped). split; [by rewrite Hall, app_assoc|done].
  - rewrite within_minute_app, within_minute_one. lia.
  - intros i t Hi.
    destruct (decide (i < length (recorded tl))%nat) as [Hlt|Hge].
    + rewrite lookup_app_l in Hi by done.
      rewrite take_app_le by lia. by apply Hwin.
    + apply lookup_snoc_Some in Hi as [[Hlt _]|[-> <-]]; [lia|].
      rewrite take_ge by (rewrite length_app; simpl; lia). exact Hnew.
  - apply Forall_app. split; [done|]. by constructor.
  - rewrite !length_app. simpl. lia.
Qed.

Lemma steady_calls timing : forall tl,
  (1 <= max_calls (limiter tl))%Z ->
  Forall (fun gl => 0 < gl.1 /\ 0 <= gl.2) timing ->
  steady tl ->
  exists tl',
    calls_in_turn timing tl = Ok tl'
    /\ steady tl'
    /\ max_calls (limiter tl') = max_calls (limiter tl)
    /\ length (recorded tl') = (length (recorded tl) + length timing)%nat.
Proof.
  induction timing as [|[gap lag] timing IH]; intros tl Hmax Htiming Hsteady.
  - exists tl. split; [done|]. split; [done|]. split; [done|]. simpl. lia.
  - apply Forall_cons in Htiming as [[Hgap Hlag] Htiming]. simpl in Hgap, Hlag.
    destruct (steady_call gap lag tl Hmax Hgap Hlag Hsteady)
      as (tl1 & Hcall & Hsteady1 & Hmax1 & Hlen1).
    destruct (IH tl1 ltac:(lia) Htiming Hsteady1) as (tl' & Hrun & Hsteady' & Hmax' & Hlen').
    exists tl'. simpl. rewrite Hcall.
    split; [done|]. split; [done|]. split; [congruence|].
    rewrite Hlen', Hlen1. simpl. lia.
Qed.

(** The limiter keeps its promise when the clock moves on between calls.
    With a ceiling of at least one call per minute, and every call of
    [acquire] entered strictly after the previous reading of the clock, no
    call raises, every call is recorded, no wait exceeds 60 seconds, and at
    the moment a call is recorded at most [max_calls] calls, itself
    included, have been recorded in the 60 seconds up to that moment. *)
Theorem limiter_window (max_calls_per_minute : Z) (t0 : Q) (timing : list (Q * Q)) :
  (1 <= max_calls_per_minute)%Z ->
  Forall (fun gl => 0 < gl.1 /\ 0 <= gl.2) timing ->
  exists tl,
    calls_in_turn timing (start t0 max_calls_per_minute) = Ok tl
    /\ length (recorded tl) = length timing
    /\ length (waited tl) = length timing
    /\ Forall (fun w => 0 <= w <= 60) (waited tl)
    /\ forall i t,
         recorded tl !! i = Some t ->
         (Z.of_nat (within_minute t (take (S i) (recorded tl))) <= max_calls_per_minute)%Z.
Proof.
  intros Hmax Htiming.
  destruct (steady_calls timing (start t0 max_calls_per_minute) Hmax Htiming
              (steady_start t0 _ Hmax)) as (tl & Hrun & Hsteady & Hmax' & Hlen).
  exists tl. split; [done|]. simpl in Hlen, Hmax'.
  destruct Hsteady as [_ _ _ Hwin Hwaits Hcount].
  split; [done|]. split; [congruence|]. split; [done|].
  intros i t Hi. rewrite <- Hmax'. by apply Hwin.
Qed.

(** Two calls a minute: three callers one second apart; the third waits. *)
Lemma limiter_window_witness :
  exists tl,
    calls_in_turn [(1, 0); (1, 0); (1, 0)] (start 0 2) = Ok tl
    /\ waited tl = [0; 0; 58]
    /\ Forall (fun w => 0 <= w <= 60) (waited tl).
Proof.
  destruct (limiter_window 2 0 [(1, 0); (1, 0); (1, 0)] ltac:(lia)
              ltac:(repeat constructor; simpl; lra))
    as (tl & Hrun & _ & _ & Hwaits & _).
  exists tl. split; [done|]. split; [|done].
  assert (Hw : match calls_in_turn [(1, 0); (1, 0); (1, 0)] (start 0 2) with
               | Ok tl => waited tl | Err _ => [] end = [0; 0; 58]) by reflexivity.
  by rewrite Hrun in Hw.
Defined.


End RateLimiterProps.

(** ** The scheduler's wait *)

Module SchedulerProps.
Import Scheduler.
Local Open Scope Q_scope.

Lemma wall_clock_reals now :
  valid now ->
  exists m s : Q,
    inject_Z ((30 - minute now) * 60 - second now) == (30 - m) * 60 - s
    /\ inject_Z ((60 - minute now) * 60 - second now) == (60 - m) * 60 - s
    /\ inject_Z (minute now * 60 + second now) == m * 60 + s
    /\ 0 <= (microsecond now # 1000000) /\ (microsecond now # 1000000) < 1
    /\ 0 <= m <= 59 /\ 0 <= s <= 59
    /\ ((minute now < 30)%Z -> m <= 29)
    /\ ((30 <= minute now)%Z -> 30 <= m).
Proof.
  intros ([Hm0 Hm1] & [Hs0 Hs1] & [Hu0 Hu1]).
  exists (inject_Z (minute now)), (inject_Z (second now)).
  split. { unfold Z.sub. rewrite !inject_Z_plus, inject_Z_mult, inject_Z_plus,
             !inject_Z_opp. change (inject_Z 30) with 30.
           change (inject_Z 60) with 60. ring. }
  split. { unfold Z.sub. rewrite !inject_Z_plus, inject_Z_mult, inject_Z_plus,
             !inject_Z_opp. change (inject_Z 60) with 60. ring. }
  split. { rewrite inject_Z_plus, inject_Z_mult. change (inject_Z 60) with 60. ring. }
  split. { unfold Qle. simpl. lia. }
  split. { unfold Qlt. simpl. lia. }
  change 0 with (inject_Z 0). change 59 with (inject_Z 59).
  change 29 with (inject_Z 29). change 30 with (inject_Z 30).
  rewrite <- !Zle_Qle. repeat split; lia.
Qed.

(** The scheduler sleeps between one second and half an hour, and wakes at
    the next [:00] or [:30] of the wall clock - exactly, unless less than a
    second is left, in which case it sleeps one second and wakes less than
    a second late. *)
Theorem seconds_until_next_half_hour_spec (now : wall_clock) :
  valid now ->
  let wait := _seconds_until_next_half_hour now in
  1 <= wait <= 1800
  /\ into_hour now < next_boundary now
  /\ next_boundary now <= into_hour now + wait < next_boundary now + 1
  /\ (into_hour now + 1 <= next_boundary now ->
      into_hour now + wait == next_boundary now).
Proof.
  intros Hvalid.
  destruct (wall_clock_reals now Hvalid)
    as (m & s & H30 & H60 & Hpos & Hu0 & Hu1 & Hm & Hs & Hlow & Hhigh).
  unfold _seconds_until_next_half_hour, into_hour, next_boundary, Analytics.py_max.
  rewrite Hpos. change 1.0 with (10 # 10).
  set (u := microsecond now # 1000000) in *.
  destruct (Z.ltb_spec (minute now) 30) as [Hlt|Hge];
    [specialize (Hlow Hlt) | specialize (Hhigh Hge)];
    match goal with |- context [Analytics.Qlt_bool ?t _] => set (total := t) end.
  - assert (Htotal : total == (30 - m) * 60 - s - u)
      by (unfold total; rewrite H30; reflexivity).
    destruct (Analytics.Qlt_bool total (10 # 10)) eqn:Hb;
      [apply AnalyticsProps.Qlt_bool_iff in Hb
      |apply not_true_iff_false in Hb; rewrite AnalyticsProps.Qlt_bool_iff in Hb];
      cbv zeta; repeat match goal with |- _ /\ _ => split end;
      first [lra | intros ?; lra].
  - assert (Htotal : total == (60 - m) * 60 - s - u)
      by (unfold total; rewrite H60; reflexivity).
    destruct (Analytics.Qlt_bool total (10 # 10)) eqn:Hb;
      [apply AnalyticsProps.Qlt_bool_iff in Hb
      |apply not_true_iff_false in Hb; rewrite AnalyticsProps.Qlt_bool_iff in Hb];
      cbv zeta; repeat match goal with |- _ /\ _ => split end;
      first [lra | intros ?; lra].
Qed.

(** One and a half seconds before the half hour, and half a second before. *)
Lemma seconds_until_next_half_hour_spec_witness :
  _seconds_until_next_half_hour {| minute := 29; second := 58; microsecond := 500000 |}
    == 1.5
  /\ 1 <= _seconds_until_next_half_hour
            {| minute := 29; second := 59; microsecond := 500000 |} <= 1800.
Proof.
  split; [reflexivity|].
  apply (seconds_until_next_half_hour_spec
           {| minute := 29; second := 59; microsecond := 500000 |}).
  repeat split; simpl; lia.
Defined.

End SchedulerProps.

(** ** String methods and the watchlists *)

Module PyStrProps.
Import PyStr.
Local Open Scope list_scope.

Lemma rstrip_idem s : rstrip (rstrip s) = rstrip s.
Proof.
  induction s as [|c s IH]; [done|]. cbn [rstrip].
  destruct (rstrip s) as [|c' r] eqn:Hr.
  - destruct (is_space c) eqn:Hc; [done|]. cbn [rstrip]. by rewrite Hc.
  - cbn [rstrip]. cbn [rstrip] in IH. by rewrite IH.
Qed.

Lemma lstrip_clean_start s : clean_start (lstrip s).
Proof.
  induction s as [|c s IH]; [done|]. simpl.
  destruct (is_space c) eqn:Hc; [done|]. exact Hc.
Qed.

Lemma lstrip_id s : clean_start s -> lstrip s = s.
Proof. destruct s as [|c s]; [done|]. simpl. by intros ->. Qed.

Lemma rstrip_clean_start s : clean_start s -> clean_start (rstrip s).
Proof.
  destruct s as [|c s]; [done|]. simpl. intros Hc.
  destruct (rstrip s); [by rewrite Hc|done].
Qed.

Lemma strip_idem s : strip (strip s) = strip s.
Proof.
  unfold strip. rewrite (lstrip_id (rstrip (lstrip s))).
  - apply rstrip_idem.
  - apply rstrip_clean_start, lstrip_clean_start.
Qed.

Lemma has_char_lstrip sep s : has_char sep s = false -> has_char sep (lstrip s) = false.
Proof.
  induction s as [|c s IH]; [done|]. simpl.
  intros [Hc Hs]%orb_false_iff. destruct (is_space c); [by apply IH|].
  simpl. by rewrite Hc, Hs.
Qed.

Lemma has_char_rstrip sep s : has_char sep s = false -> has_char sep (rstrip s) = false.
Proof.
  induction s as [|c s IH]; [done|]. simpl.
  intros [Hc Hs]%orb_false_iff. specialize (IH Hs).
  destruct (rstrip s) as [|c' r].
  - destruct (is_space c); [done|]. simpl. by rewrite Hc.
  - cbn [has_char]. cbn [has_char] in IH. by rewrite Hc, IH.
Qed.

Lemma has_char_strip sep s : has_char sep s = false -> has_char sep (strip s) = false.
Proof. intros H. by apply has_char_rstrip, has_char_lstrip. Qed.

Lemma split_pieces sep s piece :
  piece ∈ split sep s -> has_char sep piece = false.
Proof.
  revert piece. induction s as [|c s IH]; intros piece; simpl.
  - by intros ->%list_elem_of_singleton.
  - destruct (Ascii.eqb c sep) eqn:Hc.
    + intros [->|Hin]%elem_of_cons; [done|by apply IH].
    + destruct (split sep s) as [|p ps].
      * intros ->%list_elem_of_singleton. simpl. by rewrite Hc.
      * intros [->|Hin]%elem_of_cons.
        -- simpl. rewrite Hc. apply IH. by left.
        -- apply IH. by right.
Qed.

Lemma split_once_before sep s :
  has_char sep (split_once sep s).1 = false.
Proof.
  induction s as [|c s IH]; [done|]. simpl.
  destruct (Ascii.eqb c sep) eqn:Hc; [done|].
  destruct (split_once sep s) as [before after]. simpl in *. by rewrite Hc, IH.
Qed.



Lemma upper_char_idem c : upper_char (upper_char c) = upper_char c.
Proof. by destruct c as [[] [] [] [] [] [] [] []]. Qed.

Lemma is_space_upper_char c : is_space (upper_char c) = is_space c.
Proof. by destruct c as [[] [] [] [] [] [] [] []]. Qed.

Lemma upper_idem s : upper (upper s) = upper s.
Proof. induction s as [|c s IH]; [done|]. simpl. by rewrite upper_char_idem, IH. Qed.

Lemma lstrip_upper s : lstrip (upper s) = upper (lstrip s).
Proof.
  induction s as [|c s IH]; [done|]. simpl. rewrite is_space_upper_char.
  by destruct (is_space c).
Qed.

Lemma rstrip_upper s : rstrip (upper s) = upper (rstrip s).
Proof.
  induction s as [|c s IH]; [done|]. simpl. rewrite IH, is_space_upper_char.
  destruct (rstrip s); [by destruct (is_space c)|done].
Qed.

Lemma strip_upper s : strip (upper s) = upper (strip s).
Proof. unfold strip. by rewrite lstrip_upper, rstrip_upper. Qed.

(** [upper] leaves the separators of the watchlists alone. *)
Lemma has_char_upper sep s :
  upper_char sep = sep -> (forall c, upper_char c = sep -> c = sep) ->
  has_char sep (upper s) = has_char sep s.
Proof.
  intros Hsep Hinj. induction s as [|c s IH]; [done|]. simpl. rewrite IH. f_equal.
  destruct (Ascii.eqb_spec (upper_char c) sep) as [Heq|Hne];
    destruct (Ascii.eqb_spec c sep) as [Heq'|Hne']; try done.
  - by destruct (Hne' (Hinj c Heq)).
  - subst c. by rewrite Hsep in Hne.
Qed.


Lemma upper_char_comma c : upper_char c = ","%char -> c = ","%char.
Proof. destruct c as [[] [] [] [] [] [] [] []]; by cbv. Qed.

Lemma upper_nonempty s : nonempty (upper s) = nonempty s.
Proof. by destruct s. Qed.

End PyStrProps.

Module WatchlistProps.
Import PyStr PyStrProps Watchlist.
Local Open Scope list_scope.

Lemma length_omap_le {A B} (f : A -> option B) (l : list A) :
  length (omap f l) <= length l.
Proof. induction l as [|x l IH]; [done|]. csimpl. destruct (f x); simpl; lia. Qed.

Lemma parse_csv_elem value item :
  item ∈ _parse_csv value ->
  exists piece, piece ∈ split ","%char value /\ item = strip piece /\ nonempty item = true.
Proof.
  unfold _parse_csv. rewrite list_elem_of_omap. intros (piece & Hin & Hitem).
  exists piece. split; [done|].
  destruct (nonempty (strip piece)) eqn:Hne; [|done].
  injection Hitem as <-. done.
Qed.

Lemma parse_csv_clean value item :
  item ∈ _parse_csv value ->
  item <> "" /\ strip item = item /\ has_char ","%char item = false.
Proof.
  intros (piece & Hin & -> & Hne)%parse_csv_elem.
  split; [by destruct (strip piece)|]. split; [apply strip_idem|].
  apply has_char_strip. by eapply split_pieces.
Qed.

(** The items of a watchlist setting: none is empty, none carries white
    space at either end, none holds a comma; the symbols made of them are in
    upper case as well. *)
Theorem parse_csv_items (value : string) :
  (forall item, item ∈ _parse_csv value ->
     item <> "" /\ strip item = item /\ has_char ","%char item = false)
  /\ (forall symbol, symbol ∈ symbols value ->
        symbol <> "" /\ strip symbol = symbol /\ upper symbol = symbol
        /\ has_char ","%char symbol = false)
  /\ length (symbols value) = length (_parse_csv value)
  /\ length (_parse_csv value) <= length (split ","%char value).
Proof.
  split; [apply parse_csv_clean|]. split.
  - unfold symbols. intros symbol (item & -> & Hin)%list_elem_of_fmap.
    destruct (parse_csv_clean value item Hin) as (Hne & Hstrip & Hcomma).
    split. { destruct item; [done|discriminate]. }
    split. { by rewrite strip_upper, Hstrip. }
    split; [apply upper_idem|].
    rewrite has_char_upper; [done|done|apply upper_char_comma].
  - split; [unfold symbols; by rewrite length_fmap|].
    unfold _parse_csv. apply length_omap_le.
Qed.


End WatchlistProps.

(** ** Sorting by a key *)

Module SortProps.
Import Analytics.
Local Open Scope list_scope.

Section Sorted.
Context {K A : Type} (before : K -> K -> bool).
Hypothesis before_asym : forall a b, before a b = true -> before b a = false.
Hypothesis before_negtrans :
  forall a b c, before b a = false -> before c b = false -> before c a = false.




End Sorted.



End SortProps.

(** ** The key pool *)

Module KeyPoolProps.
Import PyStr PyStrProps KeyPool Client ClientProps.
Local Open Scope list_scope.

Lemma dedup_spec keys : forall seen,
  NoDup (dedup seen keys)
  /\ (forall k, k ∈ dedup seen keys <-> k ∈ keys /\ k ∉ seen)
  /\ dedup seen keys `sublist_of` keys.
Proof.
  induction keys as [|key rest IH]; intros seen; simpl.
  - split; [constructor|]. split; [|done]. intros k. rewrite elem_of_nil. tauto.
  - case_bool_decide as Hseen.
    + destruct (IH seen) as (Hnd & Hin & Hsub). split; [done|]. split.
      * intros k. rewrite Hin, elem_of_cons. split; [tauto|].
        intros [[->|Hk] Hn]; [done|tauto].
      * by apply sublist_cons.
    + destruct (IH ({[key]} ∪ seen)) as (Hnd & Hin & Hsub). split; [|split].
      * constructor; [|done]. rewrite Hin, elem_of_union, elem_of_singleton. tauto.
      * intros k. rewrite !elem_of_cons, Hin, elem_of_union, elem_of_singleton.
        destruct (decide (k = key)) as [->|Hne]; tauto.
      * by apply sublist_skip.
Qed.




(** A new client hands out its whole pool in [len(api_keys)] draws, every
    key once and in pool order, and is then back where it started. *)
Theorem new_client_cycle (ALPHAVANTAGE_API_KEYS ALPHAVANTAGE_API_KEY : string)
    (env : environ) :
  let pool := _parse_keys ALPHAVANTAGE_API_KEYS ALPHAVANTAGE_API_KEY env in
  let st := new_client ALPHAVANTAGE_API_KEYS ALPHAVANTAGE_API_KEY env in
  pool <> [] ->
  exists drawn,
    repeatM (length pool) _take_next_key st = (Ok drawn, st)
    /\ drawn = pool /\ NoDup drawn.
Proof.
  intros pool st Hpool. exists pool. unfold st, new_client. fold pool.
  assert (Hlen : 0 < length pool) by (destruct pool; [done|simpl; lia]).
  rewrite repeat_take_next_key by done.
  rewrite cycle_is_rotate by done.
  replace (rotate 0 pool) with pool
    by (unfold rotate; rewrite Nat.Div0.mod_0_l; simpl; by rewrite app_nil_r).
  rewrite Nat.add_0_l, Nat.Div0.mod_same.
  split; [done|]. split; [done|].
  unfold pool, _parse_keys. apply dedup_spec.
Qed.

Lemma new_client_cycle_witness :
  exists drawn,
    repeatM 3 _take_next_key (new_client " k1 , k2,k1" "k3" [])
    = (Ok drawn, new_client " k1 , k2,k1" "k3" [])
    /\ drawn = ["k1"; "k2"; "k3"] /\ NoDup drawn.
Proof.
  apply (new_client_cycle " k1 , k2,k1" "k3" []). by vm_compute.
Defined.

End KeyPoolProps.

(** ** CSV payloads *)

Module CsvProps.
Import Client ClientProps Csv.
Local Open Scope list_scope.





End CsvProps.

(** ** The guidance: when it returns, and how it ranks *)

Module GuidanceProps.
Import Analytics AnalyticsProps Ranking SortProps.
Local Open Scope list_scope.

Lemma map_result_ok {A B} (f : A -> result B) (l : list A) bs :
  map_result f l = Ok bs -> Forall2 (fun a b => f a = Ok b) l bs.
Proof.
  revert bs. induction l as [|a l IH]; intros bs; simpl.
  - intros [= <-]. constructor.
  - destruct (f a) as [b|e] eqn:Hfa; [|done].
    destruct (map_result f l) as [bs'|e]; [|done].
    intros [= <-]. constructor; [done|]. by apply IH.
Qed.

Lemma map_result_err {A B} (f : A -> result B) (l : list A) e :
  map_result f l = Err e -> exists a, a ∈ l /\ f a = Err e.
Proof.
  induction l as [|a l IH]; simpl; [done|].
  destruct (f a) as [b|e'] eqn:Hfa.
  - destruct (map_result f l) as [bs'|e'']; [done|].
    intros [= ->]. destruct IH as (a' & Hin & Ha'); [done|].
    exists a'. split; [by right|done].
  - intros [= ->]. exists a. split; [by left|done].
Qed.

Lemma bounded_ok_readable k lo hi row q :
  _bounded (dict_get k row) lo hi = Ok q -> readable k row = true.
Proof.
  unfold _bounded, readable, is_number.
  destruct (dict_get k row); simpl; done.
Qed.

Lemma bounded_err_type x lo hi e :
  _bounded x lo hi = Err e -> exists msg, e = TypeError msg.
Proof.
  unfold _bounded. destruct x; simpl; try done; intros [= <-]; eauto.
Qed.

Lemma annotate_ok_readable row r :
  annotate row = Ok r ->
  readable "momentum_1d" row = true /\ readable "volatility_proxy" row = true
  /\ readable "sentiment" row = true.
Proof.
  unfold annotate.
  destruct (_bounded (dict_get "momentum_1d" row) _ _) eqn:Hm; [|done].
  destruct (_bounded (dict_get "volatility_proxy" row) _ _) eqn:Hv; [|done].
  destruct (_bounded (dict_get "sentiment" row) _ _) eqn:Hs; [|done].
  intros _. repeat split; eapply bounded_ok_readable; eassumption.
Qed.

Lemma annotate_err_type row e :
  annotate row = Err e -> exists msg, e = TypeError msg.
Proof.
  unfold annotate.
  destruct (_bounded (dict_get "momentum_1d" row) _ _) eqn:Hm;
    [|intros [= <-]; by eapply bounded_err_type].
  destruct (_bounded (dict_get "volatility_proxy" row) _ _) eqn:Hv;
    [|intros [= <-]; by eapply bounded_err_type].
  destruct (_bounded (dict_get "sentiment" row) _ _) eqn:Hs;
    [done|intros [= <-]; by eapply bounded_err_type].
Qed.

Lemma number_or_zero_err_type k r e :
  number_or_zero k r = Err e -> exists msg, e = TypeError msg.
Proof.
  unfold number_or_zero. destruct (as_number _); [done|]. intros [= <-]. eauto.
Qed.

Lemma with_key_err {K} (key : dict -> result K) r e :
  with_key key r = Err e -> key r = Err e.
Proof. unfold with_key. by destruct (key r); [|intros [= ->]]. Qed.

Lemma key_safest_err_type r e : key_safest r = Err e -> exists msg, e = TypeError msg.
Proof.
  unfold key_safest.
  destruct (number_or_zero "risk_score" r) eqn:H1;
    destruct (number_or_zero "signal_score" r) eqn:H2; try done;
    intros [= <-]; eauto using number_or_zero_err_type.
Qed.

Lemma key_riskiest_err_type r e : key_riskiest r = Err e -> exists msg, e = TypeError msg.
Proof.
  unfold key_riskiest.
  destruct (number_or_zero "risk_score" r) eqn:H1;
    destruct (number_or_zero "momentum_1d" r) eqn:H2; try done;
    intros [= <-]; eauto using number_or_zero_err_type.
Qed.

Lemma key_abs_score_err_type r e : key_abs_score r = Err e -> exists msg, e = TypeError msg.
Proof.
  unfold key_abs_score.
  destruct (number_or_zero "signal_score" r) eqn:H1; [done|].
  intros [= <-]. eauto using number_or_zero_err_type.
Qed.

(** The ranking of the riskiest rows takes [abs] of the momentum: it fails
    on a row whose [momentum_1d] is a key that holds [None]. *)
Lemma key_riskiest_needs_momentum row k :
  key_riskiest (annotated row) = Ok k -> dict_lookup "momentum_1d" row <> Some VNone.
Proof.
  unfold key_riskiest.
  destruct (number_or_zero "risk_score" (annotated row)); [|done].
  destruct (number_or_zero "momentum_1d" (annotated row)) as [m|] eqn:Hm; [|done].
  intros _ Hnone. unfold number_or_zero, dict_get_or in Hm.
  destruct (annotated_lookup row) as (_ & _ & _ & Hkeep).
  rewrite Hkeep in Hm by done. by rewrite Hnone in Hm.
Qed.

Lemma guidance_ok_scorable stock_rows fx_rows crypto_rows news_summary g :
  build_market_guidance stock_rows fx_rows crypto_rows news_summary = Ok g ->
  forall row, row ∈ stock_rows ++ fx_rows ++ crypto_rows -> scorable row = true.
Proof.
  unfold build_market_guidance.
  destruct (map_result annotate _) as [merged|] eqn:Hmerged; [|done].
  destruct (map_result (with_key key_safest) merged); [|done].
  destruct (map_result (with_key key_riskiest) merged) as [by_risk|] eqn:Hrisk; [|done].
  intros _ row Hin.
  apply map_result_ok in Hmerged, Hrisk.
  apply list_elem_of_lookup in Hin as [i Hi].
  destruct (Forall2_lookup_l _ _ _ _ _ Hmerged Hi) as (r & Hr & Hann).
  destruct (annotate_ok_readable row r Hann) as (Hm & Hv & Hs).
  rewrite (annotate_readable row Hm Hv Hs) in Hann. injection Hann as <-.
  destruct (Forall2_lookup_l _ _ _ _ _ Hrisk Hr) as (kr & _ & Hkey).
  unfold with_key in Hkey.
  destruct (key_riskiest (annotated row)) as [k|] eqn:Hk; [|done].
  apply key_riskiest_needs_momentum in Hk.
  unfold scorable. rewrite Hm, Hv, Hs. simpl.
  destruct (dict_lookup "momentum_1d" row) as [[]|]; done.
Qed.

Lemma guidance_err_type stock_rows fx_rows crypto_rows news_summary e :
  build_market_guidance stock_rows fx_rows crypto_rows news_summary = Err e ->
  exists msg, e = TypeError msg.
Proof.
  unfold build_market_guidance.
  destruct (map_result annotate _) as [merged|] eqn:H0.
  2:{ intros [= <-]. apply map_result_err in H0 as (row & _ & Hrow).
      by eapply annotate_err_type. }
  destruct (map_result (with_key key_safest) merged) eqn:H1.
  2:{ intros [= <-]. apply map_result_err in H1 as (r & _ & Hr%with_key_err).
      by eapply key_safest_err_type. }
  destruct (map_result (with_key key_riskiest) merged) eqn:H2.
  2:{ intros [= <-]. apply map_result_err in H2 as (r & _ & Hr%with_key_err).
      by eapply key_riskiest_err_type. }
  destruct (map_result (with_key (number_or_zero "signal_score")) merged) eqn:H3.
  2:{ intros [= <-]. apply map_result_err in H3 as (r & _ & Hr%with_key_err).
      by eapply number_or_zero_err_type. }
  destruct (map_result (with_key key_abs_score) merged) eqn:H4; [done|].
  intros [= <-]. apply map_result_err in H4 as (r & _ & Hr%with_key_err).
  by eapply key_abs_score_err_type.
Qed.

Lemma map_result_with_key {K} (default : K) (key : dict -> result K) (l : list dict) :
  (forall r, r ∈ l -> exists k, with_key key r = Ok (k, r)) ->
  map_result (with_key key) l = Ok ((fun r => (key_or default key r, r)) <$> l).
Proof.
  intros Hall. apply map_result_total. intros r Hr.
  destruct (Hall r Hr) as [k Hk]. rewrite Hk. unfold with_key in Hk. unfold key_or.
  destruct (key r); [|done]. by injection Hk as <-.
Qed.

(** The builder on scorable rows, every step spelled out. *)
Lemma guidance_explicit stock_rows fx_rows crypto_rows news_summary :
  let rows := stock_rows ++ fx_rows ++ crypto_rows in
  let merged := annotated <$> rows in
  let keyed {K} (default : K) (key : dict -> result K) :=
    (fun r => (key_or default key r, r)) <$> merged in
  (forall row, row ∈ rows -> scorable row = true) ->
  exists mood direction,
    build_market_guidance stock_rows fx_rows crypto_rows news_summary
    = Ok [("public_mood", VStr mood);
          ("expected_market_direction", VStr direction);
          ("signals", rows_value merged);
          ("safest_bets",
           rows_value (take 10 (sorted_by pair_lt (keyed (0, 0)%Q key_safest))));
          ("riskiest_bets",
           rows_value (take 10 (sorted_by (fun a b => pair_lt b a)
                                  (keyed (0, 0)%Q key_riskiest))));
          ("buy_candidates",
           rows_value (take 10 (List.filter (has_signal "buy")
                                  (sorted_by (fun a b => Qlt_bool b a)
                                     (keyed 0%Q (number_or_zero "signal_score"))))));
          ("sell_candidates",
           rows_value (take 10 (List.filter (has_signal "sell")
                                  (sorted_by Qlt_bool
                                     (keyed 0%Q (number_or_zero "signal_score"))))));
          ("hold_candidates",
           rows_value (take 10 (List.filter (has_signal "hold")
                                  (sorted_by Qlt_bool (keyed 0%Q key_abs_score)))));
          ("disclaimer", VStr disclaimer)].
Proof.
  intros rows merged keyed Hall. unfold build_market_guidance. fold rows.
  rewrite (map_result_total annotate annotated rows).
  2:{ intros row Hin. destruct (scorable_readable row (Hall row Hin)) as (?&?&?&_).
      by apply annotate_readable. }
  fold merged.
  assert (Hkeys : forall r, r ∈ merged ->
            exists row, r = annotated row /\ scorable row = true).
  { intros r (row & -> & Hin)%list_elem_of_fmap. eauto. }
  rewrite (map_result_with_key (0, 0)%Q key_safest merged).
  2:{ intros r (row & -> & Hrow)%Hkeys. apply (ranking_keys_scorable row Hrow). }
  rewrite (map_result_with_key (0, 0)%Q key_riskiest merged).
  2:{ intros r (row & -> & Hrow)%Hkeys. apply (ranking_keys_scorable row Hrow). }
  rewrite (map_result_with_key 0%Q (number_or_zero "signal_score") merged).
  2:{ intros r (row & -> & Hrow)%Hkeys. apply (ranking_keys_scorable row Hrow). }
  rewrite (map_result_with_key 0%Q key_abs_score merged).
  2:{ intros r (row & -> & Hrow)%Hkeys. apply (ranking_keys_scorable row Hrow). }
  eexists _, _. reflexivity.
Qed.

(** The builder returns exactly on scorable rows; every exception it raises
    is a [TypeError]; and one row whose [momentum_1d] is [None] (a series
    with fewer than two closes) is enough to make it raise. *)
Theorem guidance_returns_iff_scorable (stock_rows fx_rows crypto_rows : list dict)
    (news_summary : dict) :
  let rows := stock_rows ++ fx_rows ++ crypto_rows in
  let run := build_market_guidance stock_rows fx_rows crypto_rows news_summary in
  ((exists g, run = Ok g) <-> forallb scorable rows = true)
  /\ (forall e, run = Err e -> exists msg, e = TypeError msg)
  /\ (forall row, row ∈ rows -> dict_lookup "momentum_1d" row = Some VNone ->
        exists msg, run = Err (TypeError msg)).
Proof.
  intros rows run.
  assert (Hiff : (exists g, run = Ok g) <-> forallb scorable rows = true).
  { split.
    - intros [g Hg]. apply forallb_forall. intros row Hin%list_elem_of_In.
      by eapply guidance_ok_scorable.
    - intros Hrows.
      destruct (guidance_explicit stock_rows fx_rows crypto_rows news_summary)
        as (mood & direction & Hrun); [|by eexists].
      intros row Hin. rewrite forallb_forall in Hrows. apply Hrows.
      by apply list_elem_of_In. }
  split; [done|]. split; [apply guidance_err_type|].
  intros row Hin Hnone. destruct run as [g|e] eqn:Hrun.
  - assert (Hs : scorable row = true).
    { destruct Hiff as [Hiff _]. specialize (Hiff ltac:(by eexists)).
      rewrite forallb_forall in Hiff. apply Hiff. by apply list_elem_of_In. }
    unfold scorable in Hs. rewrite Hnone in Hs.
    by rewrite andb_false_r in Hs.
  - destruct (guidance_err_type _ _ _ _ _ Hrun) as [msg ->]. by exists msg.
Qed.

End GuidanceProps.

(** ** The rankings of the guidance *)

Module RankingProps.
Import Analytics AnalyticsProps Ranking SortProps GuidanceProps.
Local Open Scope list_scope.











Section Rankings.
Context (rows : list dict).
Hypothesis rows_scorable : forall row, row ∈ rows -> scorable row = true.







End Rankings.



End RankingProps.

(** ** Mood and direction *)

Module MoodProps.
Import Analytics AnalyticsProps Report.
Local Open Scope list_scope.

Lemma guidance_mood_fields stock_rows fx_rows crypto_rows news_summary g :
  build_market_guidance stock_rows fx_rows crypto_rows news_summary = Ok g ->
  let news_avg := as_number (dict_get "overall_average_sentiment" news_summary) in
  dict_lookup "public_mood" g
  = Some (VStr match news_avg with
               | Some avg => if Qlt_bool 0.15 avg then "bullish"
                             else if Qlt_bool avg (-0.15) then "bearish" else "neutral"
               | None => "neutral"
               end)
  /\ dict_lookup "expected_market_direction" g
     = Some (VStr match news_avg with
                  | Some avg => if Qlt_bool 0.2 avg then "upside bias"
                                else if Qlt_bool avg (-0.2) then "downside bias"
                                else "range-bound"
                  | None => "range-bound"
                  end).
Proof.
  unfold build_market_guidance.
  destruct (map_result annotate _) as [merged|]; [|done].
  destruct (map_result (with_key key_safest) merged); [|done].
  destruct (map_result (with_key key_riskiest) merged); [|done].
  destruct (map_result (with_key (number_or_zero "signal_score")) merged); [|done].
  destruct (map_result (with_key key_abs_score) merged); [|done].
  intros [= <-]. split; reflexivity.
Qed.

(** The mood and the direction the guidance reports, and the mood of the
    asset report, all read the same average: the guidance never reports a
    bias without the matching mood, a direction away from range-bound needs
    an average beyond 0.2 in size, the two moods agree (bullish with
    positive, bearish with negative), and an average that is no number
    gives neutral, range-bound and mixed. *)
Theorem mood_and_direction (stock_rows fx_rows crypto_rows : list dict)
    (news_summary g : dict) (utcnow_iso : string) (market : value) :
  build_market_guidance stock_rows fx_rows crypto_rows news_summary = Ok g ->
  let news_avg := dict_get "overall_average_sentiment" news_summary in
  exists mood direction report report_mood,
    dict_lookup "public_mood" g = Some (VStr mood)
    /\ dict_lookup "expected_market_direction" g = Some (VStr direction)
    /\ build_report utcnow_iso [("market", market); ("news", VDict news_summary)]
       = Ok report
    /\ dict_lookup "sentiment_mood" report = Some (VStr report_mood)
    /\ dict_lookup "sentiment_score" report = Some news_avg
    /\ (direction = "upside bias" -> mood = "bullish")
    /\ (direction = "downside bias" -> mood = "bearish")
    /\ (mood = "neutral" -> direction = "range-bound")
    /\ (mood = "bullish" <-> report_mood = "positive")
    /\ (mood = "bearish" <-> report_mood = "negative")
    /\ (forall avg, as_number news_avg = Some avg ->
          (mood = "bullish" <-> (0.15 < avg)%Q)
          /\ (mood = "bearish" <-> (avg < -0.15)%Q)
          /\ (direction = "upside bias" <-> (0.2 < avg)%Q)
          /\ (direction = "downside bias" <-> (avg < -0.2)%Q))
    /\ (as_number news_avg = None ->
          mood = "neutral" /\ direction = "range-bound" /\ report_mood = "mixed").
Proof.
  intros Hrun news_avg.
  destruct (guidance_mood_fields _ _ _ _ _ Hrun) as [Hmood Hdir].
  fold news_avg in Hmood, Hdir.
  eexists _, _, _, _. split; [exact Hmood|]. split; [exact Hdir|].
  unfold build_report. cbn [dict_get_or dict_lookup String.eqb Ascii.eqb Bool.eqb].
  cbn [Orchestrator.obj_get_or]. fold (dict_get "overall_average_sentiment" news_summary).
  fold news_avg. split; [reflexivity|]. split; [reflexivity|]. split; [reflexivity|].
  destruct (as_number news_avg) as [avg|].
  - pose proof (Qlt_bool_iff 0.15 avg) as H1. pose proof (Qlt_bool_iff avg (-0.15)) as H2.
    pose proof (Qlt_bool_iff 0.2 avg) as H3. pose proof (Qlt_bool_iff avg (-0.2)) as H4.
    change 0.15%Q with (15 # 100) in *. change (-0.15)%Q with (-15 # 100) in *.
    change 0.2%Q with (2 # 10) in *. change (-0.2)%Q with (-2 # 10) in *.
    assert (Hexcl : forall b : bool, (b = true <-> False) -> b = false)
      by (intros [] ?; tauto).
    destruct (Qlt_bool (15 # 100) avg) eqn:E1; destruct (Qlt_bool avg (-15 # 100)) eqn:E2;
      destruct (Qlt_bool (2 # 10) avg) eqn:E3; destruct (Qlt_bool avg (-2 # 10)) eqn:E4;
      try (exfalso;
           repeat match goal with
                  | H : true = true <-> _ |- _ => apply proj1 in H; specialize (H eq_refl)
                  | H : false = true <-> _ |- _ =>
                      apply proj2 in H;
                      assert (~ _) by (let X := fresh in intros X; specialize (H X); done);
                      clear H
                  end; lra);
      (repeat match goal with |- _ /\ _ => split end);
      try done;
      try (intros avg' [= <-];
           repeat match goal with |- _ /\ _ => split end;
           split; intros; try done; try tauto;
           repeat match goal with
                  | H : true = true <-> _ |- _ => apply proj1 in H; specialize (H eq_refl)
                  | H : false = true <-> _ |- _ =>
                      apply proj2 in H;
                      assert (~ _) by (let X := fresh in intros X; specialize (H X); done);
                      clear H
                  end; try lra; try (exfalso; lra)).
  - repeat match goal with |- _ /\ _ => split end; try done.
Qed.

(** An average of 0.18: the mood is bullish, the direction still range-bound. *)
Lemma mood_and_direction_witness :
  exists g mood direction,
    build_market_guidance [] [] [] [("overall_average_sentiment", VNum 0.18)] = Ok g
    /\ dict_lookup "public_mood" g = Some (VStr mood)
    /\ dict_lookup "expected_market_direction" g = Some (VStr direction)
    /\ (direction = "upside bias" -> mood = "bullish")
    /\ mood = "bullish" /\ direction = "range-bound".
Proof.
  destruct (build_market_guidance [] [] [] [("overall_average_sentiment", VNum 0.18)])
    as [g|] eqn:Hrun; [|by vm_compute in Hrun].
  destruct (mood_and_direction [] [] [] [("overall_average_sentiment", VNum 0.18)] g
              "2024-01-01T00:00:00" (VDict []) Hrun)
    as (mood & direction & report & report_mood & Hmood & Hdir & _ & _ & _ & Hup & _).
  exists g, mood, direction. split; [done|]. split; [exact Hmood|]. split; [exact Hdir|].
  split; [exact Hup|].
  vm_compute in Hrun. injection Hrun as <-.
  vm_compute in Hmood, Hdir. injection Hmood as <-. injection Hdir as <-. done.
Defined.

End MoodProps.

(** ** One refresh, step by step *)

Module RefreshProps.
Import Analytics AnalyticsProps Orchestrator OrchestratorProps Overview GuidanceProps.
Local Open Scope list_scope.

Lemma bind_ok_inv {S A B} (m : M S A) (k : A -> M S B) s b s' :
  bind m k s = (Ok b, s') -> exists a s1, m s = (Ok a, s1) /\ k a s1 = (Ok b, s').
Proof.
  unfold bind. destruct (m s) as [[a|e] s1]; [|done]. intros H. by exists a, s1.
Qed.

Lemma bind_err_inv {S A B} (m : M S A) (k : A -> M S B) s e s' :
  bind m k s = (Err e, s') ->
  m s = (Err e, s') \/ exists a s1, m s = (Ok a, s1) /\ k a s1 = (Err e, s').
Proof.
  unfold bind. destruct (m s) as [[a|e'] s1]; [|intros [= -> ->]; by left].
  intros H. right. by exists a, s1.
Qed.

Lemma lift_inv {S A} (r : result A) (s : S) r' s' :
  lift r s = (r', s') -> r = r' /\ s' = s.
Proof. by intros [= -> ->]. Qed.

Lemma advanced_refl track total fr : advanced track total 0 fr fr.
Proof.
  unfold advanced, same_but_status. destruct track; rewrite ?Nat.add_0_r; tauto.
Qed.

Lemma advanced_trans track total n1 n2 fr1 fr2 fr3 :
  advanced track total n1 fr1 fr2 -> advanced track total n2 fr2 fr3 ->
  advanced track total (n1 + n2) fr1 fr3.
Proof.
  intros ((Hs1 & Hc1 & Hx1 & Hsn1) & Hn1 & Hk1 & Hf1 & Hy1)
         ((Hs2 & Hc2 & Hx2 & Hsn2) & Hn2 & Hk2 & Hf2 & Hy2).
  split; [|split; [|split; [|split]]].
  - unfold same_but_status. by rewrite Hs2, Hc2, Hx2, Hsn2.
  - rewrite Hn2, Hn1. destruct track; lia.
  - intros k Hk. by rewrite Hk2, Hk1.
  - intros Ht. by rewrite Hf2, Hf1.
  - auto.
Qed.

(** [mark_step] never raises; it counts one step and shows the count in the
    status record. *)
Lemma mark_step_advanced total label fr :
  exists fr', mark_step true total label fr = (Ok tt, fr')
              /\ advanced true total 1 fr fr'.
Proof.
  unfold mark_step.
  eexists. split; [reflexivity|].
  unfold advanced, same_but_status, synced, status_field.
  cbn [self completed_steps on_self _set_refresh_status bind ret fst snd
       set_status stocks cryptos fx_pairs _snapshot _refresh_status].
  unfold dict_merge. cbn [fold_left fst snd].
  split; [done|]. split; [done|]. split; [|split; [done|]].
  - intros k Hk. unfold progress_keys in Hk.
    repeat (apply not_elem_of_cons in Hk as [? Hk]).
    by rewrite !dict_lookup_set_ne by done.
  - intros _ _. split.
    + rewrite !dict_lookup_set_ne by done. apply dict_lookup_set_eq.
    + rewrite !dict_lookup_set_ne by done. apply dict_lookup_set_eq.
Qed.

Lemma fetch_loop_spec {X} (fetch : X -> result dict) failure step_label track total
    (symbols : list X) : forall rows errors fr,
  exists fr',
    fetch_loop fetch failure step_label (progress_cb_of track total) symbols rows errors fr
    = (Ok (rows ++ fetched fetch symbols, errors ++ failed fetch failure symbols), fr')
    /\ advanced track total (length symbols) fr fr'.
Proof.
  induction symbols as [|x symbols IH]; intros rows errors fr.
  - exists fr. split; [|apply advanced_refl].
    cbn [fetch_loop fetched failed omap list_omap]. unfold ret. by rewrite !app_nil_r.
  - cbn [fetch_loop].
    assert (Hcb : exists fr1,
              match progress_cb_of track total with
              | Some cb => cb (step_label x)
              | None => ret tt
              end fr = (Ok tt, fr1)
              /\ advanced track total 1 fr fr1).
    { unfold progress_cb_of. destruct track.
      - apply mark_step_advanced.
      - exists fr. split; [done|]. unfold advanced, same_but_status.
        rewrite Nat.add_0_r. done. }
    destruct Hcb as (fr1 & Hcb & Hadv1).
    destruct (fetch x) as [row|exc] eqn:Hfetch.
    + destruct (IH (rows ++ [row]) errors fr1) as (fr' & Hrun & Hadv).
      exists fr'. split; [|by apply (advanced_trans _ _ 1 _ _ _ _ Hadv1)].
      unfold bind at 1. rewrite Hcb, Hrun.
      unfold fetched, failed. cbn [omap list_omap]. rewrite Hfetch.
      by rewrite <- app_assoc.
    + destruct (IH rows (errors ++ [failure x exc]) fr1) as (fr' & Hrun & Hadv).
      exists fr'. split; [|by apply (advanced_trans _ _ 1 _ _ _ _ Hadv1)].
      unfold bind at 1. rewrite Hcb, Hrun.
      unfold fetched, failed. cbn [omap list_omap]. rewrite Hfetch.
      by rewrite <- app_assoc.
Qed.

Lemma fetch_stock_rows_spec E track total fr :
  exists fr',
    _fetch_stock_rows E (progress_cb_of track total) fr
    = (Ok (fetched (stock_row E) (stocks (self fr)),
           failed (stock_row E) (failure_record E "stock") (stocks (self fr))), fr')
    /\ advanced track total (length (stocks (self fr))) fr fr'.
Proof.
  destruct (fetch_loop_spec (stock_row E) (failure_record E "stock")
              (fun symbol => "Fetched stock " ++ symbol)%string track total
              (stocks (self fr)) [] [] fr) as (fr' & Hrun & Hadv).
  exists fr'. split; [exact Hrun|exact Hadv].
Qed.

Lemma fetch_fx_rows_spec E track total fr :
  exists fr',
    _fetch_fx_rows E (progress_cb_of track total) fr
    = (Ok (fetched (fx_row E) (fx_pairs (self fr)),
           failed (fx_row E) (fun p => failure_record E "fx" (pair_name p))
             (fx_pairs (self fr))), fr')
    /\ advanced track total (length (fx_pairs (self fr))) fr fr'.
Proof.
  destruct (fetch_loop_spec (fx_row E) (fun p => failure_record E "fx" (pair_name p))
              (fun p => "Fetched FX " ++ pair_name p)%string track total
              (fx_pairs (self fr)) [] [] fr) as (fr' & Hrun & Hadv).
  exists fr'. split; [exact Hrun|exact Hadv].
Qed.

Lemma fetch_crypto_rows_spec E track total fr :
  exists fr',
    _fetch_crypto_rows E (progress_cb_of track total) fr
    = (Ok (fetched (crypto_row E) (cryptos (self fr)),
           failed (crypto_row E) (failure_record E "crypto") (cryptos (self fr))), fr')
    /\ advanced track total (length (cryptos (self fr))) fr fr'.
Proof.
  destruct (fetch_loop_spec (crypto_row E) (failure_record E "crypto")
              (fun symbol => "Fetched crypto " ++ symbol)%string track total
              (cryptos (self fr)) [] [] fr) as (fr' & Hrun & Hadv).
  exists fr'. split; [exact Hrun|exact Hadv].
Qed.

Lemma fetched_failed_length {X} (fetch : X -> result dict) failure (symbols : list X) :
  length (fetched fetch symbols) + length (failed fetch failure symbols) = length symbols.
Proof.
  unfold fetched, failed. induction symbols as [|x symbols IH]; [done|].
  cbn [omap list_omap]. destruct (fetch x); simpl in *; lia.
Qed.

Lemma failed_elem {X} (fetch : X -> result dict) failure (symbols : list X) x exc :
  x ∈ symbols -> fetch x = Err exc -> failure x exc ∈ failed fetch failure symbols.
Proof.
  intros Hin Hx. unfold failed. apply list_elem_of_omap. exists x. by rewrite Hx.
Qed.

Lemma fetched_elem {X} (fetch : X -> result dict) (symbols : list X) row :
  row ∈ fetched fetch symbols <-> exists x, x ∈ symbols /\ fetch x = Ok row.
Proof.
  unfold fetched. rewrite list_elem_of_omap. split; intros (x & Hin & Hx); exists x.
  - destruct (fetch x); [|done]. by injection Hx as ->.
  - by rewrite Hx.
Qed.

Lemma rejected_raises E raw :
  rejected raw = true -> _raise_if_av_error E raw = Err (RuntimeError (py_str E raw)).
Proof. unfold rejected, _raise_if_av_error. destruct raw; try done. by intros ->. Qed.

(** The three fetch loops never raise: every symbol of the watchlist gives
    one row or one error record, in watchlist order; an exception of the
    client, a rejection by the upstream and an exception of the summariser
    all end in an error record for that symbol; the loops change nothing in
    the service but the progress shown in the status record, one step per
    symbol. *)
Theorem fetch_rows_total (E : env) (track_progress : bool) (total_steps : nat)
    (fr : frame) :
  let cb := progress_cb_of track_progress total_steps in
  let svc := self fr in
  (exists fr',
     _fetch_stock_rows E cb fr
     = (Ok (fetched (stock_row E) (stocks svc),
            failed (stock_row E) (failure_record E "stock") (stocks svc)), fr')
     /\ advanced track_progress total_steps (length (stocks svc)) fr fr')
  /\ (exists fr',
        _fetch_fx_rows E cb fr
        = (Ok (fetched (fx_row E) (fx_pairs svc),
               failed (fx_row E) (fun p => failure_record E "fx" (pair_name p))
                 (fx_pairs svc)), fr')
        /\ advanced track_progress total_steps (length (fx_pairs svc)) fr fr')
  /\ (exists fr',
        _fetch_crypto_rows E cb fr
        = (Ok (fetched (crypto_row E) (cryptos svc),
               failed (crypto_row E) (failure_record E "crypto") (cryptos svc)), fr')
        /\ advanced track_progress total_steps (length (cryptos svc)) fr fr')
  /\ length (stock_rows_of E svc) + length (fx_rows_of E svc)
     + length (crypto_rows_of E svc) + length (errors_of E svc) + 1
     = _total_steps svc
  /\ (forall symbol raw,
        symbol ∈ stocks svc -> time_series_daily E symbol = Ok raw ->
        rejected raw = true ->
        [("asset_class", VStr "stock"); ("symbol", VStr symbol);
         ("error", VStr (py_str E raw))]
        ∈ failed (stock_row E) (failure_record E "stock") (stocks svc))
  /\ (forall symbol exc,
        symbol ∈ stocks svc -> time_series_daily E symbol = Err exc ->
        [("asset_class", VStr "stock"); ("symbol", VStr symbol);
         ("error", VStr (exc_str E exc))]
        ∈ failed (stock_row E) (failure_record E "stock") (stocks svc))
  /\ (forall row, row ∈ stock_rows_of E svc ->
        exists symbol, symbol ∈ stocks svc
                       /\ dict_lookup "symbol" row = Some (VStr symbol)
                       /\ dict_lookup "asset_class" row = Some (VStr "stock")).
Proof.
  intros cb svc.
  split. { apply fetch_stock_rows_spec. }
  split. { apply fetch_fx_rows_spec. }
  split. { apply fetch_crypto_rows_spec. }
  split.
  { unfold stock_rows_of, fx_rows_of, crypto_rows_of, errors_of, _total_steps.
    rewrite !length_app.
    pose proof (fetched_failed_length (stock_row E) (failure_record E "stock")
                  (stocks svc)).
    pose proof (fetched_failed_length (fx_row E)
                  (fun p => failure_record E "fx" (pair_name p)) (fx_pairs svc)).
    pose proof (fetched_failed_length (crypto_row E) (failure_record E "crypto")
                  (cryptos svc)).
    lia. }
  split.
  { intros symbol raw Hin Hraw Hrej.
    apply (failed_elem (stock_row E) (failure_record E "stock") _ symbol
             (RuntimeError (py_str E raw)) Hin).
    unfold stock_row. rewrite Hraw. cbn [rbind]. by rewrite rejected_raises. }
  split.
  { intros symbol exc Hin Hraw.
    apply (failed_elem (stock_row E) (failure_record E "stock") _ symbol exc Hin).
    unfold stock_row. by rewrite Hraw. }
  intros row (symbol & Hin & Hrow)%fetched_elem. exists symbol. split; [done|].
  unfold stock_row, rbind in Hrow.
  destruct (time_series_daily E symbol); [|done].
  destruct (_raise_if_av_error E _); [|done].
  destruct (summarize_timeseries_daily E _); [|done].
  destruct (_latest_close _); [|done].
  by injection Hrow as <-.
Qed.

End RefreshProps.

(** ** What a refresh collects *)

Module CollectProps.
Import Analytics AnalyticsProps Orchestrator OrchestratorProps Overview GuidanceProps
  RefreshProps.
Local Open Scope list_scope.

Lemma advanced_untracked total n m fr fr' :
  advanced false total n fr fr' -> advanced false total m fr fr'.
Proof. done. Qed.

Lemma advanced_lists track total n fr fr' :
  advanced track total n fr fr' ->
  stocks (self fr') = stocks (self fr) /\ fx_pairs (self fr') = fx_pairs (self fr)
  /\ cryptos (self fr') = cryptos (self fr).
Proof. intros ((? & ? & ? & ?) & _). done. Qed.

(** The three loops of [collect_snapshot], one after the other. *)
Lemma fetch_all_spec E track total fr :
  exists fr1 fr2 fr3,
    _fetch_stock_rows E (progress_cb_of track total) fr
    = (Ok (stock_rows_of E (self fr),
           failed (stock_row E) (failure_record E "stock") (stocks (self fr))), fr1)
    /\ _fetch_fx_rows E (progress_cb_of track total) fr1
       = (Ok (fx_rows_of E (self fr),
              failed (fx_row E) (fun p => failure_record E "fx" (pair_name p))
                (fx_pairs (self fr))), fr2)
    /\ _fetch_crypto_rows E (progress_cb_of track total) fr2
       = (Ok (crypto_rows_of E (self fr),
              failed (crypto_row E) (failure_record E "crypto") (cryptos (self fr))), fr3)
    /\ advanced track total
         (length (stocks (self fr)) + length (fx_pairs (self fr))
          + length (cryptos (self fr))) fr fr3.
Proof.
  destruct (fetch_stock_rows_spec E track total fr) as (fr1 & H1 & A1).
  destruct (fetch_fx_rows_spec E track total fr1) as (fr2 & H2 & A2).
  destruct (fetch_crypto_rows_spec E track total fr2) as (fr3 & H3 & A3).
  destruct (advanced_lists _ _ _ _ _ A1) as (Hs1 & Hf1 & Hc1).
  destruct (advanced_lists _ _ _ _ _ A2) as (Hs2 & Hf2 & Hc2).
  rewrite Hf1 in H2, A2. rewrite Hc2, Hc1 in H3, A3.
  exists fr1, fr2, fr3. split; [exact H1|]. split; [exact H2|]. split; [exact H3|].
  exact (advanced_trans _ _ _ _ _ _ _ (advanced_trans _ _ _ _ _ _ _ A1 A2) A3).
Qed.

(** A completed [collect_snapshot], read backwards. *)
Lemma collect_ok E reason track total fr snap fr' :
  collect_snapshot E reason track total fr = (Ok snap, fr') ->
  exists news_raw news_summary srows frows crows guidance,
    news_sentiment E = Ok news_raw
    /\ _raise_if_av_error E news_raw = Ok tt
    /\ aggregate_news_sentiment E news_raw = Ok news_summary
    /\ map_result (with_sentiment (sentiment_map_of news_summary))
         (stock_rows_of E (self fr)) = Ok srows
    /\ map_result (with_sentiment (sentiment_map_of news_summary))
         (crypto_rows_of E (self fr)) = Ok crows
    /\ map_result (with_sentiment (sentiment_map_of news_summary))
         (fx_rows_of E (self fr)) = Ok frows
    /\ build_market_guidance srows frows crows news_summary = Ok guidance
    /\ snap = make_snapshot E reason srows frows crows news_summary guidance
                (errors_of E (self fr))
    /\ advanced track total (_total_steps (self fr)) fr fr'.
Proof.
  intros H. unfold collect_snapshot in H. cbv zeta in H.
  destruct (fetch_all_spec E track total fr) as (fr1 & fr2 & fr3 & H1 & H2 & H3 & A).
  unfold progress_cb_of in H1, H2, H3.
  apply bind_ok_inv in H as (x1 & s1 & Hx & H). rewrite H1 in Hx. injection Hx as <- <-.
  cbv beta iota in H.
  apply bind_ok_inv in H as (x2 & s2 & Hx & H). rewrite H2 in Hx. injection Hx as <- <-.
  cbv beta iota in H.
  apply bind_ok_inv in H as (x3 & s3 & Hx & H). rewrite H3 in Hx. injection Hx as <- <-.
  cbv beta iota in H.
  apply bind_ok_inv in H as (news_raw & s & Hnews & H). apply lift_inv in Hnews as [Hnews ->].
  apply bind_ok_inv in H as ([] & s & Hrej & H). apply lift_inv in Hrej as [Hrej ->].
  apply bind_ok_inv in H as (news_summary & s & Hagg & H).
  apply lift_inv in Hagg as [Hagg ->].
  apply bind_ok_inv in H as ([] & fr4 & Hmark & H).
  assert (A4 : advanced track total (_total_steps (self fr)) fr fr4).
  { destruct track.
    - destruct (mark_step_advanced total "Fetched market news sentiment" fr3)
        as (fr4' & Hm & A4).
      rewrite Hm in Hmark. injection Hmark as <-.
      exact (advanced_trans _ _ _ _ _ _ _ A A4).
    - injection Hmark as <-. by apply (advanced_untracked total _ _ _ _ A). }
  apply bind_ok_inv in H as (srows & s & Hs & H). apply lift_inv in Hs as [Hs ->].
  apply bind_ok_inv in H as (crows & s & Hc & H). apply lift_inv in Hc as [Hc ->].
  apply bind_ok_inv in H as (frows & s & Hf & H). apply lift_inv in Hf as [Hf ->].
  apply bind_ok_inv in H as (guidance & s & Hg & H). apply lift_inv in Hg as [Hg ->].
  injection H as <- <-.
  exists news_raw, news_summary, srows, frows, crows, guidance.
  repeat (split; [done|]). done.
Qed.

(** A failed [collect_snapshot]: the loops went through, so all symbols
    count as done, and the news step may or may not. *)
Lemma collect_err E reason track total fr e fr' :
  collect_snapshot E reason track total fr = (Err e, fr') ->
  exists n, advanced track total n fr fr'
            /\ (n + 1 = _total_steps (self fr) \/ n = _total_steps (self fr)).
Proof.
  intros H. unfold collect_snapshot in H. cbv zeta in H.
  destruct (fetch_all_spec E track total fr) as (fr1 & fr2 & fr3 & H1 & H2 & H3 & A).
  unfold progress_cb_of in H1, H2, H3.
  apply bind_err_inv in H as [Hx|(x1 & s1 & Hx & H)]; [by rewrite H1 in Hx|].
  rewrite H1 in Hx. injection Hx as <- <-. cbv beta iota in H.
  apply bind_err_inv in H as [Hx|(x2 & s2 & Hx & H)]; [by rewrite H2 in Hx|].
  rewrite H2 in Hx. injection Hx as <- <-. cbv beta iota in H.
  apply bind_err_inv in H as [Hx|(x3 & s3 & Hx & H)]; [by rewrite H3 in Hx|].
  rewrite H3 in Hx. injection Hx as <- <-. cbv beta iota in H.
  assert (Hearly : exists n, advanced track total n fr fr3
            /\ (n + 1 = _total_steps (self fr) \/ n = _total_steps (self fr))).
  { eexists. split; [exact A|]. left. unfold _total_steps. lia. }
  apply bind_err_inv in H as [Hx|(news_raw & s & Hx & H)];
    [by apply lift_inv in Hx as [_ ->]|]. apply lift_inv in Hx as [_ ->].
  apply bind_err_inv in H as [Hx|([] & s & Hx & H)];
    [by apply lift_inv in Hx as [_ ->]|]. apply lift_inv in Hx as [_ ->].
  apply bind_err_inv in H as [Hx|(news_summary & s & Hx & H)];
    [by apply lift_inv in Hx as [_ ->]|]. apply lift_inv in Hx as [_ ->].
  assert (Hlate : forall fr4,
            (if track then mark_step track total "Fetched market news sentiment"
             else ret tt) fr3 = (Ok tt, fr4) ->
            exists n, advanced track total n fr fr4
              /\ (n + 1 = _total_steps (self fr) \/ n = _total_steps (self fr))).
  { intros fr4 Hmark. destruct track.
    - destruct (mark_step_advanced total "Fetched market news sentiment" fr3)
        as (fr4' & Hm & A4).
      rewrite Hm in Hmark. injection Hmark as <-.
      eexists. split; [exact (advanced_trans _ _ _ _ _ _ _ A A4)|].
      right. unfold _total_steps. lia.
    - injection Hmark as <-. exact Hearly. }
  apply bind_err_inv in H as [Hx|([] & fr4 & Hmark & H)].
  { destruct track; [|done].
    destruct (mark_step_advanced total "Fetched market news sentiment" fr3)
      as (fr4' & Hm & _). by rewrite Hm in Hx. }
  specialize (Hlate fr4 Hmark).
  apply bind_err_inv in H as [Hx|(srows & s & Hx & H)];
    [by apply lift_inv in Hx as [_ ->]|]. apply lift_inv in Hx as [_ ->].
  apply bind_err_inv in H as [Hx|(crows & s & Hx & H)];
    [by apply lift_inv in Hx as [_ ->]|]. apply lift_inv in Hx as [_ ->].
  apply bind_err_inv in H as [Hx|(frows & s & Hx & H)];
    [by apply lift_inv in Hx as [_ ->]|]. apply lift_inv in Hx as [_ ->].
  apply bind_err_inv in H as [Hx|(guidance & s & Hx & H)];
    [by apply lift_inv in Hx as [_ ->]|]. apply lift_inv in Hx as [_ ->].
  done.
Qed.

End CollectProps.

(** ** The snapshot and the status record of one refresh *)

Module SnapshotProps.
Import Analytics AnalyticsProps Orchestrator OrchestratorProps Overview GuidanceProps
  RefreshProps CollectProps.
Local Open Scope list_scope.

(** The statements of [refresh_once] before the [try]. *)
Lemma refresh_begin_spec E reason track svc :
  exists fr1,
    refresh_begin E reason track (_total_steps svc) {| self := svc; completed_steps := 0 |}
    = (Ok tt, fr1)
    /\ same_but_status svc (self fr1)
    /\ completed_steps fr1 = 0
    /\ status_field "latest_generated_at" (self fr1) = status_field "latest_generated_at" svc
    /\ (track = false -> _refresh_status (self fr1) = _refresh_status svc)
    /\ (track = true ->
        synced (_total_steps svc) fr1
        /\ status_field "state" (self fr1) = Some (VStr "running")
        /\ status_field "reason" (self fr1) = Some (VStr reason)
        /\ status_field "started_at" (self fr1) = Some (VStr (started_now E))).
Proof.
  unfold refresh_begin. destruct track.
  - eexists. split; [reflexivity|].
    cbn [on_self bind ret _set_refresh_status self completed_steps fst snd].
    unfold synced, status_field. cbn [self _refresh_status set_status completed_steps].
    unfold dict_merge. cbn [fold_left fst snd].
    split; [done|]. split; [done|].
    split; [by rewrite !dict_lookup_set_ne by done|]. split; [done|].
    intros _.
    repeat split;
      repeat first [rewrite dict_lookup_set_eq | rewrite dict_lookup_set_ne by done];
      done.
  - eexists. split; [reflexivity|]. cbn [self completed_steps].
    split; [done|]. split; [done|]. split; [done|]. split; [done|]. done.
Qed.

Lemma refresh_once_unfold E reason track svc fr1 :
  refresh_begin E reason track (_total_steps svc) {| self := svc; completed_steps := 0 |}
  = (Ok tt, fr1) ->
  refresh_once E reason track svc
  = ((refresh_rest E reason track (_total_steps svc) fr1).1,
     self (refresh_rest E reason track (_total_steps svc) fr1).2).
Proof.
  intros Hbegin. unfold refresh_once, in_frame, bind. rewrite Hbegin.
  by destruct (refresh_rest E reason track (_total_steps svc) fr1).
Qed.

Lemma refresh_except_raises E track e fr :
  exists fr', refresh_except E track e fr = (Err e, fr').
Proof. unfold refresh_except. destruct track; by eexists. Qed.

(** A completed refresh, read backwards: the frame after the first
    statements, after the collection, and after the publication. *)
Lemma refresh_ok E reason track svc snapshot svc' :
  refresh_once E reason track svc = (Ok snapshot, svc') ->
  exists fr1 fr2 fr3,
    refresh_begin E reason track (_total_steps svc) {| self := svc; completed_steps := 0 |}
    = (Ok tt, fr1)
    /\ collect_snapshot E reason track (_total_steps svc) fr1 = (Ok snapshot, fr2)
    /\ publish_snapshot E track (_total_steps svc) snapshot fr2 = (Ok snapshot, fr3)
    /\ svc' = self fr3.
Proof.
  intros Hrun.
  destruct (refresh_begin_spec E reason track svc) as (fr1 & Hbegin & _).
  rewrite (refresh_once_unfold _ _ _ _ _ Hbegin) in Hrun.
  unfold refresh_rest, try_except in Hrun.
  destruct (refresh_try E reason track (_total_steps svc) fr1) as [[snap|e] fr3] eqn:Htry.
  - cbn [fst snd] in Hrun. injection Hrun as -> <-.
    unfold refresh_try in Htry.
    apply bind_ok_inv in Htry as (snap0 & fr2 & Hcollect & Hpublish).
    assert (snap0 = snapshot) as ->.
    { revert Hpublish. unfold publish_snapshot.
      intros H.
      apply bind_ok_inv in H as (? & ? & _ & H).
      apply bind_ok_inv in H as (? & ? & _ & H).
      apply bind_ok_inv in H as (? & ? & _ & H).
      by injection H as ->. }
    by exists fr1, fr2, fr3.
  - destruct (refresh_except_raises E track e fr3) as [fr' Hexc].
    rewrite Hexc in Hrun. done.
Qed.

Lemma same_rows E svc svc' :
  same_but_status svc svc' ->
  stock_rows_of E svc' = stock_rows_of E svc /\ fx_rows_of E svc' = fx_rows_of E svc
  /\ crypto_rows_of E svc' = crypto_rows_of E svc /\ errors_of E svc' = errors_of E svc
  /\ _total_steps svc' = _total_steps svc.
Proof.
  intros (Hs & Hc & Hf & _).
  unfold stock_rows_of, fx_rows_of, crypto_rows_of, errors_of, _total_steps.
  by rewrite Hs, Hc, Hf.
Qed.

Lemma with_sentiment_adds smap row row' :
  with_sentiment smap row = Ok row' ->
  exists v, row' = dict_set "sentiment" v row.
Proof.
  unfold with_sentiment. destruct (dict_lookup "symbol" row) as [symbol|]; [|done].
  destruct smap; try done; destruct symbol; intros [= <-]; eauto.
Qed.

Lemma map_result_length {A B} (f : A -> result B) l bs :
  map_result f l = Ok bs -> length bs = length l.
Proof. intros H%map_result_ok. symmetry. by eapply Forall2_length. Qed.

(** The rows a completed refresh handed to the guidance. *)
Lemma snapshot_rows E reason track svc svc' snapshot :
  refresh_once E reason track svc = (Ok snapshot, svc') ->
  exists srows frows crows news_summary guidance,
    Forall2 (fun row row' => exists v, row' = dict_set "sentiment" v row)
      (stock_rows_of E svc) srows
    /\ Forall2 (fun row row' => exists v, row' = dict_set "sentiment" v row)
         (fx_rows_of E svc) frows
    /\ Forall2 (fun row row' => exists v, row' = dict_set "sentiment" v row)
         (crypto_rows_of E svc) crows
    /\ build_market_guidance srows frows crows news_summary = Ok guidance.
Proof.
  intros Hrun.
  destruct (refresh_ok _ _ _ _ _ _ Hrun) as (fr1 & fr2 & fr3 & Hbegin & Hcollect & Hpub & ->).
  destruct (refresh_begin_spec E reason track svc) as (fr1' & Hbegin' & Hsame & _).
  rewrite Hbegin in Hbegin'. injection Hbegin' as <-.
  destruct (same_rows E _ _ Hsame) as (Rs & Rf & Rc & Re & _).
  destruct (collect_ok _ _ _ _ _ _ _ Hcollect)
    as (news_raw & news_summary & srows & frows & crows & guidance
        & _ & _ & _ & Hs & Hc & Hf & Hg & Hsnap & _).
  rewrite Rs in Hs. rewrite Rc in Hc. rewrite Rf in Hf.
  assert (Hadds : forall rows rows',
            map_result (with_sentiment (sentiment_map_of news_summary)) rows = Ok rows' ->
            Forall2 (fun row row' => exists v, row' = dict_set "sentiment" v row)
              rows rows').
  { intros rows rows' H%map_result_ok. eapply Forall2_impl; [exact H|].
    intros row row'. apply with_sentiment_adds. }
  exists srows, frows, crows, news_summary, guidance. auto.
Qed.

(** The store a completed refresh leaves, and that it went to disk. *)
Lemma snapshot_store E reason track svc svc' snapshot :
  refresh_once E reason track svc = (Ok snapshot, svc') ->
  exists h,
    _snapshot svc' = new_store snapshot h
    /\ write_text E (new_store snapshot h) = Ok tt
    /\ exists d, snapshot = VDict d
                 /\ dict_lookup "generated_at" d = Some (VStr (generated_now E)).
Proof.
  intros Hrun.
  destruct (refresh_ok _ _ _ _ _ _ Hrun) as (fr1 & fr2 & fr3 & Hbegin & Hcollect & Hpub & ->).
  destruct (collect_ok _ _ _ _ _ _ _ Hcollect)
    as (news_raw & news_summary & srows & frows & crows & guidance
        & _ & _ & _ & _ & _ & _ & _ & Hsnap & _).
  pose proof (publish_effect E track (_total_steps svc) snapshot fr2) as Heff.
  rewrite Hpub in Heff. cbn [fst snd] in Heff.
  destruct (obj_get_or "history" (VList []) (_snapshot (self fr2)))
    as [[| | | |h|]|e]; try (by destruct Heff as [_ [e' He']]).
  destruct Heff as [Hstore Hres]. exists h. split; [done|]. split.
  - by destruct (write_text E (new_store snapshot h)) as [[]|].
  - rewrite Hsnap. eexists. split; reflexivity.
Qed.

(** The snapshot of a completed refresh accounts for every symbol of the
    watchlists: each one is in the rows of its class or in [errors], so the
    three coverage counts and the number of errors add up to the number of
    symbols; the rows are the fetched rows with the sentiment added, in
    watchlist order; the guidance is the one built on them; and the
    snapshot is the latest one of the store, which went to disk. *)
Theorem snapshot_accounting (E : env) (reason : string) (track_progress : bool)
    (svc svc' : MarketOverviewService) (snapshot : value) :
  refresh_once E reason track_progress svc = (Ok snapshot, svc') ->
  exists srows frows crows news_summary guidance d,
    snapshot = VDict d
    /\ snapshot = make_snapshot E reason srows frows crows news_summary guidance
                    (errors_of E svc)
    /\ dict_lookup "coverage" d
       = Some (VDict [("stocks", VInt (length srows)); ("fx_pairs", VInt (length frows));
                      ("cryptos", VInt (length crows))])
    /\ dict_lookup "stocks" d = Some (rows_value srows)
    /\ dict_lookup "fx" d = Some (rows_value frows)
    /\ dict_lookup "crypto" d = Some (rows_value crows)
    /\ dict_lookup "errors" d = Some (rows_value (errors_of E svc))
    /\ dict_lookup "guidance" d = Some (VDict guidance)
    /\ dict_lookup "reason" d = Some (VStr reason)
    /\ length srows + length frows + length crows + length (errors_of E svc)
       = length (stocks svc) + length (fx_pairs svc) + length (cryptos svc)
    /\ Forall2 (fun row row' => exists v, row' = dict_set "sentiment" v row)
         (stock_rows_of E svc) srows
    /\ Forall2 (fun row row' => exists v, row' = dict_set "sentiment" v row)
         (fx_rows_of E svc) frows
    /\ Forall2 (fun row row' => exists v, row' = dict_set "sentiment" v row)
         (crypto_rows_of E svc) crows
    /\ build_market_guidance srows frows crows news_summary = Ok guidance
    /\ get_latest svc' = Ok snapshot
    /\ write_text E (_snapshot svc') = Ok tt.
Proof.
  intros Hrun.
  destruct (refresh_ok _ _ _ _ _ _ Hrun) as (fr1 & fr2 & fr3 & Hbegin & Hcollect & Hpub & ->).
  destruct (refresh_begin_spec E reason track_progress svc) as (fr1' & Hbegin' & Hsame & _).
  rewrite Hbegin in Hbegin'. injection Hbegin' as <-.
  destruct (same_rows E _ _ Hsame) as (Rs & Rf & Rc & Re & _).
  destruct (collect_ok _ _ _ _ _ _ _ Hcollect)
    as (news_raw & news_summary & srows & frows & crows & guidance
        & _ & _ & _ & Hs & Hc & Hf & Hg & Hsnap & _).
  rewrite Rs in Hs. rewrite Rc in Hc. rewrite Rf in Hf. rewrite Re in Hsnap.
  exists srows, frows, crows, news_summary, guidance.
  eexists. split; [rewrite Hsnap; reflexivity|]. split; [exact Hsnap|].
  do 7 (split; [reflexivity|]).
  split.
  { rewrite (map_result_length _ _ _ Hs), (map_result_length _ _ _ Hc),
      (map_result_length _ _ _ Hf).
    pose proof (fetched_failed_length (stock_row E) (failure_record E "stock")
                  (stocks svc)).
    pose proof (fetched_failed_length (fx_row E)
                  (fun p => failure_record E "fx" (pair_name p)) (fx_pairs svc)).
    pose proof (fetched_failed_length (crypto_row E) (failure_record E "crypto")
                  (cryptos svc)).
    unfold stock_rows_of, fx_rows_of, crypto_rows_of, errors_of.
    rewrite !length_app. lia. }
  assert (Hadds : forall rows rows',
            map_result (with_sentiment (sentiment_map_of news_summary)) rows = Ok rows' ->
            Forall2 (fun row row' => exists v, row' = dict_set "sentiment" v row)
              rows rows').
  { intros rows rows' H%map_result_ok. eapply Forall2_impl; [exact H|].
    intros row row'. apply with_sentiment_adds. }
  split; [by apply Hadds|]. split; [by apply Hadds|]. split; [by apply Hadds|].
  split; [exact Hg|].
  pose proof (publish_effect E track_progress (_total_steps svc) snapshot fr2) as Heff.
  rewrite Hpub in Heff. cbn [fst snd] in Heff.
  destruct (obj_get_or "history" (VList []) (_snapshot (self fr2)))
    as [[| | | |h|]|e]; try (by destruct Heff as [_ [e' He']]).
  destruct Heff as [Hstore Hres]. unfold get_latest. rewrite Hstore. split.
  - reflexivity.
  - by destruct (write_text E (new_store snapshot h)) as [[]|].
Qed.

Lemma snapshot_accounting_witness :
  exists srows d,
    (refresh_once quiet_env "manual" false sample_service).1 = Ok (VDict d)
    /\ dict_lookup "stocks" d = Some (rows_value srows)
    /\ length srows + length (errors_of quiet_env sample_service) = 1.
Proof.
  destruct (refresh_once quiet_env "manual" false sample_service)
    as [[snapshot|e] svc'] eqn:Hrun; [|by vm_compute in Hrun].
  destruct (snapshot_accounting quiet_env "manual" false sample_service svc' snapshot Hrun)
    as (srows & frows & crows & news_summary & guidance & d & -> & Hsnap & _ & Hstocks
        & _ & _ & _ & _ & _ & Hsum & _ & Hfx & Hcrypto & _).
  exists srows, d. split; [done|]. split; [exact Hstocks|].
  apply Forall2_length in Hfx, Hcrypto.
  change (length (fx_rows_of quiet_env sample_service)) with 0 in Hfx.
  change (length (crypto_rows_of quiet_env sample_service)) with 0 in Hcrypto.
  change (length (stocks sample_service) + length (fx_pairs sample_service)
          + length (cryptos sample_service)) with 1 in Hsum.
  lia.
Defined.

Lemma row_has_momentum E :
  (forall symbol row, stock_row E symbol = Ok row ->
     exists m, dict_lookup "momentum_1d" row = Some m)
  /\ (forall pair row, fx_row E pair = Ok row ->
        exists m, dict_lookup "momentum_1d" row = Some m)
  /\ (forall symbol row, crypto_row E symbol = Ok row ->
        exists m, dict_lookup "momentum_1d" row = Some m).
Proof.
  split; [|split].
  - intros symbol row. unfold stock_row, rbind.
    destruct (time_series_daily E symbol); [|done].
    destruct (_raise_if_av_error E _); [|done].
    destruct (summarize_timeseries_daily E _); [|done].
    destruct (_latest_close _); [|done]. intros [= <-]. by eexists.
  - intros pair row. unfold fx_row, rbind.
    destruct (fx_daily E _ _); [|done].
    destruct (_raise_if_av_error E _); [|done].
    destruct (summarize_fx_daily E _); [|done].
    destruct (_latest_close _); [|done]. intros [= <-]. by eexists.
  - intros symbol row. unfold crypto_row, rbind.
    destruct (crypto_daily E symbol); [|done].
    destruct (_raise_if_av_error E _); [|done].
    destruct (summarize_crypto_daily E _); [|done].
    destruct (_latest_close _); [|done]. intros [= <-]. by eexists.
Qed.

Lemma scorable_momentum_number v row m :
  scorable (dict_set "sentiment" v row) = true ->
  dict_lookup "momentum_1d" row = Some m ->
  exists q, as_number (dict_get "momentum_1d" row) = Some q.
Proof.
  intros (Hm & _ & _ & Hnone)%scorable_readable Hrow.
  rewrite dict_lookup_set_ne in Hnone by done.
  unfold readable, dict_get, dict_get_or, is_number in *.
  rewrite dict_lookup_set_ne in Hm by done. rewrite Hrow in *.
  destruct m; simpl in *; try done; eauto.
Qed.

(** A refresh completes only if every row it fetched carries a number as
    [momentum_1d]: a symbol whose series holds fewer than two closes (the
    summariser then reports no momentum) and whose fetch did not fail makes
    the guidance raise, and with it the whole refresh. *)
Theorem refresh_needs_momentum (E : env) (reason : string) (track_progress : bool)
    (svc svc' : MarketOverviewService) (snapshot : value) :
  refresh_once E reason track_progress svc = (Ok snapshot, svc') ->
  (forall symbol row, symbol ∈ stocks svc -> stock_row E symbol = Ok row ->
     exists q, as_number (dict_get "momentum_1d" row) = Some q)
  /\ (forall pair row, pair ∈ fx_pairs svc -> fx_row E pair = Ok row ->
        exists q, as_number (dict_get "momentum_1d" row) = Some q)
  /\ (forall symbol row, symbol ∈ cryptos svc -> crypto_row E symbol = Ok row ->
        exists q, as_number (dict_get "momentum_1d" row) = Some q)
  /\ (forall symbol raw summary price,
        symbol ∈ stocks svc -> time_series_daily E symbol = Ok raw ->
        rejected raw = false -> summarize_timeseries_daily E raw = Ok summary ->
        _latest_close (dict_get_or "points" (VList []) summary) = Ok price ->
        exists q, as_number (dict_get "momentum_1d" summary) = Some q).
Proof.
  intros Hrun.
  destruct (snapshot_rows E reason track_progress svc svc' snapshot Hrun)
    as (srows & frows & crows & news_summary & guidance & Hs & Hf & Hc & Hg).
  pose proof (guidance_ok_scorable _ _ _ _ _ Hg) as Hscorable.
  destruct (row_has_momentum E) as (Ms & Mf & Mc).
  assert (Hvia : forall {X} (fetch : X -> result dict) (symbols : list X) rows',
            Forall2 (fun row row' => exists v, row' = dict_set "sentiment" v row)
              (fetched fetch symbols) rows' ->
            (forall row', row' ∈ rows' -> scorable row' = true) ->
            (forall x row, fetch x = Ok row ->
               exists m, dict_lookup "momentum_1d" row = Some m) ->
            forall x row, x ∈ symbols -> fetch x = Ok row ->
              exists q, as_number (dict_get "momentum_1d" row) = Some q).
  { intros X fetch symbols rows' Hadd Hall Hhas x row Hin Hrow.
    assert (Hfetched : row ∈ fetched fetch symbols) by (apply fetched_elem; eauto).
    apply list_elem_of_lookup in Hfetched as [i Hi].
    destruct (Forall2_lookup_l _ _ _ _ _ Hadd Hi) as (row' & Hi' & v & ->).
    destruct (Hhas x row Hrow) as [m Hm].
    eapply scorable_momentum_number; [|exact Hm].
    apply Hall. by eapply list_elem_of_lookup_2. }
  assert (Hstock : forall symbol row, symbol ∈ stocks svc -> stock_row E symbol = Ok row ->
            exists q, as_number (dict_get "momentum_1d" row) = Some q).
  { apply (Hvia _ (stock_row E) (stocks svc) srows Hs); [|exact Ms].
    intros row' Hin. apply Hscorable. apply elem_of_app. by left. }
  split; [exact Hstock|]. split.
  { apply (Hvia _ (fx_row E) (fx_pairs svc) frows Hf); [|exact Mf].
    intros row' Hin. apply Hscorable. rewrite !elem_of_app. right. by left. }
  split.
  { apply (Hvia _ (crypto_row E) (cryptos svc) crows Hc); [|exact Mc].
    intros row' Hin. apply Hscorable. rewrite !elem_of_app. right. by right. }
  intros symbol raw summary price Hin Hraw Hrej Hsum Hprice.
  destruct (Hstock symbol
              [("asset_class", VStr "stock"); ("symbol", VStr symbol); ("price", price);
               ("momentum_1d", dict_get "momentum_1d" summary);
               ("volatility_proxy", dict_get "volatility_proxy" summary);
               ("last_refreshed", dict_get "last_refreshed" summary)] Hin) as [q Hq].
  - unfold stock_row. rewrite Hraw. cbn [rbind].
    assert (_raise_if_av_error E raw = Ok tt) as ->.
    { unfold rejected in Hrej. unfold _raise_if_av_error. destruct raw; try done.
      by rewrite Hrej. }
    cbn [rbind]. rewrite Hsum. cbn [rbind]. by rewrite Hprice.
  - exists q. exact Hq.
Qed.

Lemma refresh_needs_momentum_witness :
  exists q,
    as_number (dict_get "momentum_1d"
                 [("asset_class", VStr "stock"); ("symbol", VStr "AAPL"); ("price", VNone);
                  ("momentum_1d", VNum 0); ("volatility_proxy", VNone);
                  ("last_refreshed", VNone)]) = Some q.
Proof.
  destruct (refresh_once quiet_env "manual" false sample_service)
    as [[snapshot|e] svc'] eqn:Hrun; [|by vm_compute in Hrun].
  destruct (refresh_needs_momentum quiet_env "manual" false sample_service svc' snapshot
              Hrun) as (Hstock & _).
  apply (Hstock "AAPL"); [by left|reflexivity].
Defined.

End SnapshotProps.

(** ** The status record after a tracked refresh *)

Module StatusProps.
Import Analytics AnalyticsProps Orchestrator OrchestratorProps Overview GuidanceProps
  RefreshProps CollectProps SnapshotProps.
Local Open Scope list_scope.

Lemma publish_status E total snap fr :
  let run := publish_snapshot E true total snap fr in
  match run.1 with
  | Ok v =>
      _refresh_status (self run.2)
      = dict_merge (_refresh_status (self fr))
          [("state", VStr "completed");
           ("finished_at", VStr (finished_now E));
           ("total_steps", VInt total);
           ("completed_steps", VInt total);
           ("progress_percent", VNum 100.0);
           ("current_step", VStr "Completed");
           ("message", VStr "Refresh completed successfully.");
           ("error", VNone);
           ("latest_generated_at", VStr (generated_now E))]
  | Err e => _refresh_status (self run.2) = _refresh_status (self fr)
  end.
Proof.
  cbv zeta. unfold publish_snapshot, bind, on_self, store_snapshot, _persist, ret.
  destruct (obj_get_or "history" (VList []) (_snapshot (self fr)))
    as [[| | | |h|]|e]; try done.
  cbn [self _snapshot set_snapshot].
  destruct (write_text E _) as [[]|e]; done.
Qed.

Lemma except_status E e fr :
  exists fr',
    refresh_except E true e fr = (Err e, fr')
    /\ _refresh_status (self fr')
       = dict_merge (_refresh_status (self fr))
           [("state", VStr "failed");
            ("finished_at", VStr (finished_now E));
            ("current_step", VStr "Failed");
            ("message", VStr "Refresh failed.");
            ("error", VStr (exc_str E e))].
Proof. eexists. split; reflexivity. Qed.

Lemma not_progress_key k :
  k ∉ progress_keys <->
  k <> "total_steps" /\ k <> "completed_steps" /\ k <> "progress_percent"
  /\ k <> "current_step" /\ k <> "message".
Proof.
  unfold progress_keys. rewrite !not_elem_of_cons. rewrite elem_of_nil. tauto.
Qed.

(** The status record a tracked refresh leaves.  It names the reason and
    the times of this run and the number of steps.  After a completed run it
    shows all steps done, 100 percent, no error, and the time stamp of the
    new snapshot as [latest_generated_at].  After a failed run it shows the
    exception, keeps the [latest_generated_at] it had, and counts every
    symbol as done: the completed steps are all steps, or all but the news
    step. *)
Theorem refresh_status_fields (E : env) (reason : string) (svc : MarketOverviewService) :
  let run := refresh_once E reason true svc in
  let field k := status_field k run.2 in
  let total := _total_steps svc in
  field "reason" = Some (VStr reason)
  /\ field "started_at" = Some (VStr (started_now E))
  /\ field "finished_at" = Some (VStr (finished_now E))
  /\ field "total_steps" = Some (VInt total)
  /\ match run.1 with
     | Ok snapshot =>
         field "state" = Some (VStr "completed")
         /\ field "completed_steps" = Some (VInt total)
         /\ field "progress_percent" = Some (VNum 100.0)
         /\ field "error" = Some VNone
         /\ field "latest_generated_at" = Some (VStr (generated_now E))
         /\ exists d, snapshot = VDict d
                      /\ dict_lookup "generated_at" d = Some (VStr (generated_now E))
     | Err e =>
         field "state" = Some (VStr "failed")
         /\ field "error" = Some (VStr (exc_str E e))
         /\ field "latest_generated_at" = status_field "latest_generated_at" svc
         /\ exists n, field "completed_steps" = Some (VInt n)
                      /\ (n + 1 = total \/ n = total)
     end.
Proof.
  intros run field total. subst run field.
  destruct (refresh_begin_spec E reason true svc)
    as (fr1 & Hbegin & Hsame & Hzero & Hlatest & _ & Htracked).
  destruct (Htracked eq_refl) as (Hsynced & Hstate & Hreason & Hstarted).
  rewrite (refresh_once_unfold _ _ _ _ _ Hbegin). cbn [fst snd]. fold total.
  destruct (same_rows E _ _ Hsame) as (_ & _ & _ & _ & Htotal). fold total in Htotal.
  unfold refresh_rest, try_except.
  (* the fields a run of [collect_snapshot] leaves alone *)
  assert (Hkept : forall n fr2, advanced true total n fr1 fr2 ->
            status_field "reason" (self fr2) = Some (VStr reason)
            /\ status_field "started_at" (self fr2) = Some (VStr (started_now E))
            /\ status_field "latest_generated_at" (self fr2)
               = status_field "latest_generated_at" svc
            /\ status_field "total_steps" (self fr2) = Some (VInt total)
            /\ status_field "completed_steps" (self fr2) = Some (VInt n)).
  { intros n fr2 (_ & Hn & Hk & _ & Hsync).
    destruct (Hsync eq_refl Hsynced) as [Hdone Htot].
    rewrite !Hk by (apply not_progress_key; done).
    rewrite Hn, Hzero in Hdone. done. }
  destruct (refresh_try E reason true total fr1) as [[snap|e] fr3] eqn:Htry.
  - cbn [fst snd]. unfold refresh_try in Htry.
    apply bind_ok_inv in Htry as (snap0 & fr2 & Hcollect & Hpublish).
    destruct (collect_ok _ _ _ _ _ _ _ Hcollect)
      as (_ & news_summary & srows & frows & crows & guidance
          & _ & _ & _ & _ & _ & _ & _ & Hsnap & Hadv).
    rewrite Htotal in Hadv.
    destruct (Hkept _ _ Hadv) as (Kreason & Kstarted & _ & _ & _).
    pose proof (publish_status E total snap0 fr2) as Hpub. cbv zeta in Hpub.
    rewrite Hpublish in Hpub. cbn [fst snd] in Hpub.
    assert (snap = snap0) as ->.
    { revert Hpublish. unfold publish_snapshot. intros H.
      apply bind_ok_inv in H as (? & ? & _ & H).
      apply bind_ok_inv in H as (? & ? & _ & H).
      apply bind_ok_inv in H as (? & ? & _ & H).
      by injection H as ->. }
    unfold status_field in *. rewrite Hpub.
    unfold dict_merge. cbn [fold_left fst snd].
    split. { by rewrite !dict_lookup_set_ne by done. }
    split. { by rewrite !dict_lookup_set_ne by done. }
    split. { rewrite !dict_lookup_set_ne by done. apply dict_lookup_set_eq. }
    split. { rewrite !dict_lookup_set_ne by done. apply dict_lookup_set_eq. }
    split. { rewrite !dict_lookup_set_ne by done. apply dict_lookup_set_eq. }
    split. { rewrite !dict_lookup_set_ne by done. apply dict_lookup_set_eq. }
    split. { rewrite !dict_lookup_set_ne by done. apply dict_lookup_set_eq. }
    split. { rewrite !dict_lookup_set_ne by done. apply dict_lookup_set_eq. }
    split. { apply dict_lookup_set_eq. }
    rewrite Hsnap. eexists. split; reflexivity.
  - destruct (except_status E e fr3) as (fr4 & Hexc & Hst). rewrite Hexc. cbn [fst snd].
    unfold refresh_try in Htry.
    assert (Hfail : exists n fr2,
              advanced true total n fr1 fr2 /\ (n + 1 = total \/ n = total)
              /\ _refresh_status (self fr3) = _refresh_status (self fr2)).
    { apply bind_err_inv in Htry as [Hcollect|(snap0 & fr2 & Hcollect & Hpublish)].
      - destruct (collect_err _ _ _ _ _ _ _ Hcollect) as (n & Hadv & Hn).
        rewrite Htotal in Hn. by exists n, fr3.
      - destruct (collect_ok _ _ _ _ _ _ _ Hcollect)
          as (_ & _ & _ & _ & _ & _ & _ & _ & _ & _ & _ & _ & _ & _ & Hadv).
        rewrite Htotal in Hadv.
        pose proof (publish_status E total snap0 fr2) as Hpub. cbv zeta in Hpub.
        rewrite Hpublish in Hpub. cbn [fst snd] in Hpub.
        exists total, fr2. split; [done|]. split; [by right|done]. }
    destruct Hfail as (n & fr2 & Hadv & Hn & Hsame_status).
    destruct (Hkept _ _ Hadv) as (Kreason & Kstarted & Klatest & Ktotal & Kdone).
    unfold status_field in *. rewrite Hst, Hsame_status.
    unfold dict_merge. cbn [fold_left fst snd].
    split. { by rewrite !dict_lookup_set_ne by done. }
    split. { by rewrite !dict_lookup_set_ne by done. }
    split. { rewrite !dict_lookup_set_ne by done. apply dict_lookup_set_eq. }
    split. { by rewrite !dict_lookup_set_ne by done. }
    split. { rewrite !dict_lookup_set_ne by done. apply dict_lookup_set_eq. }
    split. { apply dict_lookup_set_eq. }
    split. { by rewrite !dict_lookup_set_ne by done. }
    exists n. split; [|done]. by rewrite !dict_lookup_set_ne by done.
Qed.

End StatusProps.

(** ** The status record and the refresh tasks *)

Module LifecycleProps.
Import Analytics AnalyticsProps Orchestrator OrchestratorProps Overview GuidanceProps
  RefreshProps CollectProps SnapshotProps.
Local Open Scope list_scope.

Lemma agrees_initial svc : status_agrees svc (initial svc).
Proof. unfold status_agrees, is_running, settled. cbn. by left. Qed.

Lemma agrees_step svc sys sys' :
  single_flight_inv sys -> status_agrees svc sys -> step sys sys' ->
  status_agrees svc sys'.
Proof.
  intros Hinv Hag Hstep.
  destruct Hstep as [now reason sys|t E sys sys' Henter|t sys sys' Hfin].
  - destruct (is_running sys) eqn:Hrun.
    + rewrite start_refresh_rejected by done. exact Hag.
    + destruct (start_refresh_accepted now reason sys Hrun) as (status & -> & Hstate).
      cbn [snd]. unfold status_agrees, is_running.
      cbn [_refresh_task tasks service].
      rewrite lookup_app_r by done. rewrite Nat.sub_diag. cbn. exact Hstate.
  - unfold task_enter in Henter.
    destruct (tasks sys !! t) as [tk0|] eqn:Htk0; [|done].
    destruct (task_phase tk0) eqn:Hph; try done.
    destruct (_refresh_lock sys); [done|].
    destruct (refresh_begin_spec E (task_reason tk0) true (service sys))
      as (fr1 & Hbegin & _ & _ & _ & _ & Htracked).
    destruct (Htracked eq_refl) as (_ & Hstate & _).
    unfold in_frame in Henter. rewrite Hbegin in Henter. injection Henter as <-.
    assert (Ht : _refresh_task sys = Some t).
    { apply Hinv. exists tk0. split; [done|]. unfold done. by rewrite Hph. }
    unfold status_agrees, is_running. cbn [_refresh_task tasks service]. rewrite Ht.
    unfold set_phase. rewrite list_lookup_alter_eq, Htk0. cbn. exact Hstate.
  - unfold task_finish in Hfin.
    destruct (tasks sys !! t) as [tk0|] eqn:Htk0; [|done].
    destruct (task_phase tk0) as [|E total|] eqn:Hph; try done.
    pose proof (rest_result_status E (task_reason tk0) total
                  {| self := service sys; completed_steps := 0 |}) as Hrest.
    cbv zeta in Hrest. unfold in_frame in Hfin.
    destruct (refresh_rest E (task_reason tk0) true total _) as [outcome fr2].
    injection Hfin as <-. cbn [fst snd] in Hrest.
    unfold status_agrees, is_running, settled, status_field.
    cbn [_refresh_task tasks service]. right. split.
    + intros Hnil. apply (f_equal length) in Hnil. unfold set_phase in Hnil.
      rewrite length_alter in Hnil. apply lookup_lt_Some in Htk0. simpl in Hnil. lia.
    + destruct outcome; [left|right]; tauto.
Qed.

Lemma agrees_reachable svc sys : reachable svc sys -> status_agrees svc sys.
Proof.
  unfold reachable. intros Hreach.
  assert (H : single_flight_inv sys /\ status_agrees svc sys); [|tauto].
  revert sys Hreach. apply rtc_ind_r.
  - split; [apply inv_initial|apply agrees_initial].
  - intros sys sys' _ Hstep [Hinv Hag]. split; [by eapply inv_step|by eapply agrees_step].
Qed.

(** The status record follows the refresh tasks.  In every state the
    service reaches, [state] is running exactly while a refresh task is
    unfinished (given that the service did not begin in that state, and the
    constructor begins with idle); once a refresh was started the state is
    never idle again: it is running, completed or failed; and
    [get_refresh_status] reports [is_running] as the task handle has it. *)
Theorem status_follows_tasks (svc : MarketOverviewService) (sys : system) :
  reachable svc sys ->
  status_field "state" svc = Some (VStr "idle") ->
  let state := status_field "state" (service sys) in
  (is_running sys = true <-> state = Some (VStr "running"))
  /\ (in_flight sys <-> state = Some (VStr "running"))
  /\ (tasks sys <> [] ->
      state = Some (VStr "running") \/ state = Some (VStr "completed")
      \/ state = Some (VStr "failed"))
  /\ (tasks sys = [] -> _refresh_status (service sys) = _refresh_status svc)
  /\ dict_lookup "is_running" (get_refresh_status sys) = Some (VBool (is_running sys))
  /\ (forall k, k <> "is_running" ->
        dict_lookup k (get_refresh_status sys) = status_field k (service sys)).
Proof.
  intros Hreach Hidle state.
  pose proof (agrees_reachable svc sys Hreach) as Hag.
  pose proof (inv_reachable svc sys Hreach) as Hinv.
  unfold status_agrees, settled in Hag. subst state.
  assert (Hrun : is_running sys = true <->
                 status_field "state" (service sys) = Some (VStr "running")).
  { destruct (is_running sys); [tauto|].
    split; [done|]. intros Hstate.
    destruct Hag as [[_ Hsame]|[_ [H|H]]].
    - unfold status_field in *. rewrite Hsame, Hidle in Hstate. done.
    - rewrite Hstate in H. done.
    - rewrite Hstate in H. done. }
  split; [exact Hrun|]. split.
  { rewrite <- Hrun. split.
    - intros [t Ht]. by eapply in_flight_is_running.
    - intros (t & _ & Ht)%is_running_in_flight. by exists t. }
  split.
  { intros Htasks. destruct (is_running sys); [by left|].
    destruct Hag as [[Hnil _]|[_ [H|H]]]; [done|right; by left|right; by right]. }
  split.
  { intros Htasks. destruct (is_running sys) eqn:Hr.
    - apply is_running_in_flight in Hr as (t & _ & tk & Htk & _).
      by rewrite Htasks in Htk.
    - by destruct Hag as [[_ Hsame]|[Hne _]]. }
  split; [apply dict_lookup_set_eq|].
  intros k Hk. unfold get_refresh_status, status_field. by rewrite dict_lookup_set_ne.
Qed.

(** A refresh is started on a new service and enters its body. *)
Lemma status_follows_tasks_witness :
  let sys := (start_refresh "09:00" "manual" (initial sample_service_idle)).2 in
  is_running sys = true
  /\ status_field "state" (service sys) = Some (VStr "running").
Proof.
  intros sys.
  assert (Hreach : reachable sample_service_idle sys).
  { unfold reachable. apply rtc_once. apply step_start_refresh. }
  destruct (status_follows_tasks sample_service_idle sys Hreach eq_refl) as [Hrun _].
  assert (His : is_running sys = true) by reflexivity.
  split; [exact His|]. by apply Hrun.
Defined.

End LifecycleProps.

(** ** Starting the service *)

Module InitProps.
Import Analytics AnalyticsProps Orchestrator OrchestratorProps Overview GuidanceProps
  RefreshProps CollectProps SnapshotProps.
Local Open Scope list_scope.

Lemma init_status_fields ws wc wf file svc :
  __init__ ws wc wf file = Ok svc ->
  status_field "state" svc = Some (VStr "idle")
  /\ status_field "error" svc = Some VNone
  /\ status_field "total_steps" svc = Some (VInt 0)
  /\ status_field "completed_steps" svc = Some (VInt 0)
  /\ stocks svc = ws /\ cryptos svc = wc /\ fx_pairs svc = wf.
Proof.
  unfold __init__, rbind. destruct (obj_get_or "latest" VNone _); [|done].
  intros [= <-]. unfold status_field. cbn [_refresh_status set_status].
  repeat split; try reflexivity; by destruct file as [|[doc|e]].
Qed.

(** The constructor and the data file.  A missing or unreadable file gives
    an empty store; a file that holds a JSON object gives that object as the
    store, and [latest_generated_at] is the time stamp of its latest
    snapshot where that is an object, and [None] otherwise; a file that
    holds any other JSON value (a list, a string, a number, null) makes the
    constructor raise.  The service it builds is idle and watches the
    configured lists. *)
Theorem init_outcomes (watch_stocks watch_cryptos : list string)
    (watch_fx : list (string * string)) (file : data_file) :
  let run := __init__ watch_stocks watch_cryptos watch_fx file in
  (forall svc, run = Ok svc ->
     status_field "state" svc = Some (VStr "idle")
     /\ stocks svc = watch_stocks /\ cryptos svc = watch_cryptos
     /\ fx_pairs svc = watch_fx
     /\ exists d, _snapshot svc = VDict d
          /\ get_latest svc = Ok (dict_get_or "latest" (VDict []) d)
          /\ status_field "latest_generated_at" svc
             = Some match dict_get "latest" d with
                    | VDict latest => dict_get "generated_at" latest
                    | _ => VNone
                    end)
  /\ (forall d, file = Holds (Ok (VDict d)) ->
        exists svc, run = Ok svc /\ _snapshot svc = VDict d)
  /\ (file = Missing \/ (exists e, file = Holds (Err e)) ->
        exists svc, run = Ok svc /\ _snapshot svc = VDict [])
  /\ (forall doc, file = Holds (Ok doc) -> (forall d, doc <> VDict d) ->
        exists msg, run = Err (AttributeError msg)).
Proof.
  intros run. subst run. split; [|split; [|split]].
  - intros svc Hrun.
    destruct (init_status_fields _ _ _ _ _ Hrun) as (Hstate & _ & _ & _ & Hs & Hc & Hf).
    split; [done|]. split; [done|]. split; [done|]. split; [done|].
    revert Hrun. unfold __init__, rbind.
    destruct (obj_get_or "latest" VNone _) as [latest|] eqn:Hlatest; [|done].
    intros [= <-]. unfold status_field, get_latest.
    cbn [_refresh_status _snapshot set_status] in *.
    destruct file as [|[doc|e]]; cbn [_load_from_disk _snapshot set_snapshot] in *.
    + exists []. injection Hlatest as <-. done.
    + destruct doc; try done. injection Hlatest as <-. eexists. split; [done|]. done.
    + exists []. injection Hlatest as <-. done.
  - intros d ->. eexists. split; reflexivity.
  - intros [->|[e ->]]; eexists; split; reflexivity.
  - intros doc -> Hdoc. unfold __init__. cbn [_load_from_disk _snapshot set_snapshot].
    destruct doc; try (eexists; reflexivity). by destruct (Hdoc d).
Qed.

(** What a completed refresh wrote to the data file is what a restarted
    service serves: started on the document of the store, the constructor
    returns a service with the same latest snapshot and the same history,
    idle, whose [latest_generated_at] is the time stamp of that snapshot. *)
Theorem restart_round_trip (E : env) (reason : string) (track_progress : bool)
    (svc svc' : MarketOverviewService) (snapshot : value)
    (watch_stocks watch_cryptos : list string) (watch_fx : list (string * string)) :
  refresh_once E reason track_progress svc = (Ok snapshot, svc') ->
  write_text E (_snapshot svc') = Ok tt
  /\ exists restarted,
       __init__ watch_stocks watch_cryptos watch_fx (Holds (Ok (_snapshot svc')))
       = Ok restarted
       /\ _snapshot restarted = _snapshot svc'
       /\ get_latest restarted = Ok snapshot
       /\ history_of restarted = history_of svc'
       /\ (forall n, get_history n restarted = get_history n svc')
       /\ status_field "state" restarted = Some (VStr "idle")
       /\ status_field "latest_generated_at" restarted = Some (VStr (generated_now E)).
Proof.
  intros Hrun.
  destruct (snapshot_store E reason track_progress svc svc' snapshot Hrun)
    as (h & Hstore & Hwrite & Hgen).
  split; [by rewrite Hstore|].
  rewrite Hstore. unfold new_store.
  eexists. split; [unfold __init__; cbn; reflexivity|].
  destruct Hgen as (d & -> & Hgen).
  split; [reflexivity|]. split; [reflexivity|].
  split. { unfold history_of. by rewrite Hstore. }
  split. { intros n. unfold get_history. by rewrite Hstore. }
  split; [reflexivity|].
  unfold status_field. cbn. unfold dict_get, dict_get_or. by rewrite Hgen.
Qed.

Lemma restart_round_trip_witness :
  exists snapshot restarted,
    (refresh_once quiet_env "manual" false sample_service).1 = Ok snapshot
    /\ __init__ ["AAPL"] [] []
         (Holds (Ok (_snapshot (refresh_once quiet_env "manual" false sample_service).2)))
       = Ok restarted
    /\ get_latest restarted = Ok snapshot.
Proof.
  destruct (refresh_once quiet_env "manual" false sample_service)
    as [[snapshot|e] svc'] eqn:Hrun; [|by vm_compute in Hrun].
  destruct (restart_round_trip quiet_env "manual" false sample_service svc' snapshot
              ["AAPL"] [] [] Hrun) as (_ & restarted & Hinit & _ & Hlatest & _).
  by exists snapshot, restarted.
Defined.

End InitProps.

(** ** The cached endpoints *)

Module EndpointProps.
Import Client ClientProps Endpoints PyStrProps.
Local Open Scope list_scope.

Lemma with_cache_same {C} name (c : C) cs : cache_of name (with_cache name c cs) = c.
Proof. by destruct name. Qed.

Lemma with_cache_other {C} name name' (c : C) cs :
  name <> name' -> cache_of name' (with_cache name c cs) = cache_of name' cs.
Proof. by destruct name, name'. Qed.

(** What [through_cache] does to the world, whatever is fetched. *)
Lemma through_cache_spec {C} (ops : cache_ops C) name key fetch w r w' :
  through_cache ops name key fetch w = (r, w') ->
  (forall other, other <> name -> cache_of other (store w') = cache_of other (store w))
  /\ (contains ops key (cache_of name (store w)) = true ->
      w' = w /\ r = getitem ops key (cache_of name (store w)))
  /\ (contains ops key (cache_of name (store w)) = false ->
      fetch (net w) = (r, net w')
      /\ match r with
         | Ok data =>
             cache_of name (store w') = setitem ops key data (cache_of name (store w))
         | Err _ => store w' = store w
         end).
Proof.
  unfold through_cache.
  destruct (contains ops key (cache_of name (store w))) eqn:Hhit.
  - intros [= <- <-]. done.
  - destruct (fetch (net w)) as [[data|e] net'] eqn:Hfetch; intros [= <- <-];
      cbn [net store].
    + split; [intros other Hne; by apply with_cache_other|].
      split; [done|]. intros _. split; [done|]. apply with_cache_same.
    + done.
Qed.

Lemma through_cache_repeat {C} (ops : cache_ops C) name key fetch w data w' :
  keeps_last ops ->
  through_cache ops name key fetch w = (Ok data, w') ->
  through_cache ops name key fetch w' = (Ok data, w').
Proof.
  intros Hlaw Hrun.
  destruct (through_cache_spec ops name key fetch w (Ok data) w' Hrun)
    as (_ & Hhit & Hmiss).
  unfold through_cache.
  destruct (contains ops key (cache_of name (store w))) eqn:Hc.
  - destruct (Hhit eq_refl) as [-> Hr]. by rewrite Hc, <- Hr.
  - destruct (Hmiss eq_refl) as [_ ->].
    destruct (Hlaw key data (cache_of name (store w))) as [-> ->]. done.
Qed.

Section Calls.
Context {C : Type} (ops : cache_ops C) (cfg : Settings) (up : upstream).

(** The cache, the key and the request behind a call. *)
Lemma invoke_through_cache (c : endpoint_call) :
  exists name key params,
    invoke ops cfg up c = through_cache ops name key (_get cfg up params).
Proof. destruct c; by eexists _, _, _. Qed.

Lemma invoke_upper (c : endpoint_call) :
  invoke ops cfg up (in_upper_case c) = invoke ops cfg up c.
Proof.
  destruct c; cbn [in_upper_case invoke]; try done;
    unfold global_quote, time_series_daily, time_series_intraday, fx_daily, crypto_daily;
    by rewrite !upper_idem.
Qed.

End Calls.

(** The endpoints and their caches.  A call whose key is in its cache
    returns the cached value and touches neither the network nor a cache.
    Otherwise the payload [_get] returns is stored under the key and
    returned, whatever it is - a throttle note or a rejection is cached like
    data - and an exception of [_get] leaves the caches as they were.  A
    call touches one cache only, and the case of the symbols makes no
    difference.  With a cache that keeps what was stored last, a call that
    returned a payload returns the same payload when repeated, and sends
    nothing. *)
Theorem endpoint_cache {C : Type} (ops : cache_ops C) (cfg : Settings) (up : upstream)
    (c : endpoint_call) (w w' : world C) (r : result value) :
  invoke ops cfg up c w = (r, w') ->
  exists name key params,
    invoke ops cfg up c = through_cache ops name key (_get cfg up params)
    /\ invoke ops cfg up (in_upper_case c) = invoke ops cfg up c
    /\ (forall other, other <> name ->
          cache_of other (store w') = cache_of other (store w))
    /\ (contains ops key (cache_of name (store w)) = true ->
        w' = w /\ r = getitem ops key (cache_of name (store w)))
    /\ (contains ops key (cache_of name (store w)) = false ->
        _get cfg up params (net w) = (r, net w')
        /\ (forall data, r = Ok data ->
              cache_of name (store w') = setitem ops key data (cache_of name (store w)))
        /\ (forall e, r = Err e -> store w' = store w))
    /\ (keeps_last ops -> forall data, r = Ok data ->
          invoke ops cfg up c w' = (Ok data, w')).
Proof.
  intros Hrun.
  destruct (invoke_through_cache ops cfg up c) as (name & key & params & Hinv).
  exists name, key, params. split; [exact Hinv|]. split; [apply invoke_upper|].
  rewrite Hinv in Hrun |- *.
  destruct (through_cache_spec ops name key _ w r w' Hrun) as (Hother & Hhit & Hmiss).
  split; [exact Hother|]. split; [exact Hhit|]. split.
  - intros Hc. destruct (Hmiss Hc) as [Hget Hstore]. split; [exact Hget|].
    split; [by intros data ->|by intros e ->].
  - intros Hlaw data ->. by eapply through_cache_repeat.
Qed.

Lemma list_cache_keeps_last : keeps_last list_cache.
Proof.
  intros key data c. cbn. by rewrite bool_decide_eq_true_2.
Qed.

(** Every key is throttled: the note of the fallback request is cached, and
    the second call returns it without a request. *)
Lemma endpoint_cache_witness :
  let first := global_quote list_cache default_settings (fun _ _ => Body busy) "ibm"
                 {| net := mk_state ["a"] 0 []; store := no_caches |} in
  first.1 = Ok busy
  /\ global_quote list_cache default_settings (fun _ _ => Body busy) "IBM" first.2
     = (Ok busy, first.2)
  /\ length (requests (trace (net first.2))) = 2.
Proof.
  intros first.
  assert (Hfirst : first = (Ok busy, first.2)) by (by vm_compute).
  destruct (endpoint_cache list_cache default_settings (fun _ _ => Body busy)
              (GlobalQuote "ibm") _ _ _ Hfirst)
    as (name & key & params & _ & Hupper & _ & _ & _ & Hrepeat).
  split; [by rewrite Hfirst|]. split; [|by vm_compute].
  change (global_quote list_cache default_settings (fun _ _ => Body busy) "IBM")
    with (invoke list_cache default_settings (fun _ _ => Body busy)
            (in_upper_case (GlobalQuote "ibm"))).
  rewrite Hupper. by apply (Hrepeat list_cache_keeps_last).
Defined.

Lemma lower_char_idem c : PyStr.lower_char (PyStr.lower_char c) = PyStr.lower_char c.
Proof. by destruct c as [[] [] [] [] [] [] [] []]. Qed.

Lemma is_space_lower_char c : PyStr.is_space (PyStr.lower_char c) = PyStr.is_space c.
Proof. by destruct c as [[] [] [] [] [] [] [] []]. Qed.

Lemma lower_idem s : PyStr.lower (PyStr.lower s) = PyStr.lower s.
Proof. induction s as [|c s IH]; [done|]. simpl. by rewrite lower_char_idem, IH. Qed.

Lemma lstrip_lower s : PyStr.lstrip (PyStr.lower s) = PyStr.lower (PyStr.lstrip s).
Proof.
  induction s as [|c s IH]; [done|]. simpl. rewrite is_space_lower_char.
  by destruct (PyStr.is_space c).
Qed.

Lemma rstrip_lower s : PyStr.rstrip (PyStr.lower s) = PyStr.lower (PyStr.rstrip s).
Proof.
  induction s as [|c s IH]; [done|]. simpl. rewrite IH, is_space_lower_char.
  destruct (PyStr.rstrip s); [by destruct (PyStr.is_space c)|done].
Qed.

Lemma normalized_state_idem state :
  Csv.normalized_state (Csv.normalized_state state) = Csv.normalized_state state.
Proof.
  unfold Csv.normalized_state.
  destruct (PyStr.nonempty (PyStr.strip (PyStr.lower state))) eqn:Hne; [|done].
  assert (Hlower : PyStr.lower (PyStr.strip (PyStr.lower state))
                   = PyStr.strip (PyStr.lower state)).
  { unfold PyStr.strip. by rewrite <- rstrip_lower, <- lstrip_lower, lower_idem. }
  by rewrite Hlower, strip_idem, Hne.
Qed.

(** The listing of the universe goes through its cache like the JSON
    endpoints: the state is normalised (lower case, stripped, [active] when
    nothing is left), so all spellings of a state share one entry; the rows
    [_get_csv] returns are stored and returned whatever they are - an empty
    listing is cached as well - and an exception leaves the caches as they
    were; with a cache that keeps what was stored last, the listing is
    returned again without a request. *)
Theorem listing_status_cache {C : Type} (ops : cache_ops C) (cfg : Settings)
    (up : Csv.text_upstream) (rows_of : string -> list dict) (state : string)
    (w w' : world C) (r : result value) :
  Csv.listing_status ops cfg up rows_of state w = (r, w') ->
  let key := [KStr "LISTING_STATUS"; KStr (Csv.normalized_state state)] in
  Csv.normalized_state state <> ""
  /\ Csv.listing_status ops cfg up rows_of (Csv.normalized_state state)
     = Csv.listing_status ops cfg up rows_of state
  /\ (forall other, other <> UniverseCache ->
        cache_of other (store w') = cache_of other (store w))
  /\ (contains ops key (_universe_cache (store w)) = true ->
      w' = w /\ r = getitem ops key (_universe_cache (store w)))
  /\ (contains ops key (_universe_cache (store w)) = false ->
      (forall data, r = Ok data ->
         _universe_cache (store w') = setitem ops key data (_universe_cache (store w))
         /\ exists rows,
              data = Analytics.rows_value rows
              /\ (Csv._get_csv cfg up rows_of
                    [("function", VStr "LISTING_STATUS");
                     ("state", VStr (Csv.normalized_state state))] (net w)).1 = Ok rows)
      /\ (forall e, r = Err e -> store w' = store w))
  /\ (keeps_last ops -> forall data, r = Ok data ->
        Csv.listing_status ops cfg up rows_of state w' = (Ok data, w')).
Proof.
  intros Hrun key.
  split.
  { unfold Csv.normalized_state.
    by destruct (PyStr.strip (PyStr.lower state)) eqn:Hs. }
  split. { unfold Csv.listing_status. by rewrite normalized_state_idem. }
  unfold Csv.listing_status in *. fold key in Hrun |- *.
  destruct (through_cache_spec ops UniverseCache key _ w r w' Hrun)
    as (Hother & Hhit & Hmiss).
  split; [exact Hother|]. split; [exact Hhit|]. split.
  - intros Hc. destruct (Hmiss Hc) as [Hget Hstore]. split.
    + intros data ->. split; [exact Hstore|].
      destruct (Csv._get_csv cfg up rows_of _ (net w)) as [[rows|e] st']; [|done].
      injection Hget as <- _. by exists rows.
    + by intros e ->.
  - intros Hlaw data ->. by eapply through_cache_repeat.
Qed.

(** The provider answers with a header line only: the empty listing is
    cached, and the second call returns it without a request. *)
Lemma listing_status_cache_witness :
  let first := Csv.listing_status list_cache default_settings
                 (fun _ _ => Csv.Text "symbol,name") (fun _ => []) " ACTIVE "
                 {| net := mk_state ["a"] 0 []; store := no_caches |} in
  first.1 = Ok (VList [])
  /\ Csv.listing_status list_cache default_settings
       (fun _ _ => Csv.Text "symbol,name") (fun _ => []) " ACTIVE " first.2
     = (Ok (VList []), first.2)
  /\ length (requests (trace (net first.2))) = 2.
Proof.
  intros first.
  assert (Hfirst : first = (Ok (VList []), first.2)) by (by vm_compute).
  destruct (listing_status_cache list_cache default_settings
              (fun _ _ => Csv.Text "symbol,name") (fun _ => []) " ACTIVE " _ _ _ Hfirst)
    as (_ & _ & _ & _ & _ & Hrepeat).
  split; [by rewrite Hfirst|]. split; [|by vm_compute].
  by apply (Hrepeat list_cache_keeps_last).
Defined.

End EndpointProps.

(** ** The [.env] file *)

Module ConfigProps.
Import PyStr PyStrProps KeyPool Config.
Local Open Scope list_scope.

Lemma environ_has_app name env1 env2 :
  environ_has name (env1 ++ env2) = environ_has name env1 || environ_has name env2.
Proof. unfold environ_has. apply existsb_app. Qed.

Lemma environ_has_elem name env :
  environ_has name env = true <-> name ∈ env.*1.
Proof.
  unfold environ_has. rewrite existsb_exists, list_elem_of_fmap. split.
  - intros (b & Hin%list_elem_of_In & Heq%String.eqb_eq). by exists b.
  - intros (b & -> & Hin). exists b. split; [by apply list_elem_of_In|].
    apply String.eqb_refl.
Qed.

Lemma environ_get_app name env1 env2 default :
  environ_has name env1 = true ->
  environ_get name (env1 ++ env2) default = environ_get name env1 default.
Proof.
  unfold environ_get, environ_has. induction env1 as [|b env1 IH]; [done|]. simpl.
  destruct (String.eqb b.1 name); [done|]. exact IH.
Qed.

(** What one line does: nothing, or one new binding at the end. *)
Lemma load_line_spec line env :
  load_line line env = env
  \/ exists key value,
       load_line line env = env ++ [(key, value)]
       /\ environ_has key env = false
       /\ key <> "" /\ strip key = key /\ strip value = value
       /\ has_char "="%char key = false.
Proof.
  unfold load_line.
  destruct (negb (nonempty (strip line)) || startswith "#" (strip line)); [by left|].
  destruct (negb (has_char "="%char (strip line))); [by left|].
  pose proof (split_once_before "="%char (strip line)) as Hbefore.
  destruct (split_once "="%char (strip line)) as [key value]. simpl in Hbefore.
  destruct (nonempty (strip key)) eqn:Hkey; [|by left].
  destruct (environ_has (strip key) env) eqn:Hhas; [by left|].
  right. exists (strip key), (strip value). simpl.
  split; [done|]. split; [done|].
  split; [by destruct (strip key)|]. split; [apply strip_idem|].
  split; [apply strip_idem|]. by apply has_char_strip.
Qed.

Lemma load_line_has line env name :
  environ_has name env = true -> environ_has name (load_line line env) = true.
Proof.
  intros Hhas. destruct (load_line_spec line env) as [->|(key & value & -> & _)]; [done|].
  by rewrite environ_has_app, Hhas.
Qed.

Lemma load_lines_has lines : forall env name,
  environ_has name env = true ->
  environ_has name (fold_left (fun env line => load_line line env) lines env) = true.
Proof.
  induction lines as [|line lines IH]; intros env name Hhas; [done|]. simpl.
  apply IH. by apply load_line_has.
Qed.

(** A line adds nothing to an environment that went through it before. *)
Lemma load_line_again line env env' :
  (forall name, environ_has name (load_line line env) = true ->
                environ_has name env' = true) ->
  load_line line env' = env'.
Proof.
  intros Hlater. unfold load_line in *.
  destruct (negb (nonempty (strip line)) || startswith "#" (strip line)); [done|].
  destruct (negb (has_char "="%char (strip line))); [done|].
  destruct (split_once "="%char (strip line)) as [key value].
  destruct (nonempty (strip key)); [|done]. simpl in *.
  destruct (environ_has (strip key) env') eqn:Hhas'; [done|].
  rewrite <- Hhas'. symmetry in Hhas'. exfalso.
  assert (environ_has (strip key) env' = true); [|congruence].
  apply Hlater. destruct (environ_has (strip key) env) eqn:Hhas; simpl; [done|].
  rewrite environ_has_app. apply orb_true_iff. right.
  unfold environ_has. simpl. by rewrite String.eqb_refl.
Qed.

Lemma load_lines_again lines : forall env env',
  (forall name,
     environ_has name (fold_left (fun env line => load_line line env) lines env) = true ->
     environ_has name env' = true) ->
  fold_left (fun env line => load_line line env) lines env' = env'.
Proof.
  induction lines as [|line lines IH]; intros env env' Hlater; [done|]. simpl in *.
  rewrite (load_line_again line env env').
  - by apply (IH (load_line line env)).
  - intros name Hname. apply Hlater. by apply load_lines_has.
Qed.

Lemma load_lines_spec lines : forall env,
  let env' := fold_left (fun env line => load_line line env) lines env in
  exists added,
    env' = env ++ added
    /\ (NoDup env.*1 -> NoDup env'.*1)
    /\ Forall (fun b => environ_has b.1 env = false /\ b.1 <> "" /\ strip b.1 = b.1
                        /\ strip b.2 = b.2 /\ has_char "="%char b.1 = false) added.
Proof.
  induction lines as [|line lines IH]; intros env; cbn zeta.
  - exists []. rewrite app_nil_r. split; [done|]. split; [done|]. constructor.
  - simpl. destruct (load_line_spec line env)
      as [->|(key & value & -> & Hnew & Hne & Hk & Hv & Heq)]; [apply IH|].
    destruct (IH (env ++ [(key, value)])) as (added & -> & Hnd & Hall).
    exists ((key, value) :: added). split; [by rewrite <- app_assoc|]. split.
    + intros Henv. apply Hnd. rewrite fmap_app. apply NoDup_app. split; [done|].
      split; [|apply NoDup_singleton].
      intros name Hin ->%list_elem_of_singleton. simpl in *.
      apply environ_has_elem in Hin. congruence.
    + constructor; [done|]. eapply Forall_impl; [exact Hall|].
      intros [k v] (Hhas & ? & ? & ? & ?). simpl in *. split; [|done].
      rewrite environ_has_app in Hhas. by apply orb_false_iff in Hhas as [? _].
Qed.

(** Loading the [.env] file never changes a variable of the process: the
    environment it leaves is the old one followed by new bindings, whose
    names are new, non-empty, free of white space at either end and of [=],
    and whose values are stripped; names stay unique; and loading the file
    a second time changes nothing. *)
Theorem load_env_spec (file : env_file) (env : environ) :
  well_formed file ->
  let env' := _load_env_into_environ file env in
  exists added,
    env' = env ++ added
    /\ (file = NoFile -> added = [])
    /\ (forall name default,
          environ_has name env = true ->
          environ_get name env' default = environ_get name env default)
    /\ (NoDup env.*1 -> NoDup env'.*1)
    /\ Forall (fun b => environ_has b.1 env = false /\ b.1 <> "" /\ strip b.1 = b.1
                        /\ strip b.2 = b.2 /\ has_char "="%char b.1 = false) added
    /\ _load_env_into_environ file env' = env'.
Proof.
  intros _ env'. subst env'. destruct file as [|lines]; cbn [_load_env_into_environ].
  - exists []. rewrite app_nil_r. split; [done|]. split; [done|]. split; [done|].
    split; [done|]. split; [constructor|done].
  - destruct (load_lines_spec lines env) as (added & Heq & Hnd & Hall).
    cbv zeta in Heq, Hnd. exists added. split; [exact Heq|]. split; [done|].
    split. { intros name default Hhas. rewrite Heq. by apply environ_get_app. }
    split; [exact Hnd|]. split; [exact Hall|].
    by apply (load_lines_again lines env).
Qed.

(** A numbered key of the file joins the pool; [PATH] of the process stays. *)
Lemma load_env_spec_witness :
  let file := FileLines ["# keys"; "ALPHAVANTAGE_API_KEY_1 = abc"; "PATH=/x"; "broken"] in
  let env := [("PATH", "/bin")] in
  exists added,
    _load_env_into_environ file env = env ++ added
    /\ added = [("ALPHAVANTAGE_API_KEY_1", "abc")]
    /\ _parse_keys "" "" (_load_env_into_environ file env) = ["abc"].
Proof.
  intros file env.
  destruct (load_env_spec file env) as (added & Heq & _).
  { unfold file, well_formed. by repeat constructor. }
  exists added. split; [exact Heq|]. split; [|by vm_compute].
  apply (app_inv_head env). rewrite <- Heq. by vm_compute.
Defined.

End ConfigProps.

(** ** The pause between two fetches *)

Module PacingProps.
Import RateLimiter RateLimiterProps.
Local Open Scope list_scope.
Local Open Scope Q_scope.

Lemma sleep_seconds_spec n :
  (1 <= n)%Z ->
  let s := AV_CALL_SLEEP_SECONDS n in
  0.05 <= s /\ s <= 60 /\ 60 <= inject_Z n * s
  /\ (s == 60 / inject_Z n \/ s == 0.05).
Proof.
  intros Hn s. subst s. unfold AV_CALL_SLEEP_SECONDS.
  rewrite Z.max_l by lia.
  assert (Hpos : 0 < inject_Z n).
  { change 0 with (inject_Z 0). rewrite <- Zlt_Qlt. lia. }
  assert (Hone : 1 <= inject_Z n).
  { change 1 with (inject_Z 1). rewrite <- Zle_Qle. lia. }
  set (d := 60.0 / inject_Z n).
  assert (Hd : inject_Z n * d == 60).
  { unfold d. assert (60.0 == 60) as -> by reflexivity. field. lra. }
  assert (Hd60 : d <= 60).
  { unfold d. assert (60.0 == 60) as -> by reflexivity.
    apply Qle_shift_div_r; [done|]. lra. }
  destruct (AnalyticsProps.py_max_spec 0.05 d) as (H1 & H2 & _).
  assert (Hcases : Analytics.py_max 0.05 d = d \/ Analytics.py_max 0.05 d = 0.05).
  { unfold Analytics.py_max. destruct (Analytics.Qlt_bool 0.05 d); auto. }
  change 0.05 with (5 # 100) in *.
  split; [exact H1|]. split.
  { destruct Hcases as [->| ->]; [done|]. by compute. }
  split.
  { assert (inject_Z n * d <= inject_Z n * Analytics.py_max (5 # 100) d); [|lra].
    apply Qmult_le_l; done. }
  destruct Hcases as [->| ->]; [left|right; reflexivity].
  unfold d. assert (60.0 == 60) as -> by reflexivity. reflexivity.
Qed.

Lemma spaced_start s t0 n : spaced s (start t0 n).
Proof. intros j c. by destruct j. Qed.

Lemma inject_nat_S j : inject_Z (Z.of_nat (S j)) == inject_Z (Z.of_nat j) + 1.
Proof. rewrite Nat2Z.inj_succ. unfold Z.succ. rewrite inject_Z_plus. reflexivity. Qed.

(** A call that comes at least [s] seconds after the last one does not
    wait, when [max_calls] pauses of [s] seconds fill a minute. *)
Lemma spaced_call s gap lag tl :
  (1 <= max_calls (limiter tl))%Z -> 0 <= s ->
  60 <= inject_Z (max_calls (limiter tl)) * s ->
  s <= gap -> 0 <= lag -> spaced s tl ->
  exists tl',
    call gap lag tl = Ok tl'
    /\ spaced s tl'
    /\ max_calls (limiter tl') = max_calls (limiter tl)
    /\ waited tl' = waited tl ++ [0]
    /\ length (recorded tl') = S (length (recorded tl)).
Proof.
  intros Hmax Hs Hfill Hgap Hlag Hsp.
  set (now := clock tl + gap).
  destruct (drop_expired_split now (calls (limiter tl))) as (dropped & Hsplit & _).
  assert (Hlive : forall j c, rev (drop_expired now (calls (limiter tl))) !! j = Some c ->
                              c + inject_Z (Z.of_nat j) * s <= clock tl).
  { intros j c Hj. apply Hsp. rewrite Hsplit, rev_app_distr.
    by apply lookup_app_l_Some. }
  assert (Hwait : wait_for now (limiter tl)
                  = (Ok None, drop_expired now (calls (limiter tl)))).
  { unfold wait_for.
    destruct (Z.leb_spec (max_calls (limiter tl))
                (Z.of_nat (length (drop_expired now (calls (limiter tl)))))) as [Hfull|];
      [|done].
    destruct (drop_expired now (calls (limiter tl))) as [|oldest rest] eqn:Hl;
      [simpl in Hfull; lia|].
    assert (Hold : rev (oldest :: rest) !! length rest = Some oldest).
    { simpl. rewrite lookup_app_r by (rewrite length_rev; lia).
      by rewrite length_rev, Nat.sub_diag. }
    specialize (Hlive _ _ Hold).
    assert (Hlen : inject_Z (max_calls (limiter tl)) * s
                   <= (inject_Z (Z.of_nat (length rest)) + 1) * s).
    { apply Qmult_le_compat_r; [|done]. rewrite <- inject_nat_S, <- Zle_Qle.
      simpl in Hfull. lia. }
    assert (Hsleep : Analytics.Qlt_bool 0 (60 - (now - oldest)) = false).
    { apply not_true_iff_false. rewrite AnalyticsProps.Qlt_bool_iff. unfold now.
      set (a := inject_Z (Z.of_nat (length rest)) * s) in *.
      assert ((inject_Z (Z.of_nat (length rest)) + 1) * s == a + s) by (unfold a; ring).
      lra. }
    by rewrite Hsleep. }
  unfold call. fold now. rewrite Hwait. eexists. split; [reflexivity|].
  unfold acquire. rewrite Hwait. cbn [snd clock limiter calls max_calls waited recorded wait_of].
  split; [|split; [done|split; [done|]]].
  - intros j c. cbn [limiter calls clock]. rewrite rev_app_distr. simpl.
    destruct j as [|j]; simpl.
    + intros [= <-]. change (inject_Z (Z.of_nat 0)) with 0. lra.
    + intros Hj. specialize (Hlive _ _ Hj).
      pose proof (inject_nat_S j) as HS.
      set (a := inject_Z (Z.of_nat j) * s) in *.
      assert (inject_Z (Z.of_nat (S j)) * s == a + s) by (unfold a; rewrite HS; ring).
      unfold now. lra.
  - rewrite length_app. simpl. lia.
Qed.

Lemma spaced_calls s timing : forall tl,
  (1 <= max_calls (limiter tl))%Z -> 0 <= s ->
  60 <= inject_Z (max_calls (limiter tl)) * s ->
  Forall (fun gl => s <= gl.1 /\ 0 <= gl.2) timing -> spaced s tl ->
  exists tl',
    calls_in_turn timing tl = Ok tl'
    /\ waited tl' = waited tl ++ repeat 0 (length timing)
    /\ length (recorded tl') = (length (recorded tl) + length timing)%nat.
Proof.
  induction timing as [|[gap lag] timing IH]; intros tl Hmax Hs Hfill Hall Hsp.
  - exists tl. simpl. rewrite app_nil_r. split; [done|]. split; [done|lia].
  - apply Forall_cons in Hall as [[Hgap Hlag] Hall]. simpl in Hgap, Hlag.
    destruct (spaced_call s gap lag tl Hmax Hs Hfill Hgap Hlag Hsp)
      as (tl1 & Hcall & Hsp1 & Hmax1 & Hw1 & Hr1).
    destruct (IH tl1) as (tl' & Hrun & Hw & Hr); try done; try (by rewrite Hmax1).
    exists tl'. cbn [calls_in_turn]. rewrite Hcall. split; [done|].
    split; [by rewrite Hw, Hw1, <- app_assoc|]. rewrite Hr, Hr1. simpl. lia.
Qed.

(** The pause the refresh loops make between two fetches,
    [max(0.05, 60 / max(MAX_CALLS_PER_MINUTE, 1))] seconds, is at least 0.05
    and at most 60 seconds, and [MAX_CALLS_PER_MINUTE] such pauses fill a
    minute.  So a caller that lets this pause pass between two calls of
    [acquire] is never made to wait by the limiter. *)
Theorem paced_calls_never_wait (MAX_CALLS_PER_MINUTE : Z) (t0 : Q)
    (timing : list (Q * Q)) :
  (1 <= MAX_CALLS_PER_MINUTE)%Z ->
  let s := AV_CALL_SLEEP_SECONDS MAX_CALLS_PER_MINUTE in
  Forall (fun gl => s <= gl.1 /\ 0 <= gl.2) timing ->
  0.05 <= s /\ s <= 60 /\ 60 <= inject_Z MAX_CALLS_PER_MINUTE * s
  /\ (s == 60 / inject_Z MAX_CALLS_PER_MINUTE \/ s == 0.05)
  /\ exists tl,
       calls_in_turn timing (start t0 MAX_CALLS_PER_MINUTE) = Ok tl
       /\ waited tl = repeat 0 (length timing)
       /\ length (recorded tl) = length timing.
Proof.
  intros Hn s Hall.
  destruct (sleep_seconds_spec MAX_CALLS_PER_MINUTE Hn) as (H1 & H2 & H3 & H4).
  fold s in H1, H2, H3, H4.
  split; [done|]. split; [done|]. split; [done|]. split; [done|].
  assert (Hs : 0 <= s) by (change 0.05 with (5 # 100) in H1; lra).
  destruct (spaced_calls s timing (start t0 MAX_CALLS_PER_MINUTE) Hn Hs H3 Hall
              (spaced_start s t0 MAX_CALLS_PER_MINUTE)) as (tl & Hrun & Hw & Hr).
  by exists tl.
Qed.

(** Five calls a minute, one every twelve seconds: none of seven waits. *)
Lemma paced_calls_never_wait_witness :
  AV_CALL_SLEEP_SECONDS 5 == 12
  /\ exists tl,
       calls_in_turn (repeat (12, 0) 7) (start 0 5) = Ok tl
       /\ waited tl = repeat 0 7.
Proof.
  destruct (paced_calls_never_wait 5 0 (repeat (12, 0) 7)) as (_ & _ & _ & _ & tl & Hrun & Hw & _).
  - lia.
  - repeat constructor; by compute.
  - split; [by compute|]. by exists tl.
Defined.

End PacingProps.
